(** * GPU uniform buffers (gpu_uniformbuffer.c): a shallow embedding

    The C file manages OpenGL uniform buffer objects.  The embedding keeps
    the structs as records, the linked lists (ListBase) as lists, pointers
    as addresses or [option] (NULL = [None]), the calls into OpenGL and the
    text written to stderr as a trace of events, and the failures of the C
    code (a failed BLI_assert, a NULL dereference, an access outside an
    object) as faults of a small error-and-trace monad. *)

From Stdlib Require Import ZArith String Ascii Bool Lia.
From Stdlib Require Import List Permutation Sorted.
From Stdlib Require Import Strings.Byte.
Import ListNotations.
Local Open Scope Z_scope.

(* ===================================================================== *)
(** ** Faults, events and the monad                                       *)
(* ===================================================================== *)

(** What stops the C code: BLI_assert (taken as active), a dereference of
    NULL, a read or write outside an array or an allocation, signed [int]
    overflow, and, for the model only, a loop that used up its fuel. *)
Inductive fault : Type :=
| AssertFailed
| NullDeref
| OutOfBounds
| IntOverflow
| OutOfFuel.

(** A byte of CPU memory: [None] is a byte of a fresh MEM_mallocN block that
    has not been written yet. *)
Definition mbyte : Type := option byte.

(** The calls that leave the module.  Buffer contents travel with the upload
    calls ([None] is a NULL data pointer). *)
Inductive event : Type :=
| glGenBuffers (bindcode : Z)
| glBindBuffer (bindcode : Z)
| glBufferData (size : Z) (data : option (list mbyte))
| glBufferSubData (offset size : Z) (data : option (list mbyte))
| glBindBufferBase (number bindcode : Z)
| glDeleteBuffers (bindcode : Z)
| stderr_print (text : string).

Inductive M (A : Type) : Type :=
| Done (a : A) (tr : list event)
| Fault (f : fault).
Arguments Done {A} a tr.
Arguments Fault {A} f.

Definition ret {A} (a : A) : M A := Done a [].

Definition bind {A B} (m : M A) (k : A -> M B) : M B :=
  match m with
  | Done a tr =>
      match k a with
      | Done b tr' => Done b (tr ++ tr')
      | Fault f => Fault f
      end
  | Fault f => Fault f
  end.

Definition emit (e : event) : M unit := Done tt [e].
Definition raise {A} (f : fault) : M A := Fault f.
Definition BLI_assert (b : bool) : M unit := if b then ret tt else raise AssertFailed.

Declare Scope ubo_scope.
Delimit Scope ubo_scope with ubo.
Notation "x <- m ;; k" := (bind m (fun x => k))
  (at level 61, m at next level, right associativity) : ubo_scope.
Notation "m ;; k" := (bind m (fun _ => k))
  (at level 61, right associativity) : ubo_scope.
Local Open Scope ubo_scope.

(** The upload calls: the full allocation and the partial-range one. *)
Definition is_full_upload (e : event) : bool :=
  match e with glBufferData _ _ => true | _ => false end.
Definition is_sub_upload (e : event) : bool :=
  match e with glBufferSubData _ _ _ => true | _ => false end.
Definition is_upload (e : event) : bool := is_full_upload e || is_sub_upload e.
Definition is_gl_call (e : event) : bool :=
  match e with stderr_print _ => false | _ => true end.

Definition count_events (p : event -> bool) (tr : list event) : nat :=
  length (filter p tr).

(* ===================================================================== *)
(** ** Data model                                                         *)
(* ===================================================================== *)

(** Modelled from the spec: the GPUType enumeration of GPU_material.h, which
    is not among the sources.  The value of a type is its number of float
    components (glossary: 1 = scalar, 2 = vec2, 3 = vec3, 4 = vec4); the code
    relies on it in [offset += gputype] and [gputype * sizeof(float)]. *)
Definition GPUType : Type := Z.
Definition GPU_NONE : GPUType := 0.
Definition GPU_FLOAT : GPUType := 1.
Definition GPU_VEC2 : GPUType := 2.
Definition GPU_VEC3 : GPUType := 3.
Definition GPU_VEC4 : GPUType := 4.

Definition MAX_UBO_GPU_TYPE : GPUType := GPU_VEC4.
Definition sizeof_float : Z := 4.
Definition INT_MAX : Z := 2147483647.

(** Modelled from the spec: the source tag of an input (gpu_codegen.h, not
    among the sources).  Only GPU_SOURCE_VEC_UNIFORM, the plain-value tag, is
    told apart from the others by this file. *)
Inductive GPUDataSource : Type :=
| GPU_SOURCE_VEC_UNIFORM
| GPU_SOURCE_BUILTIN
| GPU_SOURCE_TEX_PIXEL
| GPU_SOURCE_TEX
| GPU_SOURCE_OPENGL_BUILTIN
| GPU_SOURCE_ATTRIB.

Definition GPUDataSource_eqb (a b : GPUDataSource) : bool :=
  match a, b with
  | GPU_SOURCE_VEC_UNIFORM, GPU_SOURCE_VEC_UNIFORM
  | GPU_SOURCE_BUILTIN, GPU_SOURCE_BUILTIN
  | GPU_SOURCE_TEX_PIXEL, GPU_SOURCE_TEX_PIXEL
  | GPU_SOURCE_TEX, GPU_SOURCE_TEX
  | GPU_SOURCE_OPENGL_BUILTIN, GPU_SOURCE_OPENGL_BUILTIN
  | GPU_SOURCE_ATTRIB, GPU_SOURCE_ATTRIB => true
  | _, _ => false
  end.

(** A GPUInput node, with the fields this file reads.  [input_addr] is the
    address of the node: the code compares inputs by pointer.  [input_link]
    is the producing link (NULL = [None]); [input_dynamicvec] is the memory
    readable behind the live-value pointer (NULL = [None]). *)
Record GPUInput : Type := mkGPUInput {
  input_addr : Z;
  input_type : GPUType;
  input_source : GPUDataSource;
  input_link : option Z;
  input_dynamicvec : option (list byte)
}.

(** A LinkData node of the sorted list: [link->data] is a GPUInput, and one
    node is made per input, so a node is told from another by the address of
    its input. *)
Abbreviation LinkData := GPUInput (only parsing).
Definition ptr_eqb (a b : GPUInput) : bool := input_addr a =? input_addr b.

Inductive GPUUniformBufferType : Type :=
| GPU_UBO_STATIC
| GPU_UBO_DYNAMIC.

Definition is_dynamic_type (t : GPUUniformBufferType) : bool :=
  match t with GPU_UBO_DYNAMIC => true | GPU_UBO_STATIC => false end.

Definition GPU_UBO_FLAG_INITIALIZED : Z := Z.shiftl 1 0.
Definition GPU_UBO_FLAG_DIRTY : Z := Z.shiftl 1 1.

Record GPUUniformBuffer : Type := mkGPUUniformBuffer {
  size : Z;        (* in bytes *)
  bindcode : Z;    (* opengl identifier for UBO *)
  bindpoint : Z;   (* current binding point *)
  type : GPUUniformBufferType
}.

Record GPUUniformBufferDynamicItem : Type := mkItem {
  item_gputype : GPUType;
  item_offset : Z;
  item_size : Z
}.

Record GPUUniformBufferDynamic : Type := mkGPUUniformBufferDynamic {
  buffer : GPUUniformBuffer;
  items : list GPUUniformBufferDynamicItem;
  data : option (list mbyte);   (* staging block, NULL = None *)
  id_lookup : option (list Z);  (* NULL = None *)
  flag : Z
}.

(** What a [GPUUniformBuffer *] points to: a static buffer, or the base of a
    dynamic one. *)
Inductive ubo_object : Type :=
| UStatic (b : GPUUniformBuffer)
| UDynamic (d : GPUUniformBufferDynamic).

Definition base (u : ubo_object) : GPUUniformBuffer :=
  match u with UStatic b => b | UDynamic d => buffer d end.

(** The cast of the base pointer to a GPUUniformBufferDynamic pointer; on a
    static object the fields of the larger struct lie outside the
    allocation. *)
Definition as_dynamic (u : ubo_object) : M GPUUniformBufferDynamic :=
  match u with UDynamic d => ret d | UStatic _ => raise OutOfBounds end.

Definition set_size (b : GPUUniformBuffer) (v : Z) : GPUUniformBuffer :=
  mkGPUUniformBuffer v (bindcode b) (bindpoint b) (type b).
Definition set_bindcode (b : GPUUniformBuffer) (v : Z) : GPUUniformBuffer :=
  mkGPUUniformBuffer (size b) v (bindpoint b) (type b).
Definition set_bindpoint (b : GPUUniformBuffer) (v : Z) : GPUUniformBuffer :=
  mkGPUUniformBuffer (size b) (bindcode b) v (type b).
Definition set_type (b : GPUUniformBuffer) (v : GPUUniformBufferType) : GPUUniformBuffer :=
  mkGPUUniformBuffer (size b) (bindcode b) (bindpoint b) v.

Definition set_buffer (d : GPUUniformBufferDynamic) (b : GPUUniformBuffer) :=
  mkGPUUniformBufferDynamic b (items d) (data d) (id_lookup d) (flag d).
Definition set_items (d : GPUUniformBufferDynamic) (v : list GPUUniformBufferDynamicItem) :=
  mkGPUUniformBufferDynamic (buffer d) v (data d) (id_lookup d) (flag d).
Definition set_data (d : GPUUniformBufferDynamic) (v : option (list mbyte)) :=
  mkGPUUniformBufferDynamic (buffer d) (items d) v (id_lookup d) (flag d).
Definition set_id_lookup (d : GPUUniformBufferDynamic) (v : option (list Z)) :=
  mkGPUUniformBufferDynamic (buffer d) (items d) (data d) v (flag d).
Definition set_flag (d : GPUUniformBufferDynamic) (v : Z) :=
  mkGPUUniformBufferDynamic (buffer d) (items d) (data d) (id_lookup d) v.

Definition with_base (u : ubo_object) (f : GPUUniformBuffer -> GPUUniformBuffer) : ubo_object :=
  match u with
  | UStatic b => UStatic (f b)
  | UDynamic d => UDynamic (set_buffer d (f (buffer d)))
  end.

(** [flag & bit] as a C condition. *)
Definition flag_test (f bit : Z) : bool := negb (Z.land f bit =? 0).

(** MEM_callocN: every field zero. *)
Definition calloc_GPUUniformBuffer : GPUUniformBuffer :=
  mkGPUUniformBuffer 0 0 0 GPU_UBO_STATIC.
Definition calloc_GPUUniformBufferDynamic : GPUUniformBufferDynamic :=
  mkGPUUniformBufferDynamic calloc_GPUUniformBuffer [] None None 0.

(** MEM_mallocN of [n] bytes: a block of bytes not yet written. *)
Definition MEM_mallocN (n : Z) : list mbyte := repeat None (Z.to_nat n).

(* ===================================================================== *)
(** ** The list and memory primitives the file calls                      *)
(* ===================================================================== *)

(** Modelled from the spec: BLI_findindex of blenlib (not among the
    sources), the identity search of the builder: the position of the first
    node that is [vlink], counted from 0, and -1 when there is none. *)
Fixpoint BLI_findindex_from (l : list GPUInput) (vlink : GPUInput) (number : Z) : Z :=
  match l with
  | [] => -1
  | link :: rest =>
      if ptr_eqb link vlink then number
      else BLI_findindex_from rest vlink (number + 1)
  end.
Definition BLI_findindex (l : list GPUInput) (vlink : GPUInput) : Z :=
  BLI_findindex_from l vlink 0.

(** Modelled from the spec: BLI_findlink of blenlib (not among the sources),
    the lookup of an item by its packed position: the node at index [number],
    NULL when the index is negative or past the end. *)
Definition BLI_findlink {A} (l : list A) (number : Z) : option A :=
  if 0 <=? number then nth_error l (Z.to_nat number) else None.

(** [link->next] for a node of a list: the node after the one at the address
    of [link], NULL after the last. *)
Fixpoint link_next (l : list LinkData) (link : LinkData) : option LinkData :=
  match l with
  | [] => None
  | x :: rest => if ptr_eqb x link then hd_error rest else link_next rest link
  end.

(** Modelled from the spec: BLI_remlink of blenlib (not among the sources):
    the list without the node [vlink]. *)
Fixpoint BLI_remlink (l : list LinkData) (vlink : LinkData) : list LinkData :=
  match l with
  | [] => []
  | x :: rest => if ptr_eqb x vlink then rest else x :: BLI_remlink rest vlink
  end.

(** Modelled from the spec: BLI_insertlinkafter of blenlib (not among the
    sources): [vnewlink] placed immediately after the node [vprevlink]. *)
Fixpoint BLI_insertlinkafter (l : list LinkData) (vprevlink vnewlink : LinkData)
  : list LinkData :=
  match l with
  | [] => [vnewlink]
  | x :: rest =>
      if ptr_eqb x vprevlink then x :: vnewlink :: rest
      else x :: BLI_insertlinkafter rest vprevlink vnewlink
  end.

(** Modelled from the spec: BLI_listbase_sort of blenlib (not among the
    sources).  Section 4.1 asks for a stable sort driven by the comparison
    alone; the callback returns 1 when its first argument has to come after
    its second.  An entry moves behind a later one only when the callback
    says so, hence entries the callback does not order keep their order. *)
Fixpoint sort_insert {A} (cmp : A -> A -> Z) (x : A) (l : list A) : list A :=
  match l with
  | [] => [x]
  | y :: rest => if 0 <? cmp x y then y :: sort_insert cmp x rest else x :: y :: rest
  end.
Fixpoint BLI_listbase_sort {A} (cmp : A -> A -> Z) (l : list A) : list A :=
  match l with
  | [] => []
  | x :: rest => sort_insert cmp x (BLI_listbase_sort cmp rest)
  end.

(** A store into a C array of [length a] entries. *)
Definition array_set {A} (a : list A) (i : Z) (v : A) : M (list A) :=
  if (0 <=? i) && (i <? Z.of_nat (length a))
  then ret (firstn (Z.to_nat i) a ++ v :: skipn (S (Z.to_nat i)) a)
  else raise OutOfBounds.

(** A load from a C array. *)
Definition array_get {A} (a : list A) (i : Z) : M A :=
  if 0 <=? i then
    match nth_error a (Z.to_nat i) with
    | Some v => ret v
    | None => raise OutOfBounds
    end
  else raise OutOfBounds.

(** [memcpy(dst + pos, src, n)] into a block of [length dst] bytes from a
    source with [length src] readable bytes. *)
Definition memcpy (dst : list mbyte) (pos : Z) (src : list byte) (n : Z) : M (list mbyte) :=
  if (0 <=? pos) && (0 <=? n) && (pos + n <=? Z.of_nat (length dst))
     && (n <=? Z.of_nat (length src))
  then ret (firstn (Z.to_nat pos) dst
            ++ map Some (firstn (Z.to_nat n) src)
            ++ skipn (Z.to_nat (pos + n)) dst)
  else raise OutOfBounds.

(** The bytes of a block from [pos], [n] of them. *)
Definition block_bytes (blk : list mbyte) (pos n : Z) : list mbyte :=
  firstn (Z.to_nat n) (skipn (Z.to_nat pos) blk).

(** BLI_snprintf(err_out, 256, msg) on an optional caller buffer. *)
Definition err_write (err_out : option string) (msg : string) : option string :=
  match err_out with
  | Some _ => Some (substring 0 255 msg)
  | None => None
  end.

Definition msg_create_failed : string := "GPUUniformBuffer: UBO create failed".
Definition msg_too_big : string := "GPUUniformBuffer: UBO too big".
Definition msg_no_slots : string :=
  ("Not enough UBO slots." ++ String (ascii_of_nat 10) EmptyString)%string.

(** The platform: the two limits of GPU_extensions.h and the name the driver
    hands out in glGenBuffers (0 when it hands out none). *)
Record platform : Type := mkPlatform {
  GPU_max_ubo_size : Z;
  GPU_max_ubo_binds : Z;
  glGenBuffers_result : Z
}.

(* ===================================================================== *)
(** ** The functions of gpu_uniformbuffer.c                               *)
(* ===================================================================== *)

Definition gpu_uniformbuffer_initialize (ubo : GPUUniformBuffer) (d : option (list mbyte))
  : M unit :=
  emit (glBindBuffer (bindcode ubo));;
  emit (glBufferData (size ubo) d);;
  emit (glBindBuffer 0).

Definition gpu_uniformbuffer_update (ubo : GPUUniformBuffer) (d : option (list mbyte))
  : M unit :=
  emit (glBindBuffer (bindcode ubo));;
  emit (glBufferSubData 0 (size ubo) d);;
  emit (glBindBuffer 0).

Definition gpu_input_is_dynamic_uniform (input : GPUInput) : bool :=
  GPUDataSource_eqb (input_source input) GPU_SOURCE_VEC_UNIFORM
  && match input_link input with None => true | Some _ => false end.

(** Free the data, and clean the items list. *)
Definition gpu_uniformbuffer_dynamic_reset (ubo : GPUUniformBufferDynamic)
  : GPUUniformBufferDynamic :=
  mkGPUUniformBufferDynamic (set_size (buffer ubo) 0) [] None None (flag ubo).

(** The object is gone afterwards: nothing is returned. *)
Definition GPU_uniformbuffer_free (ubo : ubo_object) : M unit :=
  ubo <- (if is_dynamic_type (type (base ubo))
          then d <- as_dynamic ubo;; ret (UDynamic (gpu_uniformbuffer_dynamic_reset d))
          else ret ubo);;
  emit (glDeleteBuffers (bindcode (base ubo))).

Definition GPU_uniformbuffer_update (ubo : ubo_object) (d : option (list mbyte)) : M unit :=
  BLI_assert (negb (is_dynamic_type (type (base ubo))));;
  gpu_uniformbuffer_update (base ubo) d.

(** The copy loop of GPU_uniformbuffer_dynamic_eval; [sorted_id] is the
    position of the cursor in [id_lookup].  The texts the loop prints on
    stdout are left out: they change nothing in the buffer. *)
Fixpoint dynamic_eval_loop (inputs : list GPUInput) (ubo : GPUUniformBufferDynamic)
  (sorted_id : Z) : M GPUUniformBufferDynamic :=
  match inputs with
  | [] => ret ubo
  | input :: rest =>
      if gpu_input_is_dynamic_uniform input then
        match input_dynamicvec input with
        | None => raise AssertFailed
        | Some dynamicvec =>
            lookup <- match id_lookup ubo with
                      | Some a => ret a
                      | None => raise NullDeref
                      end;;
            id <- array_get lookup sorted_id;;
            item <- match BLI_findlink (items ubo) id with
                    | Some it => ret it
                    | None => raise NullDeref
                    end;;
            blk <- match data ubo with
                   | Some b => ret b
                   | None => raise NullDeref
                   end;;
            blk' <- memcpy blk (sizeof_float * item_offset item) dynamicvec (item_size item);;
            dynamic_eval_loop rest (set_data ubo (Some blk')) (sorted_id + 1)
        end
      else dynamic_eval_loop rest ubo sorted_id
  end.

(** Update the data based on unsorted GPUInput nodes. *)
Definition GPU_uniformbuffer_dynamic_eval (ubo_ : ubo_object) (inputs : list GPUInput)
  : M ubo_object :=
  BLI_assert (is_dynamic_type (type (base ubo_)));;
  ubo <- as_dynamic ubo_;;
  ubo <- dynamic_eval_loop inputs ubo 0;;
  ret (UDynamic ubo).

Definition GPU_uniformbuffer_dynamic_update (ubo_ : ubo_object) : M ubo_object :=
  BLI_assert (is_dynamic_type (type (base ubo_)));;
  ubo <- as_dynamic ubo_;;
  ubo <- (if flag_test (flag ubo) GPU_UBO_FLAG_INITIALIZED then
            gpu_uniformbuffer_update (buffer ubo) (data ubo);;
            ret ubo
          else
            let ubo := set_flag ubo (Z.lor (flag ubo) GPU_UBO_FLAG_INITIALIZED) in
            gpu_uniformbuffer_initialize (buffer ubo) (data ubo);;
            ret ubo);;
  ret (UDynamic (set_flag ubo (Z.land (flag ubo) (Z.lnot GPU_UBO_FLAG_DIRTY)))).

(** [link_next] is [link->next], dereferenced by the caller. *)
Definition get_padded_gpu_type (link : LinkData) (link_next : option LinkData) : GPUType :=
  let gputype := input_type link in
  (* Unless the vec3 is followed by a float we need to treat it as a vec4. *)
  if (gputype =? GPU_VEC3)
     && match link_next with
        | Some next => negb (input_type next =? GPU_FLOAT)
        | None => false
        end
  then GPU_VEC4
  else gputype.

(** Returns 1 if the first item should be after second item. *)
Definition inputs_cmp (link_a link_b : LinkData) : Z :=
  if input_type link_a <? input_type link_b then 1 else 0.

(** The first loop of gpu_uniformbuffer_inputs_sort: the table of the first
    node of each run of equal types, [MAX_UBO_GPU_TYPE + 1] entries wide. *)
Fixpoint inputs_lookup_fill (inputs : list LinkData) (inputs_lookup : list (option LinkData))
  (cur_type : GPUType) : M (list (option LinkData)) :=
  match inputs with
  | [] => ret inputs_lookup
  | link :: rest =>
      if input_type link =? cur_type then inputs_lookup_fill rest inputs_lookup cur_type
      else
        tbl <- array_set inputs_lookup (input_type link) (Some link);;
        inputs_lookup_fill rest tbl (input_type link)
  end.

Definition lookup_entry (inputs_lookup : list (option LinkData)) (t : GPUType)
  : option LinkData :=
  nth (Z.to_nat t) inputs_lookup None.

(** The while loop of gpu_uniformbuffer_inputs_sort.  Each turn moves [link]
    one node further, so [fuel] turns, one per node, are enough. *)
Fixpoint inputs_pair_loop (fuel : nat) (inputs : list LinkData)
  (inputs_lookup : list (option LinkData)) (link : option LinkData) : M (list LinkData) :=
  match link with
  | None => ret inputs
  | Some lk =>
      if negb (input_type lk =? GPU_VEC3) then ret inputs
      else
        match fuel with
        | O => raise OutOfFuel
        | S fuel' =>
            match link_next inputs lk with
            | None => ret inputs
            | Some nx =>
                (* If GPU_VEC3 is followed by nothing or a GPU_FLOAT, no need for aligment. *)
                if input_type nx =? GPU_FLOAT then ret inputs
                else
                  (* If there is a float, move it next to current vec3. *)
                  match lookup_entry inputs_lookup GPU_FLOAT with
                  | Some float_input =>
                      tbl <- array_set inputs_lookup GPU_FLOAT (link_next inputs float_input);;
                      inputs_pair_loop fuel'
                        (BLI_insertlinkafter (BLI_remlink inputs float_input) lk float_input)
                        tbl (Some nx)
                  | None => inputs_pair_loop fuel' inputs inputs_lookup (Some nx)
                  end
            end
        end
  end.

(** Make sure we respect the expected alignment of UBOs. *)
Definition gpu_uniformbuffer_inputs_sort (inputs : list LinkData) : M (list LinkData) :=
  (* Order them as vec4, vec3, vec2, float. *)
  let inputs := BLI_listbase_sort inputs_cmp inputs in
  tbl <- inputs_lookup_fill inputs (repeat None (Z.to_nat (MAX_UBO_GPU_TYPE + 1)))
           (MAX_UBO_GPU_TYPE + 1);;
  (* If there is no GPU_VEC3 there is no need for alignment. *)
  match lookup_entry tbl GPU_VEC3 with
  | None => ret inputs
  | Some link => inputs_pair_loop (length inputs) inputs tbl (Some link)
  end.

Definition gpu_uniformbuffer_populate (ubo : GPUUniformBufferDynamic) (gputype : GPUType)
  (offset : Z) : M (GPUUniformBufferDynamic * GPUUniformBufferDynamicItem) :=
  BLI_assert (gputype <=? MAX_UBO_GPU_TYPE);;
  let item := mkItem gputype offset (gputype * sizeof_float) in
  (if size (buffer ubo) + item_size item <=? INT_MAX then ret tt else raise IntOverflow);;
  let ubo := set_buffer ubo (set_size (buffer ubo) (size (buffer ubo) + item_size item)) in
  let ubo := set_flag ubo (Z.lor (flag ubo) GPU_UBO_FLAG_DIRTY) in
  let ubo := set_items ubo (items ubo ++ [item]) in
  ret (ubo, item).

(** The layout loop of GPU_uniformbuffer_dynamic_sort_and_create over the
    sorted nodes.  [offset] counts float components.  [id_lookup] holds one
    slot per qualifying input and the sorted list holds exactly those nodes,
    so the cursor write is an append. *)
Fixpoint dynamic_layout_loop (inputs : list GPUInput) (links : list LinkData)
  (ubo : GPUUniformBufferDynamic) (id_lookup_w : list Z) (offset : Z)
  : M (GPUUniformBufferDynamic * list Z) :=
  match links with
  | [] => ret (ubo, id_lookup_w)
  | link :: rest =>
      if gpu_input_is_dynamic_uniform link then
        let gputype := get_padded_gpu_type link (hd_error rest) in
        r <- gpu_uniformbuffer_populate ubo gputype offset;;
        let offset := offset + gputype in
        let id := BLI_findindex inputs link in
        BLI_assert (negb (id =? -1));;
        dynamic_layout_loop inputs rest (fst r) (id_lookup_w ++ [id]) offset
      else dynamic_layout_loop inputs rest ubo id_lookup_w offset
  end.

(** What a constructor leaves behind: the returned pointer (NULL = [None]),
    the sorted list handed back through [r_inputs_sorted], and the caller's
    error buffer ([None] when the caller passed NULL). *)
Record created : Type := mkCreated {
  created_ubo : option ubo_object;
  r_inputs_sorted : list LinkData;
  err_out : option string
}.

Section Platform.
Variable pf : platform.

Definition GPU_uniformbuffer_create (sz : Z) (d : option (list mbyte))
  (err : option string) : M created :=
  let ubo := set_bindpoint (set_size calloc_GPUUniformBuffer sz) (-1) in
  (* Generate Buffer object *)
  emit (glGenBuffers (glGenBuffers_result pf));;
  let ubo := set_bindcode ubo (glGenBuffers_result pf) in
  if bindcode ubo =? 0 then
    GPU_uniformbuffer_free (UStatic ubo);;
    ret (mkCreated None [] (err_write err msg_create_failed))
  else if GPU_max_ubo_size pf <? size ubo then
    GPU_uniformbuffer_free (UStatic ubo);;
    ret (mkCreated None [] (err_write err msg_too_big))
  else
    gpu_uniformbuffer_initialize ubo d;;
    ret (mkCreated (Some (UStatic ubo)) [] err).

(** Create dynamic UBO from parameters.
    Return NULL if failed to create or if [inputs] is empty. *)
Definition GPU_uniformbuffer_dynamic_sort_and_create (inputs : list GPUInput)
  (r_sorted : list LinkData) (err : option string) : M created :=
  (* There is no point on creating an UBO if there is no valid input. *)
  BLI_assert (match r_sorted with [] => true | _ => false end);;
  let r_sorted := r_sorted ++ filter gpu_input_is_dynamic_uniform inputs in
  let num_inputs := Z.of_nat (length (filter gpu_input_is_dynamic_uniform inputs)) in
  if num_inputs =? 0 then ret (mkCreated None r_sorted err)
  else
    let ubo := calloc_GPUUniformBufferDynamic in
    let ubo := set_buffer ubo (set_type (buffer ubo) GPU_UBO_DYNAMIC) in
    let ubo := set_buffer ubo (set_bindpoint (buffer ubo) (-1)) in
    let ubo := set_flag ubo GPU_UBO_FLAG_DIRTY in
    (* Generate Buffer object. *)
    emit (glGenBuffers (glGenBuffers_result pf));;
    let ubo := set_buffer ubo (set_bindcode (buffer ubo) (glGenBuffers_result pf)) in
    if bindcode (buffer ubo) =? 0 then
      GPU_uniformbuffer_free (UDynamic ubo);;
      ret (mkCreated None r_sorted (err_write err msg_create_failed))
    else if GPU_max_ubo_size pf <? size (buffer ubo) then
      GPU_uniformbuffer_free (UDynamic ubo);;
      ret (mkCreated None r_sorted (err_write err msg_too_big))
    else
      (* Make sure we comply to the ubo alignment requirements, yet keep a
         lookup table for their original order. *)
      r_sorted <- gpu_uniformbuffer_inputs_sort r_sorted;;
      r <- dynamic_layout_loop inputs r_sorted ubo [] 0;;
      let ubo := set_id_lookup (fst r) (Some (snd r)) in
      let ubo := set_data ubo (Some (MEM_mallocN (size (buffer ubo)))) in
      (* Initialize buffer data. *)
      u <- GPU_uniformbuffer_dynamic_eval (UDynamic ubo) inputs;;
      u <- GPU_uniformbuffer_dynamic_update u;;
      ret (mkCreated (Some u) r_sorted err).

Definition GPU_uniformbuffer_bind (ubo : ubo_object) (number : Z) : M ubo_object :=
  if GPU_max_ubo_binds pf <=? number then
    emit (stderr_print msg_no_slots);;
    ret ubo
  else
    ubo <- (if is_dynamic_type (type (base ubo)) then
              ubo_dynamic <- as_dynamic ubo;;
              if flag_test (flag ubo_dynamic) GPU_UBO_FLAG_DIRTY
              then GPU_uniformbuffer_dynamic_update ubo
              else ret ubo
            else ret ubo);;
    (if negb (bindcode (base ubo) =? 0)
     then emit (glBindBufferBase number (bindcode (base ubo)))
     else ret tt);;
    ret (with_base ubo (fun b => set_bindpoint b number)).

End Platform.

Definition GPU_uniformbuffer_unbind (ubo : ubo_object) : ubo_object :=
  with_base ubo (fun b => set_bindpoint b (-1)).

Definition GPU_uniformbuffer_bindpoint (ubo : ubo_object) : Z :=
  bindpoint (base ubo).

Definition GPU_uniformbuffer_tag_dirty (ubo_ : ubo_object) : M ubo_object :=
  BLI_assert (is_dynamic_type (type (base ubo_)));;
  ubo <- as_dynamic ubo_;;
  ret (UDynamic (set_flag ubo (Z.lor (flag ubo) GPU_UBO_FLAG_DIRTY))).

(* ===================================================================== *)
(** ** Properties stated on the model                                     *)
(* ===================================================================== *)

(** The dirty and initialized bits of a dynamic buffer. *)
Definition is_dirty (d : GPUUniformBufferDynamic) : bool :=
  flag_test (flag d) GPU_UBO_FLAG_DIRTY.
Definition is_initialized (d : GPUUniformBufferDynamic) : bool :=
  flag_test (flag d) GPU_UBO_FLAG_INITIALIZED.

Definition ubo_initialized (u : ubo_object) : bool :=
  match u with UDynamic d => is_initialized d | UStatic _ => false end.
Definition ubo_dirty (u : ubo_object) : bool :=
  match u with UDynamic d => is_dirty d | UStatic _ => false end.

(** The calls a caller can make on a live dynamic buffer. *)
Inductive ubo_call : Type :=
| call_bind (number : Z)
| call_unbind
| call_tag_dirty
| call_dynamic_eval (inputs : list GPUInput)
| call_dynamic_update.

Definition run_call (pf : platform) (u : ubo_object) (c : ubo_call) : M ubo_object :=
  match c with
  | call_bind number => GPU_uniformbuffer_bind pf u number
  | call_unbind => ret (GPU_uniformbuffer_unbind u)
  | call_tag_dirty => GPU_uniformbuffer_tag_dirty u
  | call_dynamic_eval inputs => GPU_uniformbuffer_dynamic_eval u inputs
  | call_dynamic_update => GPU_uniformbuffer_dynamic_update u
  end.

Fixpoint run_calls (pf : platform) (u : ubo_object) (cs : list ubo_call) : M ubo_object :=
  match cs with
  | [] => ret u
  | c :: rest => u' <- run_call pf u c;; run_calls pf u' rest
  end.

(** Byte ranges of the items.  [unit] is the number of bytes one step of
    [item_offset] stands for. *)
Definition in_item_range (unit : Z) (it : GPUUniformBufferDynamicItem) (b : Z) : Prop :=
  unit * item_offset it <= b < unit * item_offset it + item_size it.

Definition ranges_disjoint (unit : Z) (its : list GPUUniformBufferDynamicItem) : Prop :=
  forall i j it1 it2 b,
    nth_error its i = Some it1 -> nth_error its j = Some it2 ->
    in_item_range unit it1 b -> in_item_range unit it2 b -> i = j.

Definition ranges_cover (unit : Z) (its : list GPUUniformBufferDynamicItem) (total : Z) : Prop :=
  forall b, 0 <= b < total <-> exists it, In it its /\ in_item_range unit it b.

(** Each item starts where the one before it ends, the first at [pos]. *)
Fixpoint ranges_contiguous (unit : Z) (pos : Z) (its : list GPUUniformBufferDynamicItem)
  : Prop :=
  match its with
  | [] => True
  | it :: rest =>
      unit * item_offset it = pos /\ ranges_contiguous unit (pos + item_size it) rest
  end.

Definition sum_item_sizes (its : list GPUUniformBufferDynamicItem) : Z :=
  fold_right (fun it acc => item_size it + acc) 0 its.

(** The layout property of section 8 for a buffer, with the unit of
    [item_offset] left open. *)
Definition layout_tiles (unit : Z) (d : GPUUniformBufferDynamic) : Prop :=
  sum_item_sizes (items d) = size (buffer d)
  /\ ranges_disjoint unit (items d)
  /\ ranges_cover unit (items d) (size (buffer d))
  /\ ranges_contiguous unit 0 (items d).

(** A 1-component entry comes right after: the head of the rest of the list
    is a GPU_FLOAT. *)
Definition followed_by_float (rest : list LinkData) : Prop :=
  exists next rest', rest = next :: rest' /\ input_type next = GPU_FLOAT.

(** Something other than a 1-component entry comes right after. *)
Definition followed_by_non_float (rest : list LinkData) : Prop :=
  exists next rest', rest = next :: rest' /\ input_type next <> GPU_FLOAT.

(** The dynamic buffer a constructor returned, if it returned one. *)
Definition created_dynamic (m : M created) : option GPUUniformBufferDynamic :=
  match m with
  | Done c _ => match created_ubo c with Some (UDynamic d) => Some d | _ => None end
  | Fault _ => None
  end.

Definition trace_of {A} (m : M A) : list event :=
  match m with Done _ tr => tr | Fault _ => [] end.

(** The staging bytes of an item, and the bytes of the live value of the
    input the item was built from: [id_lookup] records, at the packed
    position of the item, the position of that input in the caller's list. *)
Definition item_bytes (d : GPUUniformBufferDynamic) (it : GPUUniformBufferDynamicItem)
  : option (list mbyte) :=
  match data d with
  | Some blk => Some (block_bytes blk (sizeof_float * item_offset it) (item_size it))
  | None => None
  end.

Definition source_bytes (inputs : list GPUInput) (d : GPUUniformBufferDynamic)
  (k : nat) (it : GPUUniformBufferDynamicItem) : option (list mbyte) :=
  match id_lookup d with
  | Some lookup =>
      match nth_error lookup k with
      | Some id =>
          match BLI_findlink inputs id with
          | Some input =>
              match input_dynamicvec input with
              | Some v => Some (map Some (firstn (Z.to_nat (item_size it)) v))
              | None => None
              end
          | None => None
          end
      | None => None
      end
  | None => None
  end.

(** The item at packed position [k] holds the live bytes of its own input. *)
Definition item_in_sync (inputs : list GPUInput) (d : GPUUniformBufferDynamic) (k : nat)
  : Prop :=
  forall it, nth_error (items d) k = Some it ->
    item_bytes d it = source_bytes inputs d k it.

(** How the uploads of a run of calls may look, by whether the buffer was
    initialized before and is initialized after: once initialized, no
    full-allocation upload; before that, either no upload at all, or one
    full-allocation upload that is the first upload of the run and the only
    full one. *)
Definition uploads_shape (was_init : bool) (tr : list event) (now_init : bool) : Prop :=
  if was_init then
    now_init = true /\ count_events is_full_upload tr = 0%nat
  else
    (now_init = false /\ count_events is_upload tr = 0%nat)
    \/ (now_init = true
        /\ exists tr1 sz dat tr2,
             tr = tr1 ++ glBufferData sz dat :: tr2
             /\ count_events is_upload tr1 = 0%nat
             /\ count_events is_full_upload tr2 = 0%nat).

(** The items the layout loop appends for the sorted nodes [links], starting
    at component offset [offset]: the loop of the constructor without the
    buffer around it. *)
Fixpoint layout_items (links : list LinkData) (offset : Z)
  : list GPUUniformBufferDynamicItem :=
  match links with
  | [] => []
  | link :: rest =>
      if gpu_input_is_dynamic_uniform link then
        let gputype := get_padded_gpu_type link (hd_error rest) in
        mkItem gputype offset (gputype * sizeof_float)
          :: layout_items rest (offset + gputype)
      else layout_items rest offset
  end.

(** A property of a pointer that may be NULL. *)
Definition holds_if_set {A} (P : A -> Prop) (o : option A) : Prop :=
  match o with Some x => P x | None => True end.

(** The component-width classes 1 to 4. *)
Definition supported_class (input : GPUInput) : Prop :=
  GPU_FLOAT <= input_type input <= GPU_VEC4.

(** Concrete inputs.  A uniform input has no link and a live value; the
    value sits in 16 readable bytes, the four floats of a socket. *)
Definition example_platform : platform := mkPlatform 16384 36 1.

Definition uniform_input (addr : Z) (t : GPUType) (value : list byte) : GPUInput :=
  mkGPUInput addr t GPU_SOURCE_VEC_UNIFORM None (Some value).

Definition linked_input (addr : Z) (t : GPUType) : GPUInput :=
  mkGPUInput addr t GPU_SOURCE_VEC_UNIFORM (Some 4096) None.

(** vec4, vec3, float, vec2: the list of section 8. *)
Definition mixed_inputs : list GPUInput :=
  [uniform_input 1 GPU_VEC4 (repeat x01 16); uniform_input 2 GPU_VEC3 (repeat x02 16);
   uniform_input 3 GPU_FLOAT (repeat x03 16); uniform_input 4 GPU_VEC2 (repeat x04 16)].

Definition two_vec4_inputs : list GPUInput :=
  [uniform_input 1 GPU_VEC4 (repeat x01 16); uniform_input 2 GPU_VEC4 (repeat x02 16)].

(** vec2, float, vec4: sorting moves every entry to another position. *)
Definition rotated_inputs : list GPUInput :=
  [uniform_input 1 GPU_VEC2 (repeat x0a 16); uniform_input 2 GPU_FLOAT (repeat x0b 16);
   uniform_input 3 GPU_VEC4 (repeat x0c 16)].

(** The same three inputs with no byte to read past each value. *)
Definition rotated_exact_inputs : list GPUInput :=
  [uniform_input 1 GPU_VEC2 (repeat x0a 8); uniform_input 2 GPU_FLOAT (repeat x0b 4);
   uniform_input 3 GPU_VEC4 (repeat x0c 16)].

(** 1025 vec4 inputs: 16400 bytes, 16 more than [example_platform] allows. *)
Definition oversize_inputs : list GPUInput :=
  map (fun k => uniform_input (Z.of_nat k) GPU_VEC4 (repeat x00 16)) (seq 0 1025).

(** A vec4 and an entry of class 5, one above MAX_UBO_GPU_TYPE. *)
Definition wide_inputs : list GPUInput :=
  [uniform_input 1 GPU_VEC4 (repeat x01 16); uniform_input 2 5 (repeat x02 32)].

Definition is_delete (e : event) : bool :=
  match e with glDeleteBuffers _ => true | _ => false end.

(** The size of the buffer a constructor returned, the error text it left,
    and the number of handles it released. *)
Definition created_size (m : M created) : option Z :=
  option_map (fun d => size (buffer d)) (created_dynamic m).

Definition created_err (m : M created) : option (option string) :=
  match m with Done c _ => Some (err_out c) | Fault _ => None end.

Definition released (m : M created) : nat := count_events is_delete (trace_of m).

Definition oversize_result : M created :=
  GPU_uniformbuffer_dynamic_sort_and_create example_platform oversize_inputs []
    (Some EmptyString).

Definition rotated_result : M created :=
  GPU_uniformbuffer_dynamic_sort_and_create example_platform rotated_inputs [] None.

(** A one-item dynamic buffer as the constructor leaves it (initialized, not
    dirty), and the same buffer before its first update. *)
Definition clean_ubo : GPUUniformBufferDynamic :=
  mkGPUUniformBufferDynamic (mkGPUUniformBuffer 16 1 (-1) GPU_UBO_DYNAMIC)
    [mkItem GPU_VEC4 0 16] (Some (map Some (repeat x01 16))) (Some [0])
    GPU_UBO_FLAG_INITIALIZED.

Definition fresh_ubo : GPUUniformBufferDynamic :=
  mkGPUUniformBufferDynamic (mkGPUUniformBuffer 16 1 (-1) GPU_UBO_DYNAMIC)
    [mkItem GPU_VEC4 0 16] (Some (MEM_mallocN 16)) (Some [0])
    GPU_UBO_FLAG_DIRTY.

Definition example_calls : list ubo_call :=
  [call_dynamic_eval [uniform_input 1 GPU_VEC4 (repeat x01 16)];
   call_bind 0; call_bind 1; call_tag_dirty; call_unbind; call_bind 2;
   call_dynamic_update].

(** The nodes of a list are distinct allocations: no address occurs twice. *)
Definition distinct_nodes (l : list GPUInput) : Prop := NoDup (map input_addr l).

Definition is_gen (e : event) : bool :=
  match e with glGenBuffers _ => true | _ => false end.



(** The entries of one class, in the order of the list. *)
Definition of_class (t : GPUType) (l : list LinkData) : list LinkData :=
  filter (fun i => input_type i =? t) l.

(** The pairing pass in closed form, on the runs of the sorted list: each
    vec3 that has a vec3 or a vec2 after it takes the first float left, if
    there is one, right behind it; the last vec3 of a list without vec2
    entries stops the pass; the vec2 entries and the floats left follow. *)
Fixpoint pair_vec3 (vec3s vec2s floats : list LinkData) : list LinkData :=
  match vec3s with
  | [] => vec2s ++ floats
  | v :: rest3 =>
      match rest3, vec2s with
      | [], [] => v :: floats
      | _, _ =>
          match floats with
          | f :: floats' => v :: f :: pair_vec3 rest3 vec2s floats'
          | [] => v :: pair_vec3 rest3 vec2s []
          end
      end
  end.

(** No node of [l] has the address of [x]. *)
Definition address_not_in (x : GPUInput) (l : list GPUInput) : Prop :=
  Forall (fun y => ptr_eqb y x = false) l.

(** The alignment the GPU expects of an item, in float components: two for
    a vec2, one for a float, four for a vec3 and a vec4. *)
Definition item_alignment (it : GPUUniformBufferDynamicItem) : Z :=
  if item_gputype it =? GPU_VEC2 then 2
  else if item_gputype it =? GPU_FLOAT then 1
  else 4.

Definition item_aligned (it : GPUUniformBufferDynamicItem) : Prop :=
  item_offset it mod item_alignment it = 0.

(** The number of entries of a class among the qualifying inputs. *)
Definition class_count (t : GPUType) (inputs : list GPUInput) : Z :=
  Z.of_nat (length (of_class t (filter gpu_input_is_dynamic_uniform inputs))).

(** The number of vec3 entries laid out as vec4, by the numbers of vec3,
    vec2 and float entries: the vec3 entries that find no float, but for the
    last one when no vec2 follows. *)
Definition padded_vec3_count (n3 n2 n1 : Z) : Z :=
  Z.max 0 (n3 - n1 - (if n2 =? 0 then 1 else 0)).


(** A lookup table that is its own inverse: the entry at the position an
    entry names gives the position of that entry back. *)
Definition self_inverse (lookup : list Z) : Prop :=
  forall k id, nth_error lookup k = Some id ->
    0 <= id /\ nth_error lookup (Z.to_nat id) = Some (Z.of_nat k).

(** float, vec4: sorting swaps the two entries. *)
Definition swapped_inputs : list GPUInput :=
  [uniform_input 1 GPU_FLOAT (repeat x0a 16); uniform_input 2 GPU_VEC4 (repeat x0b 16)].

(* ===================================================================== *)
(** ** Reasoning about the monad and the flag bits                        *)
(* ===================================================================== *)

Lemma bind_Done_inv {A B} (m : M A) (k : A -> M B) (b : B) (tr : list event) :
  bind m k = Done b tr ->
  exists a tr1 tr2, m = Done a tr1 /\ k a = Done b tr2 /\ tr = tr1 ++ tr2.
Proof.
  unfold bind. destruct m as [a tr1 | f]; [| discriminate].
  destruct (k a) as [b' tr2 | f] eqn:Hk; [| discriminate].
  intros H. injection H as <- <-. now exists a, tr1, tr2.
Qed.

Lemma bind_Done {A B} (m : M A) (k : A -> M B) a tr1 b tr2 :
  m = Done a tr1 -> k a = Done b tr2 -> bind m k = Done b (tr1 ++ tr2).
Proof. intros -> Hk. unfold bind. now rewrite Hk. Qed.

Lemma BLI_assert_Done_inv (c : bool) (u : unit) (tr : list event) :
  BLI_assert c = Done u tr -> c = true /\ tr = [].
Proof. destruct c; simpl; [intros H; injection H as _ <-; auto | discriminate]. Qed.

(** Take a successful [bind] apart: [a] names the intermediate value, [Hm]
    and [Hk] the two computations; the trace is split in two. *)
Tactic Notation "inv_bind" hyp(H) "as" ident(a) ident(Hm) ident(Hk) :=
  let tr1 := fresh "tr" in
  let tr2 := fresh "tr" in
  let Ht := fresh "Htr" in
  apply bind_Done_inv in H; destruct H as (a & tr1 & tr2 & Hm & Hk & Ht);
  try subst.

Lemma flag_test_bit (f : Z) (k : Z) :
  0 <= k -> flag_test f (Z.shiftl 1 k) = Z.testbit f k.
Proof.
  intros Hk. unfold flag_test.
  destruct (Z.testbit f k) eqn:Hb.
  - apply negb_true_iff, Z.eqb_neq. intros H0.
    assert (Z.testbit (Z.land f (Z.shiftl 1 k)) k = true) as Hc.
    { rewrite Z.land_spec, Hb, Z.shiftl_spec by lia.
      now rewrite Z.sub_diag. }
    rewrite H0, Z.bits_0 in Hc. discriminate.
  - apply negb_false_iff, Z.eqb_eq, Z.bits_inj'. intros n Hn.
    rewrite Z.bits_0, Z.land_spec, Z.shiftl_spec by lia.
    destruct (Z.eq_dec n k) as [-> | Hne].
    + now rewrite Hb.
    + rewrite andb_false_iff. right.
      destruct (Z.ltb_spec n k).
      * apply Z.testbit_neg_r. lia.
      * destruct (n - k) as [| p | p] eqn:E; try lia.
        destruct p; reflexivity.
Qed.

Lemma initialized_bit (f : Z) : flag_test f GPU_UBO_FLAG_INITIALIZED = Z.testbit f 0.
Proof. apply flag_test_bit. lia. Qed.

Lemma dirty_bit (f : Z) : flag_test f GPU_UBO_FLAG_DIRTY = Z.testbit f 1.
Proof. apply flag_test_bit. lia. Qed.

Lemma set_initialized_initialized f :
  flag_test (Z.lor f GPU_UBO_FLAG_INITIALIZED) GPU_UBO_FLAG_INITIALIZED = true.
Proof. rewrite initialized_bit, Z.lor_spec. apply orb_true_r. Qed.

Lemma set_initialized_dirty f :
  flag_test (Z.lor f GPU_UBO_FLAG_INITIALIZED) GPU_UBO_FLAG_DIRTY
  = flag_test f GPU_UBO_FLAG_DIRTY.
Proof. rewrite !dirty_bit, Z.lor_spec. apply orb_false_r. Qed.

Lemma set_dirty_dirty f :
  flag_test (Z.lor f GPU_UBO_FLAG_DIRTY) GPU_UBO_FLAG_DIRTY = true.
Proof. rewrite dirty_bit, Z.lor_spec. apply orb_true_r. Qed.

Lemma set_dirty_initialized f :
  flag_test (Z.lor f GPU_UBO_FLAG_DIRTY) GPU_UBO_FLAG_INITIALIZED
  = flag_test f GPU_UBO_FLAG_INITIALIZED.
Proof. rewrite !initialized_bit, Z.lor_spec. apply orb_false_r. Qed.

Lemma clear_dirty_dirty f :
  flag_test (Z.land f (Z.lnot GPU_UBO_FLAG_DIRTY)) GPU_UBO_FLAG_DIRTY = false.
Proof. rewrite dirty_bit, Z.land_spec. apply andb_false_r. Qed.

Lemma clear_dirty_initialized f :
  flag_test (Z.land f (Z.lnot GPU_UBO_FLAG_DIRTY)) GPU_UBO_FLAG_INITIALIZED
  = flag_test f GPU_UBO_FLAG_INITIALIZED.
Proof. rewrite !initialized_bit, Z.land_spec. apply andb_true_r. Qed.

Lemma count_events_app p (a b : list event) :
  count_events p (a ++ b) = (count_events p a + count_events p b)%nat.
Proof. unfold count_events. now rewrite filter_app, length_app. Qed.

Lemma array_get_Done_inv {A} (a : list A) i v tr :
  array_get a i = Done v tr ->
  tr = [] /\ 0 <= i /\ nth_error a (Z.to_nat i) = Some v.
Proof.
  unfold array_get. destruct (Z.leb_spec 0 i); [| discriminate].
  destruct (nth_error a (Z.to_nat i)); [| discriminate].
  intros H'. injection H' as <- <-. auto.
Qed.

Lemma memcpy_Done_inv dst pos src n blk tr :
  memcpy dst pos src n = Done blk tr ->
  tr = []
  /\ 0 <= pos /\ 0 <= n /\ pos + n <= Z.of_nat (length dst) /\ n <= Z.of_nat (length src)
  /\ blk = firstn (Z.to_nat pos) dst ++ map Some (firstn (Z.to_nat n) src)
           ++ skipn (Z.to_nat (pos + n)) dst.
Proof.
  unfold memcpy.
  destruct (Z.leb_spec 0 pos); [| discriminate].
  destruct (Z.leb_spec 0 n); [| discriminate].
  destruct (Z.leb_spec (pos + n) (Z.of_nat (length dst))); [| discriminate].
  destruct (Z.leb_spec n (Z.of_nat (length src))); [| discriminate].
  simpl. intros H'. injection H' as <- <-. auto 10.
Qed.

Lemma memcpy_length dst pos src n blk tr :
  memcpy dst pos src n = Done blk tr -> length blk = length dst.
Proof.
  intros H. apply memcpy_Done_inv in H.
  destruct H as (_ & Hp & Hn & Hd & Hs & ->).
  rewrite !length_app, length_map, !length_firstn, length_skipn. lia.
Qed.

(** The copy loop touches the staging block and nothing else, and makes no
    call that leaves the module. *)
Lemma dynamic_eval_loop_frame inputs :
  forall ubo k ubo' tr,
    dynamic_eval_loop inputs ubo k = Done ubo' tr ->
    tr = [] /\ buffer ubo' = buffer ubo /\ items ubo' = items ubo
    /\ id_lookup ubo' = id_lookup ubo /\ flag ubo' = flag ubo.
Proof.
  induction inputs as [| input rest IH]; simpl; intros ubo k ubo' tr H.
  - injection H as <- <-. auto.
  - destruct (gpu_input_is_dynamic_uniform input); [| now apply IH in H].
    destruct (input_dynamicvec input) as [v |]; [| discriminate].
    destruct (id_lookup ubo) as [lookup |] eqn:El; [| discriminate].
    inv_bind H as lk Hlk H. injection Hlk as <- <-.
    inv_bind H as id Hid H. apply array_get_Done_inv in Hid. destruct Hid as (-> & _ & _).
    destruct (BLI_findlink (items ubo) id) as [it |]; [| discriminate].
    inv_bind H as it' Hit H. injection Hit as <- <-.
    destruct (data ubo) as [blk |]; [| discriminate].
    inv_bind H as blk0 Hblk H. injection Hblk as <- <-.
    inv_bind H as blk' Hcp H. apply memcpy_Done_inv in Hcp. destruct Hcp as (-> & _).
    apply IH in H. destruct H as (-> & Hb & Hi & Hl & Hf).
    simpl in *. rewrite El in Hl. auto.
Qed.

Lemma dynamic_eval_frame u inputs u' tr :
  GPU_uniformbuffer_dynamic_eval u inputs = Done u' tr ->
  exists d d', u = UDynamic d /\ u' = UDynamic d' /\ tr = []
    /\ buffer d' = buffer d /\ items d' = items d
    /\ id_lookup d' = id_lookup d /\ flag d' = flag d.
Proof.
  unfold GPU_uniformbuffer_dynamic_eval. intros H.
  inv_bind H as x Ha H. apply BLI_assert_Done_inv in Ha. destruct Ha as (_ & ->).
  inv_bind H as d0 Hd H. destruct u as [b | d]; [discriminate |].
  injection Hd as <- <-.
  inv_bind H as d' Hl H. apply dynamic_eval_loop_frame in Hl.
  destruct Hl as (-> & Hb & Hi & Hl & Hf).
  injection H as <- <-. exists d, d'. auto 10.
Qed.

(** What one update does: it takes the full-allocation path when the
    INITIALIZED bit is clear and the partial-range path when it is set, and
    leaves the buffer initialized and clean. *)
Lemma dynamic_update_spec d :
  type (buffer d) = GPU_UBO_DYNAMIC ->
  GPU_uniformbuffer_dynamic_update (UDynamic d)
  = Done (UDynamic (set_flag d (Z.land (if is_initialized d then flag d
                                        else Z.lor (flag d) GPU_UBO_FLAG_INITIALIZED)
                                       (Z.lnot GPU_UBO_FLAG_DIRTY))))
         [glBindBuffer (bindcode (buffer d));
          (if is_initialized d
           then glBufferSubData 0 (size (buffer d)) (data d)
           else glBufferData (size (buffer d)) (data d));
          glBindBuffer 0].
Proof.
  intros Ht. unfold GPU_uniformbuffer_dynamic_update, is_initialized. simpl.
  rewrite Ht. simpl.
  destruct (flag_test (flag d) GPU_UBO_FLAG_INITIALIZED); reflexivity.
Qed.

Lemma dynamic_update_flags d :
  let d' := set_flag d (Z.land (if is_initialized d then flag d
                                else Z.lor (flag d) GPU_UBO_FLAG_INITIALIZED)
                               (Z.lnot GPU_UBO_FLAG_DIRTY)) in
  is_initialized d' = true /\ is_dirty d' = false
  /\ buffer d' = buffer d /\ items d' = items d /\ data d' = data d
  /\ id_lookup d' = id_lookup d.
Proof.
  unfold is_initialized, is_dirty. simpl.
  rewrite clear_dirty_dirty, clear_dirty_initialized.
  destruct (flag_test (flag d) GPU_UBO_FLAG_INITIALIZED) eqn:E.
  - rewrite E. auto 10.
  - rewrite set_initialized_initialized. auto 10.
Qed.

(* ===================================================================== *)
(** ** Binding                                                            *)
(* ===================================================================== *)

(** Binding a dynamic buffer whose dirty bit is clear: no update runs, the
    flag stays as it is, and the only call that may go out is the bind. *)
Lemma bind_clean pf d number :
  is_dirty d = false ->
  exists d' tr,
    GPU_uniformbuffer_bind pf (UDynamic d) number = Done (UDynamic d') tr
    /\ flag d' = flag d /\ count_events is_upload tr = 0%nat.
Proof.
  unfold is_dirty. intros Hc. unfold GPU_uniformbuffer_bind.
  destruct (GPU_max_ubo_binds pf <=? number).
  - exists d. eexists. split; [reflexivity |]. auto.
  - simpl. rewrite Hc.
    destruct (is_dynamic_type (type (buffer d))); simpl;
      destruct (bindcode (buffer d) =? 0); simpl;
      eexists; eexists; (split; [reflexivity |]); auto.
Qed.

(** X2: binding a dynamic buffer at a slot the platform has leaves the dirty
    bit clear, and sends one upload when the buffer was dirty and none when
    it was not. *)
Lemma bind_leaves_clean pf d number :
  type (buffer d) = GPU_UBO_DYNAMIC ->
  number < GPU_max_ubo_binds pf ->
  exists d' tr,
    GPU_uniformbuffer_bind pf (UDynamic d) number = Done (UDynamic d') tr
    /\ is_dirty d' = false
    /\ count_events is_upload tr = (if is_dirty d then 1 else 0)%nat.
Proof.
  intros Ht Hn. unfold GPU_uniformbuffer_bind.
  destruct (Z.leb_spec (GPU_max_ubo_binds pf) number); [lia |].
  simpl. rewrite Ht. simpl. fold (is_dirty d).
  destruct (is_dirty d) eqn:Hd.
  - rewrite dynamic_update_spec by assumption.
    destruct (dynamic_update_flags d) as (_ & Hc & _).
    simpl. destruct (bindcode (buffer d) =? 0); simpl;
      eexists; eexists; (split; [reflexivity |]); (split; [exact Hc |]);
      destruct (is_initialized d); reflexivity.
  - simpl. destruct (bindcode (buffer d) =? 0); simpl;
      eexists; eexists; (split; [reflexivity |]); auto.
Qed.

(** C6: binding a dynamic buffer whose dirty flag is clear sends no upload
    call; two binds in a row from such a state send no upload between them,
    so at most one. *)
Theorem bind_clean_no_upload pf d n1 n2 :
  is_dirty d = false ->
  exists u1 tr1 u2 tr2,
    GPU_uniformbuffer_bind pf (UDynamic d) n1 = Done u1 tr1
    /\ count_events is_upload tr1 = 0%nat
    /\ ubo_dirty u1 = false
    /\ GPU_uniformbuffer_bind pf u1 n2 = Done u2 tr2
    /\ count_events is_upload tr2 = 0%nat
    /\ (count_events is_upload (tr1 ++ tr2) <= 1)%nat.
Proof.
  intros Hc.
  destruct (bind_clean pf d n1 Hc) as (d1 & tr1 & H1 & Hf1 & Hu1).
  assert (is_dirty d1 = false) as Hc1 by (unfold is_dirty in *; now rewrite Hf1).
  destruct (bind_clean pf d1 n2 Hc1) as (d2 & tr2 & H2 & Hf2 & Hu2).
  exists (UDynamic d1), tr1, (UDynamic d2), tr2.
  rewrite count_events_app, Hu1, Hu2. simpl. auto 10.
Qed.

Lemma bind_clean_no_upload_witness :
  exists u1 tr1 u2 tr2,
    GPU_uniformbuffer_bind example_platform (UDynamic clean_ubo) 0 = Done u1 tr1
    /\ count_events is_upload tr1 = 0%nat
    /\ ubo_dirty u1 = false
    /\ GPU_uniformbuffer_bind example_platform u1 1 = Done u2 tr2
    /\ count_events is_upload tr2 = 0%nat
    /\ (count_events is_upload (tr1 ++ tr2) <= 1)%nat.
Proof.
  apply (bind_clean_no_upload example_platform clean_ubo 0 1). reflexivity.
Defined.

(** C7: a bind at a slot number at or above the platform's count of bind
    points prints the diagnostic, makes no GPU call, and hands the buffer
    back with every field as it was. *)
Theorem bind_slot_out_of_range pf ubo number :
  GPU_max_ubo_binds pf <= number ->
  GPU_uniformbuffer_bind pf ubo number = Done ubo [stderr_print msg_no_slots]
  /\ count_events is_gl_call (trace_of (GPU_uniformbuffer_bind pf ubo number)) = 0%nat
  /\ forall u tr, GPU_uniformbuffer_bind pf ubo number = Done u tr ->
       GPU_uniformbuffer_bindpoint u = GPU_uniformbuffer_bindpoint ubo.
Proof.
  intros Hn.
  assert (GPU_uniformbuffer_bind pf ubo number = Done ubo [stderr_print msg_no_slots]) as E.
  { unfold GPU_uniformbuffer_bind.
    destruct (Z.leb_spec (GPU_max_ubo_binds pf) number); [reflexivity | lia]. }
  rewrite E. repeat split.
  intros u tr H. now injection H as <- _.
Qed.

Lemma bind_slot_out_of_range_witness :
  GPU_uniformbuffer_bind example_platform (UDynamic clean_ubo) 36
  = Done (UDynamic clean_ubo) [stderr_print msg_no_slots]
  /\ count_events is_gl_call
       (trace_of (GPU_uniformbuffer_bind example_platform (UDynamic clean_ubo) 36)) = 0%nat
  /\ forall u tr,
       GPU_uniformbuffer_bind example_platform (UDynamic clean_ubo) 36 = Done u tr ->
       GPU_uniformbuffer_bindpoint u = GPU_uniformbuffer_bindpoint (UDynamic clean_ubo).
Proof.
  apply (bind_slot_out_of_range example_platform (UDynamic clean_ubo) 36).
  simpl. lia.
Defined.

(* ===================================================================== *)
(** ** Nothing to build                                                   *)
(* ===================================================================== *)

(** C8: when no input qualifies as a dynamic uniform the constructor returns
    NULL, leaves the error buffer as the caller passed it and makes no call
    to the GPU, so no handle is generated. *)
Theorem sort_and_create_nothing_to_build pf inputs err :
  (forall input, In input inputs -> gpu_input_is_dynamic_uniform input = false) ->
  GPU_uniformbuffer_dynamic_sort_and_create pf inputs [] err
  = Done (mkCreated None [] err) [].
Proof.
  intros Hq.
  assert (filter gpu_input_is_dynamic_uniform inputs = []) as E.
  { induction inputs as [| x l IH]; [reflexivity |]. simpl.
    rewrite (Hq x (or_introl eq_refl)). apply IH.
    intros y Hy. apply Hq. now right. }
  unfold GPU_uniformbuffer_dynamic_sort_and_create. rewrite E. reflexivity.
Qed.

Lemma sort_and_create_nothing_to_build_witness :
  GPU_uniformbuffer_dynamic_sort_and_create example_platform
    [linked_input 1 GPU_VEC4; linked_input 2 GPU_FLOAT] [] (Some EmptyString)
  = Done (mkCreated None [] (Some EmptyString)) [].
Proof.
  apply (sort_and_create_nothing_to_build example_platform
           [linked_input 1 GPU_VEC4; linked_input 2 GPU_FLOAT] (Some EmptyString)).
  intros input [<- | [<- | []]]; reflexivity.
Defined.

(* ===================================================================== *)
(** ** The initialized flag and the two upload paths                      *)
(* ===================================================================== *)

Lemma no_upload_no_full tr :
  count_events is_upload tr = 0%nat -> count_events is_full_upload tr = 0%nat.
Proof.
  unfold count_events. induction tr as [| e tr IH]; [reflexivity |].
  simpl. unfold is_upload at 1.
  destruct (is_full_upload e); simpl; [discriminate |].
  destruct (is_sub_upload e); simpl; [discriminate | exact IH].
Qed.

(** One call on a dynamic buffer: the object stays a dynamic buffer, and
    either no upload goes out and the INITIALIZED bit is as before, or
    exactly one goes out, by the path the bit selects, and the bit is set. *)
Lemma run_call_step pf d c u' tr :
  type (buffer d) = GPU_UBO_DYNAMIC ->
  run_call pf (UDynamic d) c = Done u' tr ->
  exists d', u' = UDynamic d' /\ type (buffer d') = GPU_UBO_DYNAMIC
    /\ ((count_events is_upload tr = 0%nat /\ is_initialized d' = is_initialized d)
        \/ (is_initialized d' = true
            /\ exists tr1 tr2,
                 tr = tr1 ++ (if is_initialized d
                              then glBufferSubData 0 (size (buffer d)) (data d)
                              else glBufferData (size (buffer d)) (data d)) :: tr2
                 /\ count_events is_upload tr1 = 0%nat
                 /\ count_events is_upload tr2 = 0%nat)).
Proof.
  intros Ht H. destruct c as [number | | | inputs |]; simpl in H.
  - (* bind *)
    unfold GPU_uniformbuffer_bind in H.
    destruct (GPU_max_ubo_binds pf <=? number).
    + injection H as <- <-. exists d. auto.
    + simpl in H. rewrite Ht in H. simpl in H. fold (is_dirty d) in H.
      destruct (is_dirty d).
      * rewrite dynamic_update_spec in H by assumption.
        destruct (dynamic_update_flags d) as (Hi & _ & Hb & _).
        simpl in H. simpl in Hb.
        destruct (bindcode (buffer d) =? 0); simpl in H; injection H as <- <-;
          (eexists; split; [reflexivity |]; split; [exact Ht |]; right;
           split; [exact Hi |];
           eexists [glBindBuffer (bindcode (buffer d))]; eexists;
           split; [reflexivity | split; reflexivity]).
      * simpl in H.
        destruct (bindcode (buffer d) =? 0); simpl in H; injection H as <- <-;
          (eexists; split; [reflexivity |]; split; [exact Ht |]; left; auto).
  - (* unbind *)
    injection H as <- <-. eexists. split; [reflexivity |]. split; [exact Ht |]. auto.
  - (* tag dirty *)
    unfold GPU_uniformbuffer_tag_dirty in H. simpl in H. rewrite Ht in H.
    simpl in H. injection H as <- <-.
    eexists. split; [reflexivity |]. split; [exact Ht |]. left. split; [reflexivity |].
    unfold is_initialized. simpl. apply set_dirty_initialized.
  - (* eval *)
    apply dynamic_eval_frame in H.
    destruct H as (d0 & d' & E & -> & -> & Hb & _ & _ & Hf).
    injection E as <-. exists d'. split; [reflexivity |].
    split; [now rewrite Hb |]. left. split; [reflexivity |].
    unfold is_initialized. now rewrite Hf.
  - (* update *)
    rewrite dynamic_update_spec in H by assumption.
    destruct (dynamic_update_flags d) as (Hi & _ & Hb & _).
    injection H as <- <-.
    eexists. split; [reflexivity |]. split; [simpl; exact Ht |]. right.
    split; [exact Hi |].
    exists [glBindBuffer (bindcode (buffer d))], [glBindBuffer 0].
    split; [reflexivity | split; reflexivity].
Qed.

Lemma run_calls_shape pf cs :
  forall d u' tr,
    type (buffer d) = GPU_UBO_DYNAMIC ->
    run_calls pf (UDynamic d) cs = Done u' tr ->
    uploads_shape (is_initialized d) tr (ubo_initialized u').
Proof.
  induction cs as [| c cs IH]; intros d u' tr Ht H.
  - simpl in H. injection H as <- <-. unfold uploads_shape. simpl.
    destruct (is_initialized d); auto.
  - simpl in H. inv_bind H as u1 H1 H.
    destruct (run_call_step pf d c u1 _ Ht H1) as (d1 & -> & Ht1 & Hstep).
    specialize (IH d1 u' _ Ht1 H). clear H H1. unfold uploads_shape in *.
    destruct Hstep as [(Hn & Hi) | (Hi & trA & trB & -> & HA & HB)].
    + rewrite Hi in IH. destruct (is_initialized d).
      * destruct IH as (-> & Hc). split; [reflexivity |].
        rewrite count_events_app, Hc, (no_upload_no_full _ Hn). reflexivity.
      * destruct IH as [(-> & Hc) | (-> & t1 & sz & dat & t2 & -> & Hc1 & Hc2)].
        -- left. split; [reflexivity |]. now rewrite count_events_app, Hn, Hc.
        -- right. split; [reflexivity |].
           exists (tr0 ++ t1), sz, dat, t2. rewrite <- app_assoc.
           split; [reflexivity |]. split; [| exact Hc2].
           now rewrite count_events_app, Hn, Hc1.
    + rewrite Hi in IH. destruct IH as (-> & Hc).
      destruct (is_initialized d).
      * split; [reflexivity |].
        rewrite !count_events_app. change (?a :: trB) with ([a] ++ trB).
        rewrite !count_events_app, Hc, (no_upload_no_full _ HA), (no_upload_no_full _ HB).
        reflexivity.
      * right. split; [reflexivity |].
        exists trA, (size (buffer d)), (data d), (trB ++ tr1).
        rewrite <- app_assoc. simpl. split; [reflexivity |]. split; [exact HA |].
        now rewrite count_events_app, Hc, (no_upload_no_full _ HB).
Qed.

(** C10: an update of a dynamic buffer takes the full-allocation path
    (glBufferData) when the INITIALIZED flag is clear and the partial-range
    path (glBufferSubData) when it is set, and leaves the flag set and the
    dirty flag clear; over any run of bind, unbind, tag-dirty, eval and
    update calls the flag, once set, stays set, so the full-allocation upload
    happens at most once, as the first upload, and every later upload is a
    partial-range one. *)
Theorem dynamic_update_full_upload_once pf d cs u' tr :
  type (buffer d) = GPU_UBO_DYNAMIC ->
  run_calls pf (UDynamic d) cs = Done u' tr ->
  (exists d1,
      GPU_uniformbuffer_dynamic_update (UDynamic d)
      = Done (UDynamic d1)
          [glBindBuffer (bindcode (buffer d));
           (if is_initialized d
            then glBufferSubData 0 (size (buffer d)) (data d)
            else glBufferData (size (buffer d)) (data d));
           glBindBuffer 0]
      /\ is_initialized d1 = true /\ is_dirty d1 = false)
  /\ uploads_shape (is_initialized d) tr (ubo_initialized u').
Proof.
  intros Ht H. split.
  - eexists. split; [now apply dynamic_update_spec |].
    destruct (dynamic_update_flags d) as (Hi & Hc & _). auto.
  - now apply (run_calls_shape pf cs).
Qed.

Lemma dynamic_update_full_upload_once_witness :
  exists u' tr,
    run_calls example_platform (UDynamic fresh_ubo) example_calls = Done u' tr
    /\ ((exists d1,
            GPU_uniformbuffer_dynamic_update (UDynamic fresh_ubo)
            = Done (UDynamic d1)
                [glBindBuffer (bindcode (buffer fresh_ubo));
                 (if is_initialized fresh_ubo
                  then glBufferSubData 0 (size (buffer fresh_ubo)) (data fresh_ubo)
                  else glBufferData (size (buffer fresh_ubo)) (data fresh_ubo));
                 glBindBuffer 0]
            /\ is_initialized d1 = true /\ is_dirty d1 = false)
        /\ uploads_shape (is_initialized fresh_ubo) tr (ubo_initialized u')).
Proof.
  eexists. eexists. split; [vm_compute; reflexivity |].
  apply (dynamic_update_full_upload_once example_platform fresh_ubo example_calls);
    [reflexivity | vm_compute; reflexivity].
Defined.

(* ===================================================================== *)
(** ** The sorted list holds nodes of the input list only                 *)
(* ===================================================================== *)

Lemma Forall_prefix {A} (Q : A -> Prop) (n : nat) (l : list A) :
  Forall Q l -> Forall Q (firstn n l).
Proof.
  intros Hl. revert n. induction Hl as [| x l Hx Hl IH]; intros [| n]; simpl; auto.
Qed.

Lemma Forall_suffix {A} (Q : A -> Prop) (n : nat) (l : list A) :
  Forall Q l -> Forall Q (skipn n l).
Proof.
  intros Hl. revert n. induction Hl as [| x l Hx Hl IH]; intros [| n]; simpl; auto.
Qed.

Section Preserved.
Variable P : GPUInput -> Prop.

Lemma sort_insert_Forall cmp x l :
  P x -> Forall P l -> Forall P (sort_insert cmp x l).
Proof.
  intros Hx Hl. induction Hl as [| y l Hy Hl IH]; simpl.
  - auto.
  - destruct (0 <? cmp x y); auto.
Qed.

Lemma BLI_listbase_sort_Forall cmp l :
  Forall P l -> Forall P (BLI_listbase_sort cmp l).
Proof.
  intros Hl. induction Hl as [| x l Hx Hl IH]; simpl; [constructor |].
  now apply sort_insert_Forall.
Qed.

Lemma link_next_holds l link :
  Forall P l -> holds_if_set P (link_next l link).
Proof.
  intros Hl. induction Hl as [| x l Hx Hl IH]; simpl; [exact I |].
  destruct (ptr_eqb x link); [| exact IH].
  destruct Hl; simpl; auto.
Qed.

Lemma BLI_remlink_Forall l vlink :
  Forall P l -> Forall P (BLI_remlink l vlink).
Proof.
  intros Hl. induction Hl as [| x l Hx Hl IH]; simpl; [constructor |].
  destruct (ptr_eqb x vlink); auto.
Qed.

Lemma BLI_insertlinkafter_Forall l prev new :
  Forall P l -> P new -> Forall P (BLI_insertlinkafter l prev new).
Proof.
  intros Hl Hn. induction Hl as [| x l Hx Hl IH]; simpl; [auto |].
  destruct (ptr_eqb x prev); auto.
Qed.

Lemma array_set_Done_inv {A} (a : list A) i v a' tr :
  array_set a i v = Done a' tr ->
  tr = [] /\ 0 <= i < Z.of_nat (length a)
  /\ a' = firstn (Z.to_nat i) a ++ v :: skipn (S (Z.to_nat i)) a.
Proof.
  unfold array_set.
  destruct (Z.leb_spec 0 i); [| discriminate].
  destruct (Z.ltb_spec i (Z.of_nat (length a))); [| discriminate].
  simpl. intros H'. injection H' as <- <-. auto.
Qed.

Lemma array_set_holds (a : list (option LinkData)) i v a' tr :
  Forall (holds_if_set P) a -> holds_if_set P v ->
  array_set a i v = Done a' tr -> Forall (holds_if_set P) a'.
Proof.
  intros Ha Hv H. apply array_set_Done_inv in H. destruct H as (_ & _ & ->).
  apply Forall_app. split.
  - now apply Forall_prefix.
  - constructor; [exact Hv | now apply Forall_suffix].
Qed.

Lemma lookup_entry_holds tbl t :
  Forall (holds_if_set P) tbl -> holds_if_set P (lookup_entry tbl t).
Proof.
  intros Ht. unfold lookup_entry.
  destruct (nth_in_or_default (Z.to_nat t) tbl None) as [Hin | E];
    [| rewrite E; exact I].
  rewrite Forall_forall in Ht. now apply Ht.
Qed.

Lemma inputs_lookup_fill_holds inputs :
  forall tbl cur tbl' tr,
    Forall P inputs -> Forall (holds_if_set P) tbl ->
    inputs_lookup_fill inputs tbl cur = Done tbl' tr ->
    tr = [] /\ Forall (holds_if_set P) tbl'.
Proof.
  induction inputs as [| link rest IH]; simpl; intros tbl cur tbl' tr Hi Ht H.
  - injection H as <- <-. auto.
  - inversion Hi as [| ? ? Hl Hr]; subst.
    destruct (input_type link =? cur); [now apply IH in H |].
    inv_bind H as t1 Hs H.
    pose proof (array_set_holds _ _ _ _ _ Ht (Hl : holds_if_set P (Some link)) Hs) as Ht1.
    apply array_set_Done_inv in Hs. destruct Hs as (-> & _).
    now apply IH in H.
Qed.

Lemma inputs_pair_loop_holds fuel :
  forall inputs tbl link out tr,
    Forall P inputs -> Forall (holds_if_set P) tbl ->
    inputs_pair_loop fuel inputs tbl link = Done out tr ->
    tr = [] /\ Forall P out.
Proof.
  induction fuel as [| fuel IH]; intros inputs tbl link out tr Hi Ht H;
    destruct link as [lk |]; simpl in H;
    try (injection H as <- <-; now auto);
    destruct (negb (input_type lk =? GPU_VEC3));
    try (injection H as <- <-; now auto);
    try discriminate.
  pose proof (link_next_holds inputs lk Hi) as Hnx.
  destruct (link_next inputs lk) as [nx |]; [| injection H as <- <-; now auto].
  destruct (input_type nx =? GPU_FLOAT); [injection H as <- <-; now auto |].
  pose proof (lookup_entry_holds tbl GPU_FLOAT Ht) as Hfl.
  destruct (lookup_entry tbl GPU_FLOAT) as [float_input |].
  - inv_bind H as t1 Hs H.
    pose proof (array_set_holds _ _ _ _ _ Ht (link_next_holds inputs float_input Hi) Hs) as Ht1.
    apply array_set_Done_inv in Hs. destruct Hs as (-> & _).
    apply IH in H; auto.
    apply BLI_insertlinkafter_Forall; [now apply BLI_remlink_Forall | exact Hfl].
  - now apply IH in H.
Qed.

Lemma gpu_uniformbuffer_inputs_sort_holds inputs out tr :
  Forall P inputs ->
  gpu_uniformbuffer_inputs_sort inputs = Done out tr ->
  tr = [] /\ Forall P out.
Proof.
  intros Hi H. unfold gpu_uniformbuffer_inputs_sort in H.
  pose proof (BLI_listbase_sort_Forall inputs_cmp inputs Hi) as Hs.
  inv_bind H as tbl Hf H.
  apply inputs_lookup_fill_holds in Hf; auto.
  - destruct Hf as (-> & Ht).
    destruct (lookup_entry tbl GPU_VEC3); [| injection H as <- <-; now auto].
    now apply inputs_pair_loop_holds in H.
  - apply Forall_forall. intros x Hx. apply repeat_spec in Hx. now subst.
Qed.

End Preserved.

(* ===================================================================== *)
(** ** The sorter permutes its list                                       *)
(* ===================================================================== *)

Lemma sort_insert_Permutation {A} (cmp : A -> A -> Z) x l :
  Permutation (x :: l) (sort_insert cmp x l).
Proof.
  induction l as [| y l IH]; simpl; [reflexivity |].
  destruct (0 <? cmp x y); [| reflexivity].
  rewrite perm_swap. now apply perm_skip.
Qed.

(** The nodes of a ListBase are distinct allocations. *)
Lemma same_address_same_node (l : list GPUInput) x y :
  distinct_nodes l -> In x l -> In y l -> ptr_eqb x y = true -> x = y.
Proof.
  unfold distinct_nodes, ptr_eqb.
  induction l as [| z l IH]; simpl; intros Hnd Hx Hy He; [contradiction |].
  apply Z.eqb_eq in He. inversion Hnd as [| ? ? Hz Hnd']; subst.
  destruct Hx as [<- | Hx], Hy as [<- | Hy].
  - reflexivity.
  - exfalso. apply Hz. rewrite He. now apply in_map.
  - exfalso. apply Hz. rewrite <- He. now apply in_map.
  - apply IH; auto. now apply Z.eqb_eq.
Qed.

Lemma distinct_nodes_Permutation (l l' : list GPUInput) :
  Permutation l l' -> distinct_nodes l -> distinct_nodes l'.
Proof.
  unfold distinct_nodes. intros Hp.
  apply Permutation_NoDup. now apply Permutation_map.
Qed.

Lemma BLI_remlink_Permutation l f :
  distinct_nodes l -> In f l -> Permutation l (f :: BLI_remlink l f).
Proof.
  induction l as [| x l IH]; intros Hnd Hin; [contradiction |].
  cbn [BLI_remlink]. destruct (ptr_eqb x f) eqn:E.
  - rewrite (same_address_same_node (x :: l) x f Hnd (or_introl eq_refl) Hin E).
    reflexivity.
  - destruct Hin as [-> | Hin].
    + unfold ptr_eqb in E. rewrite Z.eqb_refl in E. discriminate.
    + inversion Hnd as [| ? ? _ Hnd']; subst.
      rewrite perm_swap. apply perm_skip. now apply IH.
Qed.

Lemma BLI_insertlinkafter_Permutation l prev new :
  Permutation (new :: l) (BLI_insertlinkafter l prev new).
Proof.
  induction l as [| x l IH]; cbn [BLI_insertlinkafter]; [reflexivity |].
  destruct (ptr_eqb x prev); [apply perm_swap |].
  rewrite perm_swap. now apply perm_skip.
Qed.

Lemma holds_if_set_impl {A} (P Q : A -> Prop) (o : option A) :
  (forall x, P x -> Q x) -> holds_if_set P o -> holds_if_set Q o.
Proof. destruct o; simpl; auto. Qed.

Lemma inputs_pair_loop_Permutation fuel :
  forall inputs tbl link out tr,
    distinct_nodes inputs ->
    Forall (holds_if_set (fun x => In x inputs)) tbl ->
    inputs_pair_loop fuel inputs tbl link = Done out tr ->
    Permutation inputs out.
Proof.
  induction fuel as [| fuel IH]; intros inputs tbl link out tr Hnd Ht H;
    destruct link as [lk |]; simpl in H;
    try (injection H as <- <-; reflexivity);
    destruct (negb (input_type lk =? GPU_VEC3));
    try (injection H as <- <-; reflexivity);
    try discriminate.
  destruct (link_next inputs lk) as [nx |]; [| injection H as <- <-; reflexivity].
  destruct (input_type nx =? GPU_FLOAT); [injection H as <- <-; reflexivity |].
  pose proof (lookup_entry_holds _ tbl GPU_FLOAT Ht) as Hfl.
  destruct (lookup_entry tbl GPU_FLOAT) as [float_input |]; [| now apply IH in H].
  cbn [holds_if_set] in Hfl.
  assert (Permutation inputs
            (BLI_insertlinkafter (BLI_remlink inputs float_input) lk float_input)) as Hp.
  { rewrite <- BLI_insertlinkafter_Permutation. now apply BLI_remlink_Permutation. }
  inv_bind H as t1 Hs H.
  assert (Forall (holds_if_set (fun x => In x inputs)) t1) as Ht1.
  { apply (array_set_holds _ _ _ _ _ _ Ht) in Hs; [exact Hs |].
    apply link_next_holds. apply Forall_forall. auto. }
  apply IH in H.
  - now rewrite Hp.
  - exact (distinct_nodes_Permutation _ _ Hp Hnd).
  - apply (Forall_impl _ (P := holds_if_set (fun x => In x inputs))); [| exact Ht1].
    intros o. apply holds_if_set_impl. intros x Hx.
    exact (Permutation_in x Hp Hx).
Qed.

Lemma BLI_listbase_sort_Permutation {A} (cmp : A -> A -> Z) l :
  Permutation l (BLI_listbase_sort cmp l).
Proof.
  induction l as [| x l IH]; cbn [BLI_listbase_sort]; [reflexivity |].
  rewrite <- sort_insert_Permutation. now apply perm_skip.
Qed.

(** On a list of distinct nodes the sorter, when it returns, returns the
    same nodes in another order. *)
Lemma gpu_uniformbuffer_inputs_sort_Permutation inputs out tr :
  distinct_nodes inputs ->
  gpu_uniformbuffer_inputs_sort inputs = Done out tr ->
  Permutation inputs out.
Proof.
  intros Hnd H. unfold gpu_uniformbuffer_inputs_sort in H.
  pose proof (BLI_listbase_sort_Permutation inputs_cmp inputs) as Hp.
  inv_bind H as tbl Hf H.
  apply (inputs_lookup_fill_holds (fun x => In x (BLI_listbase_sort inputs_cmp inputs)))
    in Hf.
  - destruct Hf as (-> & Ht).
    destruct (lookup_entry tbl GPU_VEC3); [| injection H as <- <-; exact Hp].
    apply inputs_pair_loop_Permutation in H; auto.
    + now rewrite Hp.
    + exact (distinct_nodes_Permutation _ _ Hp Hnd).
  - apply Forall_forall. auto.
  - apply Forall_forall. intros x Hx. apply repeat_spec in Hx. now subst.
Qed.

(* ===================================================================== *)
(** ** The layout loop                                                    *)
(* ===================================================================== *)

Lemma gpu_uniformbuffer_populate_Done_inv ubo gputype offset r tr :
  gpu_uniformbuffer_populate ubo gputype offset = Done r tr ->
  tr = [] /\ gputype <= MAX_UBO_GPU_TYPE
  /\ size (buffer ubo) + gputype * sizeof_float <= INT_MAX
  /\ snd r = mkItem gputype offset (gputype * sizeof_float)
  /\ fst r = mkGPUUniformBufferDynamic
               (set_size (buffer ubo) (size (buffer ubo) + gputype * sizeof_float))
               (items ubo ++ [mkItem gputype offset (gputype * sizeof_float)])
               (data ubo) (id_lookup ubo) (Z.lor (flag ubo) GPU_UBO_FLAG_DIRTY).
Proof.
  unfold gpu_uniformbuffer_populate. intros H.
  inv_bind H as x Ha H. apply BLI_assert_Done_inv in Ha. destruct Ha as (Hle & ->).
  apply Z.leb_le in Hle. simpl in H.
  destruct (Z.leb_spec (size (buffer ubo) + gputype * sizeof_float) INT_MAX);
    [| discriminate].
  simpl in H. injection H as <- <-. auto 10.
Qed.

(** The layout loop appends [layout_items] to the item list, adds their
    sizes to the buffer size, appends one lookup entry per sorted node, and
    leaves the rest of the buffer alone.  It gets to the end only when every
    padded type is within MAX_UBO_GPU_TYPE. *)
Lemma dynamic_layout_loop_spec inputs links :
  forall ubo lk off r tr,
    dynamic_layout_loop inputs links ubo lk off = Done r tr ->
    tr = []
    /\ items (fst r) = items ubo ++ layout_items links off
    /\ size (buffer (fst r)) = size (buffer ubo) + sum_item_sizes (layout_items links off)
    /\ bindcode (buffer (fst r)) = bindcode (buffer ubo)
    /\ bindpoint (buffer (fst r)) = bindpoint (buffer ubo)
    /\ type (buffer (fst r)) = type (buffer ubo)
    /\ Forall (fun it => item_gputype it <= MAX_UBO_GPU_TYPE) (layout_items links off)
    /\ snd r = lk ++ map (BLI_findindex inputs) (filter gpu_input_is_dynamic_uniform links)
    /\ is_initialized (fst r) = is_initialized ubo.
Proof.
  induction links as [| link rest IH]; simpl; intros ubo lk off r tr H.
  - injection H as <- <-. simpl. rewrite !app_nil_r, Z.add_0_r. auto 10.
  - destruct (gpu_input_is_dynamic_uniform link); [| now apply IH in H].
    inv_bind H as p Hp H.
    apply gpu_uniformbuffer_populate_Done_inv in Hp.
    destruct Hp as (-> & Hmax & _ & _ & Hfst).
    inv_bind H as x Ha H. apply BLI_assert_Done_inv in Ha. destruct Ha as (_ & ->).
    apply IH in H. rewrite Hfst in H. simpl in H.
    destruct H as (-> & Hi & Hs & Hc & Hb & Ht & Hf & Hl & Hin).
    rewrite Hi, Hs, Hl, Hin, <- !app_assoc. simpl.
    repeat split; auto; try lia.
    unfold is_initialized. simpl. apply set_dirty_initialized.
Qed.

Lemma layout_items_contiguous links :
  forall off, ranges_contiguous sizeof_float (sizeof_float * off) (layout_items links off).
Proof.
  induction links as [| link rest IH]; cbn [layout_items]; intros off; [exact I |].
  destruct (gpu_input_is_dynamic_uniform link); [| apply IH].
  cbn [ranges_contiguous item_offset item_size]. split; [reflexivity |].
  replace (sizeof_float * off + get_padded_gpu_type link (hd_error rest) * sizeof_float)
    with (sizeof_float * (off + get_padded_gpu_type link (hd_error rest))) by lia.
  apply IH.
Qed.

Lemma get_padded_gpu_type_supported link next :
  supported_class link ->
  GPU_FLOAT <= get_padded_gpu_type link next <= GPU_VEC4.
Proof.
  unfold supported_class, get_padded_gpu_type, GPU_FLOAT, GPU_VEC4. intros H.
  destruct ((input_type link =? GPU_VEC3) && _); lia.
Qed.

Lemma layout_items_sizes links :
  Forall supported_class links ->
  forall off, Forall (fun it => 0 < item_size it) (layout_items links off).
Proof.
  intros Hl. induction Hl as [| link rest Hs Hl IH]; cbn [layout_items]; intros off;
    [constructor |].
  destruct (gpu_input_is_dynamic_uniform link); [| apply IH].
  constructor; [| apply IH]. cbn [item_size].
  pose proof (get_padded_gpu_type_supported link (hd_error rest) Hs) as H.
  unfold GPU_FLOAT, GPU_VEC4, sizeof_float in *. lia.
Qed.

(** Contiguous ranges of positive sizes cover the interval they span and do
    not overlap. *)
Lemma contiguous_cover unit its :
  Forall (fun it => 0 < item_size it) its ->
  forall pos b,
    ranges_contiguous unit pos its ->
    (pos <= b < pos + sum_item_sizes its
     <-> exists it, In it its /\ in_item_range unit it b).
Proof.
  intros Hs. induction Hs as [| it rest Hp Hs IH]; simpl; intros pos b Hc.
  - split; [lia | intros (it & [] & _)].
  - destruct Hc as (Ho & Hc). specialize (IH _ b Hc). split.
    + intros Hb. destruct (Z.lt_ge_cases b (pos + item_size it)).
      * exists it. split; [now left |]. unfold in_item_range. lia.
      * destruct IH as (IH & _). destruct IH as (it' & Hin & Hr); [lia |].
        exists it'. split; [now right | exact Hr].
    + intros (it' & [<- | Hin] & Hr).
      * unfold in_item_range in Hr.
        assert (0 <= sum_item_sizes rest).
        { clear - Hs. induction Hs; simpl; lia. }
        lia.
      * destruct IH as (_ & IH). specialize (IH (ex_intro _ it' (conj Hin Hr))). lia.
Qed.

Lemma contiguous_disjoint unit its :
  Forall (fun it => 0 < item_size it) its ->
  forall pos, ranges_contiguous unit pos its -> ranges_disjoint unit its.
Proof.
  intros Hs. induction Hs as [| it rest Hp Hs IH]; simpl; intros pos Hc.
  - intros [| i] j it1 it2 b H1; discriminate.
  - destruct Hc as (Ho & Hc).
    assert (forall it' b, In it' rest -> in_item_range unit it' b ->
                          pos + item_size it <= b) as Hafter.
    { intros it' b Hin Hr.
      apply (contiguous_cover unit rest Hs _ b Hc). now exists it'. }
    intros [| i] [| j] it1 it2 b H1 H2 R1 R2; simpl in H1, H2.
    + reflexivity.
    + injection H1 as <-. apply nth_error_In in H2.
      specialize (Hafter _ _ H2 R2). unfold in_item_range in R1. lia.
    + injection H2 as <-. apply nth_error_In in H1.
      specialize (Hafter _ _ H1 R1). unfold in_item_range in R2. lia.
    + f_equal. exact (IH _ Hc i j it1 it2 b H1 H2 R1 R2).
Qed.

(* ===================================================================== *)
(** ** What the constructor returns                                      *)
(* ===================================================================== *)

Lemma sort_and_create_Done pf inputs err c tr d :
  GPU_uniformbuffer_dynamic_sort_and_create pf inputs [] err = Done c tr ->
  created_ubo c = Some (UDynamic d) ->
  exists sorted,
    gpu_uniformbuffer_inputs_sort (filter gpu_input_is_dynamic_uniform inputs)
    = Done sorted []
    /\ r_inputs_sorted c = sorted /\ err_out c = err
    /\ items d = layout_items sorted 0
    /\ size (buffer d) = sum_item_sizes (items d)
    /\ Forall (fun it => item_gputype it <= MAX_UBO_GPU_TYPE) (items d)
    /\ id_lookup d
       = Some (map (BLI_findindex inputs) (filter gpu_input_is_dynamic_uniform sorted))
    /\ bindcode (buffer d) = glGenBuffers_result pf
    /\ type (buffer d) = GPU_UBO_DYNAMIC
    /\ is_initialized d = true /\ is_dirty d = false
    /\ tr = [glGenBuffers (glGenBuffers_result pf);
             glBindBuffer (glGenBuffers_result pf);
             glBufferData (size (buffer d)) (data d);
             glBindBuffer 0].
Proof.
  unfold GPU_uniformbuffer_dynamic_sort_and_create. intros H Hc.
  inv_bind H as x Ha H. apply BLI_assert_Done_inv in Ha. destruct Ha as (_ & ->).
  cbv zeta in H. rewrite app_nil_l in H.
  destruct (Z.of_nat (length (filter gpu_input_is_dynamic_uniform inputs)) =? 0).
  { injection H as <- <-. discriminate. }
  inv_bind H as x1 He H. injection He as <- <-.
  cbn [bindcode buffer set_buffer set_bindcode set_flag set_type set_bindpoint size
       calloc_GPUUniformBufferDynamic calloc_GPUUniformBuffer] in H.
  destruct (glGenBuffers_result pf =? 0).
  { inv_bind H as x2 Hf H. injection H as <- <-. discriminate. }
  destruct (GPU_max_ubo_size pf <? 0).
  { inv_bind H as x2 Hf H. injection H as <- <-. discriminate. }
  inv_bind H as sorted Hs H.
  assert (Forall (fun _ : GPUInput => True) (filter gpu_input_is_dynamic_uniform inputs))
    as Htrue by (apply Forall_forall; auto).
  destruct (gpu_uniformbuffer_inputs_sort_holds _ _ _ _ Htrue Hs) as (-> & _).
  clear Htrue.
  inv_bind H as r Hl H. apply dynamic_layout_loop_spec in Hl.
  destruct Hl as (-> & Hi & Hsz & Hbc & Hbp & Hty & Hfa & Hlk & Hin).
  cbn [items size bindcode bindpoint type buffer set_buffer set_bindcode set_flag set_type
       set_bindpoint calloc_GPUUniformBufferDynamic calloc_GPUUniformBuffer app] in *.
  inv_bind H as u He H.
  apply dynamic_eval_frame in He.
  destruct He as (d0 & d1 & E0 & -> & -> & Hb1 & Hi1 & Hl1 & Hf1).
  injection E0 as <-.
  cbn [items size bindcode bindpoint type buffer set_data set_id_lookup id_lookup flag] in *.
  inv_bind H as u2 Hu H. injection H as <- <-. cbn [created_ubo] in Hc.
  injection Hc as ->.
  assert (type (buffer d1) = GPU_UBO_DYNAMIC) as Ht1 by (now rewrite Hb1, Hty).
  rewrite dynamic_update_spec in Hu by assumption.
  destruct (dynamic_update_flags d1) as (Hini & Hcl & Hb2 & Hi2 & Hd2 & Hl2).
  assert (is_initialized d1 = false) as Hd1.
  { unfold is_initialized in *. rewrite Hf1, Hin. reflexivity. }
  rewrite Hd1 in *. injection Hu as <- <-.
  cbn [created_ubo r_inputs_sorted err_out items buffer set_flag id_lookup data] in *.
  exists sorted. rewrite Hb1, Hi1, Hl1, Hi, Hsz, Hbc, Hlk.
  repeat split; auto.
Qed.

Lemma created_dynamic_Some (m : M created) d :
  created_dynamic m = Some d ->
  exists c tr, m = Done c tr /\ created_ubo c = Some (UDynamic d).
Proof.
  unfold created_dynamic. destruct m as [c tr | f]; [| discriminate].
  destruct (created_ubo c) as [[b | d'] |] eqn:E; try discriminate.
  intros H. injection H as <-. now exists c, tr.
Qed.

Lemma filter_Forall {A} (Q : A -> Prop) (f : A -> bool) (l : list A) :
  Forall Q l -> Forall Q (filter f l).
Proof.
  intros Hl. induction Hl as [| x l Hx Hl IH]; simpl; [constructor |].
  destruct (f x); auto.
Qed.

(* ===================================================================== *)
(** ** The layout of a built buffer                                       *)
(* ===================================================================== *)

(** C3, as the code has it: [item_offset] counts float components, not
    bytes.  For inputs of the classes 1 to 4, after a successful build the
    item sizes add up to the buffer size, and the byte ranges that start at
    [sizeof_float * item_offset] and are [item_size] long do not overlap,
    follow one another without a gap from 0, and cover the buffer. *)
Theorem sort_and_create_layout_tiles pf inputs err c tr d :
  Forall supported_class inputs ->
  GPU_uniformbuffer_dynamic_sort_and_create pf inputs [] err = Done c tr ->
  created_ubo c = Some (UDynamic d) ->
  layout_tiles sizeof_float d.
Proof.
  intros Hsup H Hc.
  destruct (sort_and_create_Done pf inputs err c tr d H Hc)
    as (sorted & Hs & _ & _ & Hi & Hsz & _).
  destruct (gpu_uniformbuffer_inputs_sort_holds supported_class _ _ _
              (filter_Forall _ _ _ Hsup) Hs) as (_ & Hsorted).
  pose proof (layout_items_sizes sorted Hsorted 0) as Hpos.
  pose proof (layout_items_contiguous sorted 0) as Hcont.
  replace (sizeof_float * 0) with 0 in Hcont by reflexivity.
  unfold layout_tiles. rewrite Hsz, Hi.
  split; [reflexivity |]. split; [| split; [| exact Hcont]].
  - exact (contiguous_disjoint _ _ Hpos 0 Hcont).
  - intros b. exact (contiguous_cover _ _ Hpos 0 b Hcont).
Qed.

Lemma sort_and_create_layout_tiles_witness :
  exists d,
    created_dynamic
      (GPU_uniformbuffer_dynamic_sort_and_create example_platform mixed_inputs [] None)
    = Some d
    /\ layout_tiles sizeof_float d.
Proof.
  destruct (created_dynamic
              (GPU_uniformbuffer_dynamic_sort_and_create example_platform mixed_inputs [] None))
    as [d |] eqn:E; [| vm_compute in E; discriminate].
  exists d. split; [reflexivity |].
  destruct (created_dynamic_Some _ _ E) as (c & tr & H & Hc).
  apply (sort_and_create_layout_tiles example_platform mixed_inputs None c tr d);
    [| exact H | exact Hc].
  unfold mixed_inputs. repeat constructor; vm_compute; discriminate.
Defined.

(** C3 as stated, with [item_offset] read as a byte offset, fails: two vec4
    inputs give items at offsets 0 and 4 of 16 bytes each, and byte 4 lies
    in both [0, 16) and [4, 20). *)
Lemma layout_offsets_are_not_bytes :
  ~ (forall pf inputs err c tr d,
        Forall supported_class inputs ->
        GPU_uniformbuffer_dynamic_sort_and_create pf inputs [] err = Done c tr ->
        created_ubo c = Some (UDynamic d) ->
        layout_tiles 1 d).
Proof.
  intros Hall.
  assert (exists d,
             created_dynamic
               (GPU_uniformbuffer_dynamic_sort_and_create example_platform
                  two_vec4_inputs [] None) = Some d
             /\ items d = [mkItem 4 0 16; mkItem 4 4 16]) as (d & E & Hi).
  { vm_compute. eexists. split; reflexivity. }
  destruct (created_dynamic_Some _ _ E) as (c & tr & H & Hc).
  assert (Forall supported_class two_vec4_inputs) as Hsup.
  { unfold two_vec4_inputs. repeat constructor; vm_compute; discriminate. }
  destruct (Hall _ _ _ _ _ _ Hsup H Hc) as (_ & Hdis & _).
  rewrite Hi in Hdis.
  assert (0%nat = 1%nat) as Habs.
  { apply (Hdis 0%nat 1%nat (mkItem 4 0 16) (mkItem 4 4 16) 4); try reflexivity;
      unfold in_item_range; simpl; lia. }
  discriminate.
Qed.

(* ===================================================================== *)
(** ** The width assertion of gpu_uniformbuffer_populate                  *)
(* ===================================================================== *)

Lemma get_padded_gpu_type_ge link next :
  input_type link <= get_padded_gpu_type link next.
Proof.
  unfold get_padded_gpu_type.
  destruct (Z.eqb_spec (input_type link) GPU_VEC3) as [E | _]; cbn [andb]; [| lia].
  destruct (match next with Some nx => negb (input_type nx =? GPU_FLOAT) | None => false end);
    [rewrite E; unfold GPU_VEC3, GPU_VEC4 |]; lia.
Qed.

Lemma layout_items_In links :
  forall off x,
    In x links -> gpu_input_is_dynamic_uniform x = true ->
    exists it, In it (layout_items links off) /\ input_type x <= item_gputype it.
Proof.
  induction links as [| link rest IH]; intros off x Hin Hq; [contradiction |].
  cbn [layout_items]. destruct Hin as [-> | Hin].
  - rewrite Hq. eexists. split; [now left |]. apply get_padded_gpu_type_ge.
  - destruct (IH (if gpu_input_is_dynamic_uniform link
                  then off + get_padded_gpu_type link (hd_error rest) else off)
                x Hin Hq) as (it & Hit & Hle).
    exists it. split; [| exact Hle].
    destruct (gpu_input_is_dynamic_uniform link); [now right | exact Hit].
Qed.

Lemma distinct_nodes_filter f (l : list GPUInput) :
  distinct_nodes l -> distinct_nodes (filter f l).
Proof.
  unfold distinct_nodes. induction l as [| x l IH]; simpl; intros H; [constructor |].
  inversion H as [| ? ? Hx Hl]; subst.
  destruct (f x); [| now apply IH].
  simpl. constructor; [| now apply IH].
  intros Hin. apply Hx. apply in_map_iff in Hin. destruct Hin as (y & Ey & Hy).
  apply in_map_iff. exists y. split; [exact Ey |].
  apply filter_In in Hy. tauto.
Qed.

(** C9: gpu_uniformbuffer_populate stops on its assertion for every type
    above MAX_UBO_GPU_TYPE; the item it adds otherwise has a type within it,
    and so has every item of a buffer the constructor returns; and when a
    qualifying input of a class above MAX_UBO_GPU_TYPE is in the list, the
    constructor returns no buffer. *)
Theorem populate_asserts_max_type pf inputs err ubo gputype offset :
  (MAX_UBO_GPU_TYPE < gputype ->
   gpu_uniformbuffer_populate ubo gputype offset = Fault AssertFailed)
  /\ (forall r tr,
        gpu_uniformbuffer_populate ubo gputype offset = Done r tr ->
        item_gputype (snd r) = gputype /\ gputype <= MAX_UBO_GPU_TYPE
        /\ items (fst r) = items ubo ++ [snd r])
  /\ (forall c tr d,
        GPU_uniformbuffer_dynamic_sort_and_create pf inputs [] err = Done c tr ->
        created_ubo c = Some (UDynamic d) ->
        Forall (fun it => item_gputype it <= MAX_UBO_GPU_TYPE) (items d))
  /\ (forall input,
        distinct_nodes inputs -> In input inputs ->
        gpu_input_is_dynamic_uniform input = true ->
        MAX_UBO_GPU_TYPE < input_type input ->
        created_dynamic (GPU_uniformbuffer_dynamic_sort_and_create pf inputs [] err)
        = None).
Proof.
  split; [| split; [| split]].
  - intros Hgt. unfold gpu_uniformbuffer_populate.
    destruct (Z.leb_spec gputype MAX_UBO_GPU_TYPE); [lia | reflexivity].
  - intros r tr H. apply gpu_uniformbuffer_populate_Done_inv in H.
    destruct H as (_ & Hle & _ & Hsnd & Hfst). rewrite Hsnd, Hfst. auto.
  - intros c tr d H Hc.
    destruct (sort_and_create_Done pf inputs err c tr d H Hc)
      as (sorted & _ & _ & _ & _ & _ & Hf & _).
    exact Hf.
  - intros input Hnd Hin Hq Hwide.
    destruct (created_dynamic
                (GPU_uniformbuffer_dynamic_sort_and_create pf inputs [] err))
      as [d |] eqn:E; [exfalso | reflexivity].
    destruct (created_dynamic_Some _ _ E) as (c & tr & H & Hc).
    destruct (sort_and_create_Done pf inputs err c tr d H Hc)
      as (sorted & Hs & _ & _ & Hi & _ & Hf & _).
    apply gpu_uniformbuffer_inputs_sort_Permutation in Hs;
      [| now apply distinct_nodes_filter].
    assert (In input sorted) as Hsorted.
    { apply (Permutation_in _ Hs). apply filter_In. auto. }
    destruct (layout_items_In sorted 0 input Hsorted Hq) as (it & Hit & Hle).
    rewrite Hi in Hf. rewrite Forall_forall in Hf. specialize (Hf it Hit). lia.
Qed.

Lemma populate_asserts_max_type_witness :
  gpu_uniformbuffer_populate calloc_GPUUniformBufferDynamic 9 0 = Fault AssertFailed
  /\ (exists d,
         created_dynamic
           (GPU_uniformbuffer_dynamic_sort_and_create example_platform mixed_inputs [] None)
         = Some d
         /\ Forall (fun it => item_gputype it <= MAX_UBO_GPU_TYPE) (items d))
  /\ created_dynamic
       (GPU_uniformbuffer_dynamic_sort_and_create example_platform wide_inputs [] None)
     = None.
Proof.
  split; [| split].
  - apply (populate_asserts_max_type example_platform mixed_inputs None
             calloc_GPUUniformBufferDynamic 9 0).
    vm_compute. reflexivity.
  - destruct (created_dynamic
                (GPU_uniformbuffer_dynamic_sort_and_create example_platform mixed_inputs
                   [] None)) as [d |] eqn:E; [| vm_compute in E; discriminate].
    exists d. split; [reflexivity |].
    destruct (created_dynamic_Some _ _ E) as (c & tr & H & Hc).
    exact (proj1 (proj2 (proj2 (populate_asserts_max_type example_platform mixed_inputs
                                  None calloc_GPUUniformBufferDynamic 9 0))) c tr d H Hc).
  - apply (proj2 (proj2 (proj2 (populate_asserts_max_type example_platform wide_inputs
                                  None calloc_GPUUniformBufferDynamic 9 0)))
             (uniform_input 2 5 (repeat x02 32))).
    + unfold distinct_nodes, wide_inputs. simpl.
      repeat constructor; simpl; intuition discriminate.
    + unfold wide_inputs. simpl. auto.
    + reflexivity.
    + vm_compute. reflexivity.
Defined.

(** A list with an entry of class 5 reaches the assertion: the build stops
    there and returns no buffer. *)
Example sort_and_create_class_5 :
  GPU_uniformbuffer_dynamic_sort_and_create example_platform
    [uniform_input 1 5 (repeat x01 32)] [] None
  = Fault AssertFailed.
Proof. vm_compute. reflexivity. Qed.

(** A mat3 (class 9) does not get that far: the sorter indexes its table of
    MAX_UBO_GPU_TYPE + 1 entries with the type. *)
Example sort_and_create_class_9 :
  GPU_uniformbuffer_dynamic_sort_and_create example_platform
    [uniform_input 1 9 (repeat x01 36)] [] None
  = Fault OutOfBounds.
Proof. vm_compute. reflexivity. Qed.

(* ===================================================================== *)
(** ** The size check of the dynamic constructor                          *)
(* ===================================================================== *)

(** X1: the constructor compares the size with the platform limit before the
    layout loop has added anything to it, so with a limit that is not
    negative the only ways to NULL are an empty qualifying set and a failed
    glGenBuffers: the too-big message is never written and the handle is
    never released for size. *)
Lemma sort_and_create_never_too_big pf inputs err c tr :
  0 <= GPU_max_ubo_size pf ->
  GPU_uniformbuffer_dynamic_sort_and_create pf inputs [] err = Done c tr ->
  created_ubo c = None ->
  (filter gpu_input_is_dynamic_uniform inputs = [] /\ tr = [] /\ err_out c = err)
  \/ (glGenBuffers_result pf = 0 /\ err_out c = err_write err msg_create_failed).
Proof.
  intros Hmax H Hc. unfold GPU_uniformbuffer_dynamic_sort_and_create in H.
  inv_bind H as x Ha H. apply BLI_assert_Done_inv in Ha. destruct Ha as (_ & ->).
  cbv zeta in H. rewrite app_nil_l in H.
  destruct (filter gpu_input_is_dynamic_uniform inputs) as [| i0 l0] eqn:Ef.
  { simpl in H. injection H as <- <-. left. auto. }
  destruct (Z.eqb_spec (Z.of_nat (length (i0 :: l0))) 0) as [E0 | _].
  { simpl length in E0. lia. }
  inv_bind H as x1 He H. injection He as <- <-.
  cbn [bindcode buffer set_buffer set_bindcode set_flag set_type set_bindpoint size
       calloc_GPUUniformBufferDynamic calloc_GPUUniformBuffer] in H.
  destruct (Z.eqb_spec (glGenBuffers_result pf) 0) as [Eg | _].
  { inv_bind H as x2 Hf H. injection H as <- <-. right. auto. }
  destruct (Z.ltb_spec (GPU_max_ubo_size pf) 0); [lia |].
  inv_bind H as sorted Hs H. inv_bind H as r Hl H. inv_bind H as u He H.
  inv_bind H as u2 Hu H. injection H as <- <-. discriminate.
Qed.

(** C2, at a list the platform cannot hold: 1025 vec4 inputs lay out to 16400
    bytes against a limit of 16384, and the constructor returns the buffer,
    writes nothing to the error buffer and releases no handle. *)
Theorem sort_and_create_oversize_accepted :
  created_size oversize_result = Some 16400
  /\ GPU_max_ubo_size example_platform = 16384
  /\ created_err oversize_result = Some (Some EmptyString)
  /\ released oversize_result = 0%nat.
Proof. vm_compute. auto. Qed.

(** The static constructor, next to it, compares the size it was given. *)
Example create_too_big :
  GPU_uniformbuffer_create example_platform 16400 None (Some EmptyString)
  = Done (mkCreated None [] (Some msg_too_big)) [glGenBuffers 1; glDeleteBuffers 1].
Proof. vm_compute. reflexivity. Qed.

(* ===================================================================== *)
(** ** Padding of a vec3                                                  *)
(* ===================================================================== *)

(** C4, as the code has it: a 3-component entry is laid out as a vec4, 16
    bytes, exactly when another entry follows it and that entry is not a
    1-component one.  Followed by a float, or last in the list, it keeps its
    3 components. *)
Theorem get_padded_gpu_type_vec3 (link : LinkData) (rest : list LinkData) :
  input_type link = GPU_VEC3 ->
  (get_padded_gpu_type link (hd_error rest) = GPU_VEC4 <-> followed_by_non_float rest)
  /\ (get_padded_gpu_type link (hd_error rest) * sizeof_float = 16
      <-> followed_by_non_float rest)
  /\ (rest = [] \/ followed_by_float rest ->
      get_padded_gpu_type link (hd_error rest) = GPU_VEC3).
Proof.
  intros Ht. unfold get_padded_gpu_type, followed_by_non_float, followed_by_float.
  rewrite Ht. change (GPU_VEC3 =? GPU_VEC3) with true. cbn [andb].
  destruct rest as [| next rest']; cbn [hd_error].
  - repeat split; try discriminate; try (intros (n & r & E & _); discriminate); auto.
  - destruct (Z.eqb_spec (input_type next) GPU_FLOAT) as [Ef | Ef]; cbn [negb].
    + repeat split; try discriminate; auto;
        intros (n & r & E & Hn); injection E as <- <-; contradiction.
    + repeat split; auto; try (intros _; now exists next, rest').
      intros [E | (n & r & E & Hn)]; [discriminate |].
      injection E as <- <-. contradiction.
Qed.

Lemma get_padded_gpu_type_vec3_witness :
  (get_padded_gpu_type (uniform_input 2 GPU_VEC3 (repeat x02 16))
     (hd_error [uniform_input 4 GPU_VEC2 (repeat x04 16)]) = GPU_VEC4
   <-> followed_by_non_float [uniform_input 4 GPU_VEC2 (repeat x04 16)])
  /\ (get_padded_gpu_type (uniform_input 2 GPU_VEC3 (repeat x02 16))
        (hd_error [uniform_input 4 GPU_VEC2 (repeat x04 16)]) * sizeof_float = 16
      <-> followed_by_non_float [uniform_input 4 GPU_VEC2 (repeat x04 16)])
  /\ ([uniform_input 4 GPU_VEC2 (repeat x04 16)] = []
      \/ followed_by_float [uniform_input 4 GPU_VEC2 (repeat x04 16)] ->
      get_padded_gpu_type (uniform_input 2 GPU_VEC3 (repeat x02 16))
        (hd_error [uniform_input 4 GPU_VEC2 (repeat x04 16)]) = GPU_VEC3).
Proof.
  apply (get_padded_gpu_type_vec3 (uniform_input 2 GPU_VEC3 (repeat x02 16))
           [uniform_input 4 GPU_VEC2 (repeat x04 16)]).
  reflexivity.
Defined.

(** C4 as stated fails at the end of the list: a vec3 with nothing after it
    has no 1-component follower, and is not padded. *)
Lemma last_vec3_is_not_padded :
  ~ (forall (link : LinkData) (rest : list LinkData),
        input_type link = GPU_VEC3 ->
        (get_padded_gpu_type link (hd_error rest) = GPU_VEC4
         <-> ~ followed_by_float rest)).
Proof.
  intros Hall.
  destruct (Hall (uniform_input 2 GPU_VEC3 (repeat x02 16)) [] eq_refl) as (_ & Hpad).
  assert (get_padded_gpu_type (uniform_input 2 GPU_VEC3 (repeat x02 16)) (hd_error [])
          = GPU_VEC4) as E.
  { apply Hpad. intros (n & r & E & _). discriminate. }
  vm_compute in E. discriminate.
Qed.

(* ===================================================================== *)
(** ** The sort pass                                                      *)
(* ===================================================================== *)

Lemma inputs_cmp_after a b : 0 < inputs_cmp a b <-> input_type a < input_type b.
Proof.
  unfold inputs_cmp. destruct (Z.ltb_spec (input_type a) (input_type b)); lia.
Qed.

Lemma sort_insert_descending x l :
  StronglySorted (fun a b => input_type b <= input_type a) l ->
  StronglySorted (fun a b => input_type b <= input_type a) (sort_insert inputs_cmp x l).
Proof.
  intros Hl. induction Hl as [| y l Hl IH Hy]; simpl.
  - repeat constructor.
  - destruct (Z.ltb_spec 0 (inputs_cmp x y)) as [Hc | Hc].
    + apply inputs_cmp_after in Hc. constructor; [exact IH |].
      apply (Permutation_Forall (sort_insert_Permutation inputs_cmp x l)).
      constructor; [lia | exact Hy].
    + assert (input_type y <= input_type x) as Hle.
      { destruct (Z.lt_ge_cases (input_type x) (input_type y)) as [Hlt | Hge]; [| lia].
        apply inputs_cmp_after in Hlt. lia. }
      constructor; [now constructor |].
      constructor; [exact Hle |].
      apply (Forall_impl _ (P := fun b => input_type b <= input_type y)); [| exact Hy].
      intros z Hz. lia.
Qed.

Lemma sort_insert_stable t x l :
  filter (fun i => input_type i =? t) (sort_insert inputs_cmp x l)
  = filter (fun i => input_type i =? t) (x :: l).
Proof.
  induction l as [| y l IH]; [reflexivity |].
  cbn [sort_insert].
  destruct (Z.ltb_spec 0 (inputs_cmp x y)) as [Hc | Hc]; [| reflexivity].
  apply inputs_cmp_after in Hc.
  cbn [filter] in *. rewrite IH.
  destruct (Z.eqb_spec (input_type y) t) as [Ey | Ey];
    destruct (Z.eqb_spec (input_type x) t) as [Ex | Ex]; try reflexivity.
  lia.
Qed.

(** C5: the sort pass is BLI_listbase_sort under inputs_cmp.  It keeps the
    entries, puts them in descending order of component count (4, 3, 2, 1),
    and leaves the entries of each class in the order they had. *)
Theorem inputs_sort_pass_descending_stable (inputs : list LinkData) :
  Permutation inputs (BLI_listbase_sort inputs_cmp inputs)
  /\ StronglySorted (fun a b => input_type b <= input_type a)
       (BLI_listbase_sort inputs_cmp inputs)
  /\ forall t,
       filter (fun i => input_type i =? t) (BLI_listbase_sort inputs_cmp inputs)
       = filter (fun i => input_type i =? t) inputs.
Proof.
  induction inputs as [| x l (IHp & IHs & IHf)]; cbn [BLI_listbase_sort].
  - repeat split; constructor.
  - split; [| split].
    + rewrite <- sort_insert_Permutation. now apply perm_skip.
    + now apply sort_insert_descending.
    + intros t. rewrite sort_insert_stable. cbn [filter]. now rewrite IHf.
Qed.

(* ===================================================================== *)
(** ** The lookup table in the copy loop                                  *)
(* ===================================================================== *)

(** C1, at vec2, float, vec4.  The build writes into [id_lookup], at the
    packed position of an item, the position of its input: 2, 0, 1.  The
    copy loop reads the same table the other way round, at the position of
    the input, to find the item.  The float, second in the list, reads
    [id_lookup[1] = 0] and is copied, 16 bytes long, into item 0, which was
    built from the vec4; the staging bytes of that item are the float's and
    not the vec4's. *)
Theorem dynamic_eval_fills_another_item :
  exists d d',
    created_dynamic rotated_result = Some d
    /\ GPU_uniformbuffer_dynamic_eval (UDynamic d) rotated_inputs = Done (UDynamic d') []
    /\ id_lookup d' = Some [2; 0; 1]
    /\ nth_error (items d') 0 = Some (mkItem GPU_VEC4 0 16)
    /\ source_bytes rotated_inputs d' 0 (mkItem GPU_VEC4 0 16)
       = Some (map Some (repeat x0c 16))
    /\ item_bytes d' (mkItem GPU_VEC4 0 16) = Some (map Some (repeat x0b 16))
    /\ ~ item_in_sync rotated_inputs d' 0.
Proof.
  eexists. eexists.
  split; [vm_compute; reflexivity |].
  split; [vm_compute; reflexivity |].
  repeat split; try (vm_compute; reflexivity).
  intros H. specialize (H _ eq_refl). vm_compute in H. discriminate.
Qed.

(** When the float has only its own 4 bytes behind the pointer, the copy
    into the vec4 item reads 16 bytes from it, 12 past the value. *)
Example sort_and_create_rotated_exact :
  GPU_uniformbuffer_dynamic_sort_and_create example_platform rotated_exact_inputs [] None
  = Fault OutOfBounds.
Proof. vm_compute. reflexivity. Qed.

(** With an input that does not qualify ahead of one that does, the position
    the build recorded is past the end of the item list: BLI_findlink returns
    NULL and the copy loop dereferences it, inside the constructor. *)
Example sort_and_create_skipped_input :
  GPU_uniformbuffer_dynamic_sort_and_create example_platform
    [linked_input 1 GPU_VEC4; uniform_input 2 GPU_VEC4 (repeat x02 16)] [] None
  = Fault NullDeref.
Proof. vm_compute. reflexivity. Qed.

(** On the list of section 8 the float is moved behind the vec3, which keeps
    its 12 bytes; the offsets, in components, are 0, 4, 7, 8 and the buffer
    is 40 bytes. *)
Example sort_and_create_mixed :
  option_map (fun d => (items d, size (buffer d), id_lookup d))
    (created_dynamic
       (GPU_uniformbuffer_dynamic_sort_and_create example_platform mixed_inputs [] None))
  = Some ([mkItem GPU_VEC4 0 16; mkItem GPU_VEC3 4 12; mkItem GPU_FLOAT 7 4;
           mkItem GPU_VEC2 8 8], 40, Some [0; 1; 2; 3])
  /\ gpu_uniformbuffer_inputs_sort mixed_inputs = Done mixed_inputs []
  /\ map input_type (BLI_listbase_sort inputs_cmp mixed_inputs)
     = [GPU_VEC4; GPU_VEC3; GPU_VEC2; GPU_FLOAT].
Proof. vm_compute. repeat split. Qed.

(* ===================================================================== *)
(** ** Further properties of the constructor and of bind                  *)
(* ===================================================================== *)

Lemma sort_and_create_never_too_big_witness :
  (filter gpu_input_is_dynamic_uniform two_vec4_inputs = []
   /\ [glGenBuffers 0; glDeleteBuffers 0] = []
   /\ err_out (mkCreated None two_vec4_inputs (Some msg_create_failed))
      = Some EmptyString)
  \/ (glGenBuffers_result (mkPlatform 16384 36 0) = 0
      /\ err_out (mkCreated None two_vec4_inputs (Some msg_create_failed))
         = err_write (Some EmptyString) msg_create_failed).
Proof.
  apply (sort_and_create_never_too_big (mkPlatform 16384 36 0) two_vec4_inputs
           (Some EmptyString) (mkCreated None two_vec4_inputs (Some msg_create_failed))
           [glGenBuffers 0; glDeleteBuffers 0]).
  - simpl. lia.
  - vm_compute. reflexivity.
  - reflexivity.
Defined.

Lemma bind_leaves_clean_witness :
  exists d' tr,
    GPU_uniformbuffer_bind example_platform (UDynamic fresh_ubo) 3 = Done (UDynamic d') tr
    /\ is_dirty d' = false
    /\ count_events is_upload tr = (if is_dirty fresh_ubo then 1 else 0)%nat.
Proof.
  apply (bind_leaves_clean example_platform fresh_ubo 3).
  - reflexivity.
  - simpl. lia.
Defined.

Lemma layout_items_length links :
  forall off, length (layout_items links off)
              = length (filter gpu_input_is_dynamic_uniform links).
Proof.
  induction links as [| link rest IH]; intros off; cbn [layout_items filter];
    [reflexivity |].
  destruct (gpu_input_is_dynamic_uniform link); cbn [length]; now rewrite IH.
Qed.

(** The identity search: a node of the list is found at a position of the
    list, and the node at that position has its address. *)
Lemma BLI_findindex_from_found l :
  forall x n,
    In x l ->
    n <= BLI_findindex_from l x n < n + Z.of_nat (length l)
    /\ exists y, nth_error l (Z.to_nat (BLI_findindex_from l x n - n)) = Some y
                 /\ input_addr y = input_addr x.
Proof.
  induction l as [| z l IH]; intros x n Hin; [contradiction |].
  cbn [BLI_findindex_from length]. unfold ptr_eqb.
  destruct (Z.eqb_spec (input_addr z) (input_addr x)) as [E | E].
  - split; [lia |]. exists z. rewrite Z.sub_diag. auto.
  - destruct Hin as [-> | Hin]; [contradiction |].
    destruct (IH x (n + 1) Hin) as (Hr & y & Hy & Ea).
    split; [lia |]. exists y. split; [| exact Ea].
    replace (Z.to_nat (BLI_findindex_from l x (n + 1) - n))
      with (S (Z.to_nat (BLI_findindex_from l x (n + 1) - (n + 1)))) by lia.
    exact Hy.
Qed.

Lemma BLI_findindex_valid l x :
  In x l -> 0 <= BLI_findindex l x < Z.of_nat (length l).
Proof.
  intros Hin. destruct (BLI_findindex_from_found l x 0 Hin) as (H & _).
  unfold BLI_findindex. lia.
Qed.

Lemma BLI_findindex_inj l x y :
  In x l -> In y l -> BLI_findindex l x = BLI_findindex l y ->
  input_addr x = input_addr y.
Proof.
  intros Hx Hy E. unfold BLI_findindex in E.
  destruct (BLI_findindex_from_found l x 0 Hx) as (_ & x' & Hx' & Ex).
  destruct (BLI_findindex_from_found l y 0 Hy) as (_ & y' & Hy' & Ey).
  rewrite E in Hx'. rewrite Hx' in Hy'. injection Hy' as <-. congruence.
Qed.

Lemma BLI_findindex_NoDup l sorted :
  distinct_nodes sorted -> (forall x, In x sorted -> In x l) ->
  NoDup (map (BLI_findindex l) sorted).
Proof.
  unfold distinct_nodes.
  induction sorted as [| x rest IH]; simpl; intros Hnd Hsub; [constructor |].
  inversion Hnd as [| ? ? Hx Hrest]; subst. constructor; [| apply IH; auto].
  intros Hin. apply in_map_iff in Hin. destruct Hin as (y & Ey & Hy).
  apply Hx. apply in_map_iff. exists y. split; [| exact Hy].
  apply (BLI_findindex_inj l); auto.
Qed.

Lemma filter_all {A} (f : A -> bool) (l : list A) :
  Forall (fun x => f x = true) l -> filter f l = l.
Proof.
  intros H. induction H as [| x l Hx Hl IH]; simpl; [reflexivity |].
  now rewrite Hx, IH.
Qed.

Lemma filter_holds {A} (f : A -> bool) (l : list A) :
  Forall (fun x => f x = true) (filter f l).
Proof.
  apply Forall_forall. intros x Hx. apply filter_In in Hx. tauto.
Qed.

(** X3: after a successful build of a list of distinct nodes the sorted list
    handed back holds the qualifying inputs, each once; the lookup table has
    one entry per item, the entries are positions of the input list and no
    two are equal; the buffer is initialized and not dirty; and the calls
    that went out are glGenBuffers and one full-allocation upload of the
    staging block. *)
Theorem sort_and_create_success pf inputs err c tr d :
  distinct_nodes inputs ->
  GPU_uniformbuffer_dynamic_sort_and_create pf inputs [] err = Done c tr ->
  created_ubo c = Some (UDynamic d) ->
  Permutation (filter gpu_input_is_dynamic_uniform inputs) (r_inputs_sorted c)
  /\ err_out c = err
  /\ (exists lookup,
        id_lookup d = Some lookup
        /\ length lookup = length (items d)
        /\ NoDup lookup
        /\ Forall (fun id => 0 <= id < Z.of_nat (length inputs)) lookup)
  /\ is_initialized d = true /\ is_dirty d = false
  /\ tr = [glGenBuffers (bindcode (buffer d)); glBindBuffer (bindcode (buffer d));
           glBufferData (size (buffer d)) (data d); glBindBuffer 0].
Proof.
  intros Hnd H Hc.
  destruct (sort_and_create_Done pf inputs err c tr d H Hc)
    as (sorted & Hs & Hr & He & Hi & _ & _ & Hl & Hb & _ & Hini & Hcl & Htr).
  pose proof (gpu_uniformbuffer_inputs_sort_Permutation _ _ _
                (distinct_nodes_filter _ _ Hnd) Hs) as Hp.
  assert (filter gpu_input_is_dynamic_uniform sorted = sorted) as Hq.
  { apply filter_all. apply (Permutation_Forall Hp). apply filter_holds. }
  assert (forall x, In x sorted -> In x inputs) as Hsub.
  { intros x Hx. apply (Permutation_in _ (Permutation_sym Hp)) in Hx.
    apply filter_In in Hx. tauto. }
  rewrite Hr, Hb. repeat split; auto.
  exists (map (BLI_findindex inputs) sorted). rewrite Hq in Hl.
  split; [exact Hl |]. split; [| split].
  - rewrite Hi, length_map, layout_items_length, Hq. reflexivity.
  - apply BLI_findindex_NoDup; [| exact Hsub].
    exact (distinct_nodes_Permutation _ _ Hp (distinct_nodes_filter _ _ Hnd)).
  - apply Forall_forall. intros id Hid. apply in_map_iff in Hid.
    destruct Hid as (x & <- & Hx). apply BLI_findindex_valid. auto.
Qed.

Lemma sort_and_create_success_witness :
  exists c tr d,
    GPU_uniformbuffer_dynamic_sort_and_create example_platform mixed_inputs [] None
    = Done c tr
    /\ created_ubo c = Some (UDynamic d)
    /\ Permutation (filter gpu_input_is_dynamic_uniform mixed_inputs) (r_inputs_sorted c)
    /\ err_out c = None
    /\ (exists lookup,
          id_lookup d = Some lookup
          /\ length lookup = length (items d)
          /\ NoDup lookup
          /\ Forall (fun id => 0 <= id < Z.of_nat (length mixed_inputs)) lookup)
    /\ is_initialized d = true /\ is_dirty d = false
    /\ tr = [glGenBuffers (bindcode (buffer d)); glBindBuffer (bindcode (buffer d));
             glBufferData (size (buffer d)) (data d); glBindBuffer 0].
Proof.
  eexists. eexists. eexists.
  split; [vm_compute; reflexivity |]. split; [reflexivity |].
  apply (sort_and_create_success example_platform mixed_inputs None).
  - unfold distinct_nodes, mixed_inputs. simpl.
    repeat constructor; simpl; intuition discriminate.
  - vm_compute. reflexivity.
  - reflexivity.
Defined.

(* ===================================================================== *)
(** ** What the calls on a live buffer leave alone                        *)
(* ===================================================================== *)

Lemma dynamic_eval_loop_block_length inputs :
  forall ubo k ubo' tr,
    dynamic_eval_loop inputs ubo k = Done ubo' tr ->
    option_map (@length mbyte) (data ubo') = option_map (@length mbyte) (data ubo).
Proof.
  induction inputs as [| input rest IH]; simpl; intros ubo k ubo' tr H.
  - now injection H as <- <-.
  - destruct (gpu_input_is_dynamic_uniform input); [| now apply IH in H].
    destruct (input_dynamicvec input) as [v |]; [| discriminate].
    destruct (id_lookup ubo) as [lookup |]; [| discriminate].
    inv_bind H as lk Hlk H. injection Hlk as <- <-.
    inv_bind H as id Hid H.
    destruct (BLI_findlink (items ubo) id) as [it |]; [| discriminate].
    inv_bind H as it' Hit H. injection Hit as <- <-.
    destruct (data ubo) as [blk |] eqn:Ed; [| discriminate].
    inv_bind H as blk0 Hblk H. injection Hblk as <- <-.
    inv_bind H as blk' Hcp H. apply memcpy_length in Hcp.
    apply IH in H. rewrite H. simpl. now rewrite Hcp.
Qed.

(** One call on a dynamic buffer keeps the name, the size, the item table
    and the lookup table, keeps the length of the staging block, and neither
    generates nor deletes a GPU name. *)
Lemma run_call_frame pf d c u' tr :
  type (buffer d) = GPU_UBO_DYNAMIC ->
  run_call pf (UDynamic d) c = Done u' tr ->
  exists d', u' = UDynamic d'
    /\ type (buffer d') = GPU_UBO_DYNAMIC
    /\ bindcode (buffer d') = bindcode (buffer d)
    /\ size (buffer d') = size (buffer d)
    /\ items d' = items d
    /\ id_lookup d' = id_lookup d
    /\ option_map (@length mbyte) (data d') = option_map (@length mbyte) (data d)
    /\ count_events is_gen tr = 0%nat /\ count_events is_delete tr = 0%nat.
Proof.
  intros Ht H. destruct c as [number | | | inputs |]; simpl in H.
  - unfold GPU_uniformbuffer_bind in H.
    destruct (GPU_max_ubo_binds pf <=? number).
    + injection H as <- <-. exists d. auto 10.
    + simpl in H. rewrite Ht in H. simpl in H. fold (is_dirty d) in H.
      destruct (is_dirty d).
      * rewrite dynamic_update_spec in H by assumption. simpl in H.
        destruct (bindcode (buffer d) =? 0); simpl in H; injection H as <- <-;
          (eexists; split; [reflexivity |]; simpl;
           destruct (is_initialized d); auto 10).
      * simpl in H.
        destruct (bindcode (buffer d) =? 0); simpl in H; injection H as <- <-;
          (eexists; split; [reflexivity |]; simpl; auto 10).
  - injection H as <- <-. eexists. split; [reflexivity |]. simpl. auto 10.
  - unfold GPU_uniformbuffer_tag_dirty in H. simpl in H. rewrite Ht in H.
    simpl in H. injection H as <- <-.
    eexists. split; [reflexivity |]. simpl. auto 10.
  - pose proof H as H'. apply dynamic_eval_frame in H.
    destruct H as (d0 & d' & E & -> & -> & Hb & Hi & Hl & Hf).
    injection E as <-. exists d'. split; [reflexivity |].
    rewrite Hb, Hi, Hl. repeat split; auto.
    unfold GPU_uniformbuffer_dynamic_eval in H'.
    inv_bind H' as x Ha H'. inv_bind H' as d1 Hd H'. injection Hd as <- <-.
    inv_bind H' as d2 Hloop H'. injection H' as <- _.
    now apply dynamic_eval_loop_block_length in Hloop.
  - rewrite dynamic_update_spec in H by assumption. injection H as <- <-.
    eexists. split; [reflexivity |]. simpl. destruct (is_initialized d); auto 10.
Qed.

Lemma run_calls_frame pf cs :
  forall d u' tr,
    type (buffer d) = GPU_UBO_DYNAMIC ->
    run_calls pf (UDynamic d) cs = Done u' tr ->
    exists d', u' = UDynamic d'
      /\ type (buffer d') = GPU_UBO_DYNAMIC
      /\ bindcode (buffer d') = bindcode (buffer d)
      /\ size (buffer d') = size (buffer d)
      /\ items d' = items d
      /\ id_lookup d' = id_lookup d
      /\ option_map (@length mbyte) (data d') = option_map (@length mbyte) (data d)
      /\ count_events is_gen tr = 0%nat /\ count_events is_delete tr = 0%nat.
Proof.
  induction cs as [| c cs IH]; intros d u' tr Ht H; simpl in H.
  - injection H as <- <-. exists d. auto 10.
  - inv_bind H as u1 H1 H.
    destruct (run_call_frame pf d c u1 _ Ht H1)
      as (d1 & -> & Ht1 & Hc1 & Hs1 & Hi1 & Hl1 & Hd1 & Hg1 & Hx1).
    destruct (IH d1 u' _ Ht1 H) as (d' & -> & Ht' & Hc & Hs & Hi & Hl & Hd & Hg & Hx).
    exists d'. rewrite !count_events_app, Hg1, Hx1, Hg, Hx.
    repeat split; congruence.
Qed.

(** X5: over any run of bind, unbind, tag-dirty, eval and update calls a
    dynamic buffer keeps its GPU name, its size, its item table and its
    lookup table; the staging block keeps its length; and no GPU name is
    generated or deleted. *)
Theorem run_calls_keep_layout pf cs d u' tr :
  type (buffer d) = GPU_UBO_DYNAMIC ->
  run_calls pf (UDynamic d) cs = Done u' tr ->
  exists d', u' = UDynamic d'
    /\ type (buffer d') = GPU_UBO_DYNAMIC
    /\ bindcode (buffer d') = bindcode (buffer d)
    /\ size (buffer d') = size (buffer d)
    /\ items d' = items d
    /\ id_lookup d' = id_lookup d
    /\ option_map (@length mbyte) (data d') = option_map (@length mbyte) (data d)
    /\ count_events is_gen tr = 0%nat /\ count_events is_delete tr = 0%nat.
Proof. intros Ht H. exact (run_calls_frame pf cs d u' tr Ht H). Qed.

Lemma run_calls_keep_layout_witness :
  exists u' tr d',
    run_calls example_platform (UDynamic fresh_ubo) example_calls = Done u' tr
    /\ u' = UDynamic d'
    /\ type (buffer d') = GPU_UBO_DYNAMIC
    /\ bindcode (buffer d') = bindcode (buffer fresh_ubo)
    /\ size (buffer d') = size (buffer fresh_ubo)
    /\ items d' = items fresh_ubo
    /\ id_lookup d' = id_lookup fresh_ubo
    /\ option_map (@length mbyte) (data d')
       = option_map (@length mbyte) (data fresh_ubo)
    /\ count_events is_gen tr = 0%nat /\ count_events is_delete tr = 0%nat.
Proof.
  destruct (run_calls example_platform (UDynamic fresh_ubo) example_calls)
    as [u' tr | f] eqn:E; [| vm_compute in E; discriminate].
  destruct (run_calls_keep_layout example_platform example_calls fresh_ubo u' tr
              eq_refl E) as (d' & H).
  exists u', tr, d'. split; [reflexivity | exact H].
Defined.

(* ===================================================================== *)
(** ** GPU names: generated once, released once                           *)
(* ===================================================================== *)

Lemma free_dynamic d :
  type (buffer d) = GPU_UBO_DYNAMIC ->
  GPU_uniformbuffer_free (UDynamic d) = Done tt [glDeleteBuffers (bindcode (buffer d))].
Proof. intros Ht. unfold GPU_uniformbuffer_free. simpl. rewrite Ht. reflexivity. Qed.

(** The dynamic constructor, whatever it does, returns NULL with no call at
    all or with the name generated and deleted, or a dynamic buffer under the
    name it generated, with that name not released. *)
Lemma sort_and_create_names pf inputs err c tr :
  GPU_uniformbuffer_dynamic_sort_and_create pf inputs [] err = Done c tr ->
  (created_ubo c = None
   /\ (tr = []
       \/ tr = [glGenBuffers (glGenBuffers_result pf);
                glDeleteBuffers (glGenBuffers_result pf)]))
  \/ (exists d, created_ubo c = Some (UDynamic d)
        /\ type (buffer d) = GPU_UBO_DYNAMIC
        /\ bindcode (buffer d) = glGenBuffers_result pf
        /\ count_events is_gen tr = 1%nat /\ count_events is_delete tr = 0%nat).
Proof.
  intros H. pose proof H as H0.
  unfold GPU_uniformbuffer_dynamic_sort_and_create in H.
  inv_bind H as x Ha H. apply BLI_assert_Done_inv in Ha. destruct Ha as (_ & ->).
  cbv zeta in H. rewrite app_nil_l in H.
  destruct (Z.of_nat (length (filter gpu_input_is_dynamic_uniform inputs)) =? 0).
  { injection H as <- <-. left. auto. }
  inv_bind H as x1 He H. injection He as <- <-.
  cbn [bindcode buffer set_buffer set_bindcode set_flag set_type set_bindpoint size
       calloc_GPUUniformBufferDynamic calloc_GPUUniformBuffer] in H.
  destruct (glGenBuffers_result pf =? 0).
  { inv_bind H as x2 Hf H. injection H as <- <-. left.
    unfold GPU_uniformbuffer_free in Hf. simpl in Hf. injection Hf as _ <-. auto. }
  destruct (GPU_max_ubo_size pf <? 0).
  { inv_bind H as x2 Hf H. injection H as <- <-. left.
    unfold GPU_uniformbuffer_free in Hf. simpl in Hf. injection Hf as _ <-. auto. }
  inv_bind H as sorted Hs H. inv_bind H as r Hl H. inv_bind H as u He H.
  inv_bind H as u2 Hu H. injection H as <- <-.
  apply dynamic_eval_frame in He. destruct He as (d0 & d1 & _ & -> & _).
  unfold GPU_uniformbuffer_dynamic_update in Hu.
  inv_bind Hu as x3 Ha Hu. inv_bind Hu as d2 Hd Hu. inv_bind Hu as d3 Hup Hu.
  injection Hu as <- _. right.
  destruct (sort_and_create_Done pf inputs err _ _ _ H0 eq_refl)
    as (_ & _ & _ & _ & _ & _ & _ & _ & Hb & Hty & _ & _ & Htr).
  eexists. split; [reflexivity |]. rewrite Htr. auto.
Qed.

(** X6: every GPU name the dynamic constructor generates is released exactly
    once.  When the constructor returns NULL it has made no call, or has
    deleted the name it generated; when it returns a buffer it has generated
    one name and deleted none, no later call on the buffer generates or
    deletes a name, and GPU_uniformbuffer_free deletes that name, bound or
    not. *)
Theorem gpu_names_balanced pf inputs err c tr :
  GPU_uniformbuffer_dynamic_sort_and_create pf inputs [] err = Done c tr ->
  match created_ubo c with
  | None => count_events is_gen tr = count_events is_delete tr
  | Some u =>
      count_events is_gen tr = 1%nat /\ count_events is_delete tr = 0%nat
      /\ forall cs u' tr',
           run_calls pf u cs = Done u' tr' ->
           count_events is_gen tr' = 0%nat /\ count_events is_delete tr' = 0%nat
           /\ GPU_uniformbuffer_free u'
              = Done tt [glDeleteBuffers (glGenBuffers_result pf)]
  end.
Proof.
  intros H.
  destruct (sort_and_create_names pf inputs err c tr H)
    as [(-> & [-> | ->]) | (d & -> & Ht & Hb & Hg & Hx)]; try reflexivity.
  split; [exact Hg |]. split; [exact Hx |].
  intros cs u' tr' Hrun.
  destruct (run_calls_frame pf cs d u' tr' Ht Hrun)
    as (d' & -> & Ht' & Hb' & _ & _ & _ & _ & Hg' & Hx').
  split; [exact Hg' |]. split; [exact Hx' |].
  rewrite free_dynamic by assumption. now rewrite Hb', Hb.
Qed.

Lemma gpu_names_balanced_witness :
  exists c tr,
    GPU_uniformbuffer_dynamic_sort_and_create example_platform mixed_inputs [] None
    = Done c tr
    /\ match created_ubo c with
       | None => count_events is_gen tr = count_events is_delete tr
       | Some u =>
           count_events is_gen tr = 1%nat /\ count_events is_delete tr = 0%nat
           /\ forall cs u' tr',
                run_calls example_platform u cs = Done u' tr' ->
                count_events is_gen tr' = 0%nat /\ count_events is_delete tr' = 0%nat
                /\ GPU_uniformbuffer_free u'
                   = Done tt [glDeleteBuffers (glGenBuffers_result example_platform)]
       end.
Proof.
  destruct (GPU_uniformbuffer_dynamic_sort_and_create example_platform mixed_inputs []
              None) as [c tr | f] eqn:E; [| vm_compute in E; discriminate].
  exists c, tr. split; [reflexivity |].
  exact (gpu_names_balanced example_platform mixed_inputs None c tr E).
Defined.

(* ===================================================================== *)
(** ** The static constructor and the static update                       *)
(* ===================================================================== *)

(** X7: GPU_uniformbuffer_create returns a buffer exactly when glGenBuffers
    gave a name and the size is within the platform limit.  The buffer is
    static, unbound, of the size asked for, and its data went out in one
    full-allocation upload.  Otherwise the result is NULL, the name is
    deleted, nothing is uploaded, and the message names the reason when the
    caller passed a buffer for it. *)
Theorem create_static_outcome pf sz d err :
  exists c tr,
    GPU_uniformbuffer_create pf sz d err = Done c tr
    /\ count_events is_gen tr = 1%nat
    /\ ((glGenBuffers_result pf <> 0 /\ sz <= GPU_max_ubo_size pf
         /\ created_ubo c
            = Some (UStatic (mkGPUUniformBuffer sz (glGenBuffers_result pf) (-1)
                               GPU_UBO_STATIC))
         /\ err_out c = err
         /\ count_events is_delete tr = 0%nat
         /\ filter is_upload tr = [glBufferData sz d])
        \/ ((glGenBuffers_result pf = 0 \/ GPU_max_ubo_size pf < sz)
            /\ created_ubo c = None
            /\ err_out c
               = err_write err (if glGenBuffers_result pf =? 0
                                then msg_create_failed else msg_too_big)
            /\ tr = [glGenBuffers (glGenBuffers_result pf);
                     glDeleteBuffers (glGenBuffers_result pf)])).
Proof.
  unfold GPU_uniformbuffer_create. simpl.
  destruct (Z.eqb_spec (glGenBuffers_result pf) 0) as [Eg | Eg].
  - eexists. eexists. split; [reflexivity |]. split; [reflexivity |].
    right. rewrite Eg. auto.
  - destruct (Z.ltb_spec (GPU_max_ubo_size pf) sz) as [Hs | Hs].
    + eexists. eexists. split; [reflexivity |]. split; [reflexivity |].
      right. auto.
    + eexists. eexists. split; [reflexivity |]. split; [reflexivity |].
      left. auto 10.
Qed.

(** The three ways out of the static constructor. *)
Lemma create_static_outcome_cases pf sz d err c tr :
  GPU_uniformbuffer_create pf sz d err = Done c tr ->
  (glGenBuffers_result pf <> 0 /\ sz <= GPU_max_ubo_size pf
   /\ created_ubo c
      = Some (UStatic (mkGPUUniformBuffer sz (glGenBuffers_result pf) (-1)
                         GPU_UBO_STATIC)))
  \/ ((glGenBuffers_result pf = 0 \/ GPU_max_ubo_size pf < sz)
      /\ created_ubo c = None).
Proof.
  unfold GPU_uniformbuffer_create. simpl.
  destruct (Z.eqb_spec (glGenBuffers_result pf) 0) as [Eg | Eg].
  - intros H. injection H as <- _. right. auto.
  - destruct (Z.ltb_spec (GPU_max_ubo_size pf) sz) as [Hs | Hs];
      intros H; injection H as <- _; [right | left]; auto.
Qed.

(** X8: a buffer the static constructor returned takes no part in the dirty
    tracking: GPU_uniformbuffer_update sends its data at once, by the
    partial-range path over the whole size; a bind uploads nothing; the
    entry points of dynamic buffers stop on their assertion; and
    GPU_uniformbuffer_free deletes the name the constructor generated. *)
Theorem static_buffer_lifecycle pf sz d err c tr u :
  GPU_uniformbuffer_create pf sz d err = Done c tr ->
  created_ubo c = Some u ->
  (forall d', GPU_uniformbuffer_update u d'
              = Done tt [glBindBuffer (glGenBuffers_result pf);
                         glBufferSubData 0 sz d'; glBindBuffer 0])
  /\ (forall number, exists u' tr',
         GPU_uniformbuffer_bind pf u number = Done u' tr'
         /\ count_events is_upload tr' = 0%nat)
  /\ (forall inputs, GPU_uniformbuffer_dynamic_eval u inputs = Fault AssertFailed)
  /\ GPU_uniformbuffer_dynamic_update u = Fault AssertFailed
  /\ GPU_uniformbuffer_tag_dirty u = Fault AssertFailed
  /\ GPU_uniformbuffer_free u = Done tt [glDeleteBuffers (glGenBuffers_result pf)].
Proof.
  intros H Hc.
  destruct (create_static_outcome_cases pf sz d err c tr H)
    as [(_ & _ & Hu) | (_ & Hn)]; [| rewrite Hn in Hc; discriminate].
  rewrite Hu in Hc. injection Hc as <-.
  repeat split; try reflexivity.
  intros number. unfold GPU_uniformbuffer_bind. simpl.
  destruct (GPU_max_ubo_binds pf <=? number); [eexists; eexists; split; reflexivity |].
  destruct (glGenBuffers_result pf =? 0); eexists; eexists; split; reflexivity.
Qed.

Lemma static_buffer_lifecycle_witness :
  (forall d', GPU_uniformbuffer_update
                (UStatic (mkGPUUniformBuffer 64 1 (-1) GPU_UBO_STATIC)) d'
              = Done tt [glBindBuffer (glGenBuffers_result example_platform);
                         glBufferSubData 0 64 d'; glBindBuffer 0])
  /\ (forall number, exists u' tr',
         GPU_uniformbuffer_bind example_platform
           (UStatic (mkGPUUniformBuffer 64 1 (-1) GPU_UBO_STATIC)) number = Done u' tr'
         /\ count_events is_upload tr' = 0%nat)
  /\ (forall inputs,
         GPU_uniformbuffer_dynamic_eval
           (UStatic (mkGPUUniformBuffer 64 1 (-1) GPU_UBO_STATIC)) inputs
         = Fault AssertFailed)
  /\ GPU_uniformbuffer_dynamic_update
       (UStatic (mkGPUUniformBuffer 64 1 (-1) GPU_UBO_STATIC)) = Fault AssertFailed
  /\ GPU_uniformbuffer_tag_dirty
       (UStatic (mkGPUUniformBuffer 64 1 (-1) GPU_UBO_STATIC)) = Fault AssertFailed
  /\ GPU_uniformbuffer_free (UStatic (mkGPUUniformBuffer 64 1 (-1) GPU_UBO_STATIC))
     = Done tt [glDeleteBuffers (glGenBuffers_result example_platform)].
Proof.
  apply (static_buffer_lifecycle example_platform 64 None None
           (mkCreated (Some (UStatic (mkGPUUniformBuffer 64 1 (-1) GPU_UBO_STATIC)))
              [] None)
           [glGenBuffers 1; glBindBuffer 1; glBufferData 64 None; glBindBuffer 0]);
    reflexivity.
Defined.

(* ===================================================================== *)
(** ** Bind, unbind and the recorded slot                                 *)
(* ===================================================================== *)



(* ===================================================================== *)
(** ** Eval does not mark the buffer dirty                                *)
(* ===================================================================== *)

(** X10: GPU_uniformbuffer_dynamic_eval makes no GPU call and leaves the
    dirty flag as it is.  On a buffer that was not dirty a bind right after
    it uploads nothing, so the new values stay on the CPU; with
    GPU_uniformbuffer_tag_dirty in between, the bind sends exactly one
    upload, and it carries the staging block the eval wrote. *)
Theorem eval_reaches_gpu_only_when_tagged pf d inputs u1 tr1 number :
  type (buffer d) = GPU_UBO_DYNAMIC ->
  is_dirty d = false ->
  number < GPU_max_ubo_binds pf ->
  GPU_uniformbuffer_dynamic_eval (UDynamic d) inputs = Done u1 tr1 ->
  tr1 = [] /\ ubo_dirty u1 = false
  /\ (exists u2 tr2,
         GPU_uniformbuffer_bind pf u1 number = Done u2 tr2
         /\ count_events is_upload tr2 = 0%nat)
  /\ (exists d1 u1' u2 tr2,
         u1 = UDynamic d1
         /\ GPU_uniformbuffer_tag_dirty u1 = Done u1' []
         /\ GPU_uniformbuffer_bind pf u1' number = Done u2 tr2
         /\ filter is_upload tr2
            = [if is_initialized d
               then glBufferSubData 0 (size (buffer d)) (data d1)
               else glBufferData (size (buffer d)) (data d1)]).
Proof.
  intros Ht Hc Hn H.
  destruct (dynamic_eval_frame _ _ _ _ H) as (d0 & d1 & E & -> & -> & Hb & Hi & Hl & Hf).
  injection E as <-.
  assert (is_dirty d1 = false) as Hc1 by (unfold is_dirty in *; now rewrite Hf).
  assert (type (buffer d1) = GPU_UBO_DYNAMIC) as Ht1 by (now rewrite Hb).
  split; [reflexivity |]. split; [exact Hc1 |]. split.
  - destruct (bind_clean pf d1 number Hc1) as (d2 & tr2 & Hbind & _ & Hu).
    now exists (UDynamic d2), tr2.
  - remember (set_flag d1 (Z.lor (flag d1) GPU_UBO_FLAG_DIRTY)) as dt eqn:Edt.
    assert (GPU_uniformbuffer_tag_dirty (UDynamic d1) = Done (UDynamic dt) []) as Htag.
    { unfold GPU_uniformbuffer_tag_dirty. simpl. rewrite Ht1, Edt. reflexivity. }
    assert (buffer dt = buffer d) as Hbt by (rewrite Edt; exact Hb).
    assert (data dt = data d1) as Hdd by (now rewrite Edt).
    assert (type (buffer dt) = GPU_UBO_DYNAMIC) as Htt by (now rewrite Hbt).
    assert (is_initialized dt = is_initialized d) as Hini.
    { unfold is_initialized. rewrite Edt. simpl.
      rewrite set_dirty_initialized. now rewrite Hf. }
    assert (is_dirty dt = true) as Hdt.
    { unfold is_dirty. rewrite Edt. simpl. apply set_dirty_dirty. }
    assert (exists u2 tr2,
               GPU_uniformbuffer_bind pf (UDynamic dt) number = Done u2 tr2
               /\ filter is_upload tr2
                  = [if is_initialized d
                     then glBufferSubData 0 (size (buffer d)) (data d1)
                     else glBufferData (size (buffer d)) (data d1)]) as (u2 & tr2 & Hb2 & Hu2).
    { unfold GPU_uniformbuffer_bind.
      destruct (Z.leb_spec (GPU_max_ubo_binds pf) number); [lia |].
      simpl. rewrite Htt. simpl. fold (is_dirty dt). rewrite Hdt.
      rewrite (dynamic_update_spec dt Htt), Hini, Hbt, Hdd.
      simpl. destruct (bindcode (buffer dt) =? 0); simpl; eexists; eexists;
        (split; [reflexivity |]); destruct (is_initialized d); reflexivity. }
    exists d1, (UDynamic dt), u2, tr2. auto.
Qed.

Lemma eval_reaches_gpu_only_when_tagged_witness :
  exists u1 tr1,
    GPU_uniformbuffer_dynamic_eval (UDynamic clean_ubo)
      [uniform_input 1 GPU_VEC4 (repeat x07 16)] = Done u1 tr1
    /\ tr1 = [] /\ ubo_dirty u1 = false
    /\ (exists u2 tr2,
           GPU_uniformbuffer_bind example_platform u1 0 = Done u2 tr2
           /\ count_events is_upload tr2 = 0%nat)
    /\ (exists d1 u1' u2 tr2,
           u1 = UDynamic d1
           /\ GPU_uniformbuffer_tag_dirty u1 = Done u1' []
           /\ GPU_uniformbuffer_bind example_platform u1' 0 = Done u2 tr2
           /\ filter is_upload tr2
              = [if is_initialized clean_ubo
                 then glBufferSubData 0 (size (buffer clean_ubo)) (data d1)
                 else glBufferData (size (buffer clean_ubo)) (data d1)]).
Proof.
  eexists. eexists. split; [vm_compute; reflexivity |].
  apply (eval_reaches_gpu_only_when_tagged example_platform clean_ubo
           [uniform_input 1 GPU_VEC4 (repeat x07 16)] _ _ 0).
  - reflexivity.
  - reflexivity.
  - simpl. lia.
  - vm_compute. reflexivity.
Defined.

(* ===================================================================== *)
(** ** The sorter in closed form                                          *)
(* ===================================================================== *)

Lemma bind_ret_l {A B} (a : A) (k : A -> M B) : bind (Done a []) k = k a.
Proof. unfold bind. destruct (k a); reflexivity. Qed.

Lemma link_next_at pre x rest :
  address_not_in x pre -> link_next (pre ++ x :: rest) x = hd_error rest.
Proof.
  unfold address_not_in. induction pre as [| y pre IH]; intros H; simpl.
  - unfold ptr_eqb. now rewrite Z.eqb_refl.
  - inversion H as [| ? ? Hy Hp]; subst. rewrite Hy. now apply IH.
Qed.

Lemma BLI_remlink_at pre x rest :
  address_not_in x pre -> BLI_remlink (pre ++ x :: rest) x = pre ++ rest.
Proof.
  unfold address_not_in. induction pre as [| y pre IH]; intros H; simpl.
  - unfold ptr_eqb. now rewrite Z.eqb_refl.
  - inversion H as [| ? ? Hy Hp]; subst. rewrite Hy. now rewrite IH.
Qed.

Lemma BLI_insertlinkafter_at pre x rest new :
  address_not_in x pre ->
  BLI_insertlinkafter (pre ++ x :: rest) x new = pre ++ x :: new :: rest.
Proof.
  unfold address_not_in. induction pre as [| y pre IH]; intros H; simpl.
  - unfold ptr_eqb. now rewrite Z.eqb_refl.
  - inversion H as [| ? ? Hy Hp]; subst. rewrite Hy. now rewrite IH.
Qed.

Lemma distinct_nodes_split pre x rest :
  distinct_nodes (pre ++ x :: rest) -> address_not_in x pre.
Proof.
  unfold distinct_nodes, address_not_in. rewrite map_app. simpl. intros H.
  apply NoDup_remove_2 in H. apply Forall_forall. intros y Hy.
  unfold ptr_eqb. apply Z.eqb_neq. intros E. apply H.
  apply in_or_app. left. rewrite <- E. now apply in_map.
Qed.

Lemma lookup_entry_set tbl t v tbl' tr :
  array_set tbl t v = Done tbl' tr ->
  tr = [] /\ length tbl' = length tbl /\ lookup_entry tbl' t = v
  /\ forall t', 0 <= t' -> t' <> t -> lookup_entry tbl' t' = lookup_entry tbl t'.
Proof.
  intros H. apply array_set_Done_inv in H. destruct H as (-> & Hr & ->).
  assert (length (firstn (Z.to_nat t) tbl) = Z.to_nat t) as Hlen.
  { rewrite length_firstn. lia. }
  split; [reflexivity |]. split; [| split].
  - rewrite length_app, Hlen, length_cons, length_skipn. lia.
  - unfold lookup_entry. rewrite app_nth2 by lia. rewrite Hlen, Nat.sub_diag. reflexivity.
  - intros t' H0 Hne. unfold lookup_entry.
    destruct (Z.lt_ge_cases t' t) as [Hlt | Hge].
    + rewrite app_nth1 by lia. rewrite nth_firstn.
      destruct (Nat.ltb_spec (Z.to_nat t') (Z.to_nat t)); [reflexivity | lia].
    + rewrite app_nth2 by lia. rewrite Hlen.
      replace (Z.to_nat t' - Z.to_nat t)%nat with (S (Z.to_nat t' - Z.to_nat t - 1)) by lia.
      cbn [nth]. rewrite nth_skipn. f_equal. lia.
Qed.

Lemma array_set_ok {A} (a : list A) i v :
  0 <= i < Z.of_nat (length a) -> exists a', array_set a i v = Done a' [].
Proof.
  intros H. unfold array_set.
  destruct (Z.leb_spec 0 i); [| lia].
  destruct (Z.ltb_spec i (Z.of_nat (length a))); [| lia].
  simpl. eexists. reflexivity.
Qed.

(** One turn of the while loop that moves a float behind the current vec3. *)
Lemma inputs_pair_loop_move fuel pre v mid f fs' tbl nx :
  distinct_nodes (pre ++ v :: mid ++ f :: fs') ->
  input_type v = GPU_VEC3 ->
  hd_error (mid ++ f :: fs') = Some nx ->
  input_type nx <> GPU_FLOAT ->
  lookup_entry tbl GPU_FLOAT = Some f ->
  1 < Z.of_nat (length tbl) ->
  exists tbl',
    inputs_pair_loop (S fuel) (pre ++ v :: mid ++ f :: fs') tbl (Some v)
    = inputs_pair_loop fuel (pre ++ v :: f :: mid ++ fs') tbl' (Some nx)
    /\ lookup_entry tbl' GPU_FLOAT = hd_error fs'
    /\ length tbl' = length tbl.
Proof.
  intros Hnd Hv Hnx Hnf Hlk Hlen.
  pose proof (distinct_nodes_split pre v (mid ++ f :: fs') Hnd) as Hvpre.
  assert (address_not_in f (pre ++ v :: mid)) as Hfpre.
  { apply (distinct_nodes_split (pre ++ v :: mid) f fs').
    rewrite <- app_assoc. exact Hnd. }
  assert (link_next (pre ++ v :: mid ++ f :: fs') f = hd_error fs') as Hnf'.
  { replace (pre ++ v :: mid ++ f :: fs') with ((pre ++ v :: mid) ++ f :: fs')
      by (now rewrite <- app_assoc).
    now apply link_next_at. }
  destruct (array_set_ok tbl GPU_FLOAT (hd_error fs')) as (tbl' & Hset).
  { unfold GPU_FLOAT. lia. }
  destruct (lookup_entry_set _ _ _ _ _ Hset) as (_ & Hl' & He' & _).
  exists tbl'. split; [| auto].
  cbn [inputs_pair_loop]. rewrite Hv. cbn [negb Z.eqb GPU_VEC3 Pos.eqb].
  rewrite (link_next_at pre v _ Hvpre), Hnx.
  destruct (Z.eqb_spec (input_type nx) GPU_FLOAT) as [E | _]; [contradiction |].
  rewrite Hlk, Hnf', Hset, bind_ret_l.
  f_equal.
  replace (pre ++ v :: mid ++ f :: fs') with ((pre ++ v :: mid) ++ f :: fs')
    by (now rewrite <- app_assoc).
  rewrite (BLI_remlink_at _ f fs' Hfpre), <- app_assoc. simpl.
  now rewrite (BLI_insertlinkafter_at pre v _ f Hvpre).
Qed.

Lemma inputs_pair_loop_skip fuel pre v rest tbl nx :
  distinct_nodes (pre ++ v :: rest) ->
  input_type v = GPU_VEC3 ->
  hd_error rest = Some nx ->
  input_type nx <> GPU_FLOAT ->
  lookup_entry tbl GPU_FLOAT = None ->
  inputs_pair_loop (S fuel) (pre ++ v :: rest) tbl (Some v)
  = inputs_pair_loop fuel (pre ++ v :: rest) tbl (Some nx).
Proof.
  intros Hnd Hv Hnx Hnf Hlk.
  pose proof (distinct_nodes_split pre v rest Hnd) as Hvpre.
  cbn [inputs_pair_loop]. rewrite Hv. cbn [negb Z.eqb GPU_VEC3 Pos.eqb].
  rewrite (link_next_at pre v _ Hvpre), Hnx.
  destruct (Z.eqb_spec (input_type nx) GPU_FLOAT) as [E | _]; [contradiction |].
  now rewrite Hlk.
Qed.

Lemma inputs_pair_loop_break fuel pre v rest tbl :
  distinct_nodes (pre ++ v :: rest) ->
  input_type v = GPU_VEC3 ->
  holds_if_set (fun f => input_type f = GPU_FLOAT) (hd_error rest) ->
  inputs_pair_loop (S fuel) (pre ++ v :: rest) tbl (Some v)
  = Done (pre ++ v :: rest) [].
Proof.
  intros Hnd Hv Hf.
  pose proof (distinct_nodes_split pre v rest Hnd) as Hvpre.
  cbn [inputs_pair_loop]. rewrite Hv. cbn [negb Z.eqb GPU_VEC3 Pos.eqb].
  rewrite (link_next_at pre v _ Hvpre).
  destruct (hd_error rest) as [f |]; [| reflexivity].
  simpl in Hf. rewrite Hf. reflexivity.
Qed.

Lemma inputs_pair_loop_exit fuel l tbl link :
  holds_if_set (fun x => input_type x <> GPU_VEC3) link ->
  inputs_pair_loop fuel l tbl link = Done l [].
Proof.
  intros H. destruct link as [x |]; [| destruct fuel; reflexivity].
  simpl in H. destruct fuel; simpl;
    destruct (Z.eqb_spec (input_type x) GPU_VEC3); try contradiction; reflexivity.
Qed.

(** The while loop on a list made of a part already passed, the vec3 run
    from the current node on, the vec2 run and the floats not yet moved. *)
Lemma inputs_pair_loop_closed_form vec3s :
  forall pre vec2s floats tbl fuel,
    distinct_nodes (pre ++ vec3s ++ vec2s ++ floats) ->
    Forall (fun i => input_type i = GPU_VEC3) vec3s ->
    Forall (fun i => input_type i = GPU_VEC2) vec2s ->
    Forall (fun i => input_type i = GPU_FLOAT) floats ->
    lookup_entry tbl GPU_FLOAT = hd_error floats ->
    1 < Z.of_nat (length tbl) ->
    (length vec3s <= fuel)%nat ->
    inputs_pair_loop fuel (pre ++ vec3s ++ vec2s ++ floats) tbl
      (hd_error (vec3s ++ vec2s ++ floats))
    = Done (pre ++ pair_vec3 vec3s vec2s floats) [].
Proof.
  induction vec3s as [| v rest3 IH];
    intros pre vec2s floats tbl fuel Hnd H3 H2 H1 Hlk Hlen Hfuel.
  - cbn [app pair_vec3]. apply inputs_pair_loop_exit.
    destruct vec2s as [| w vec2s']; [destruct floats as [| f floats'] |]; simpl.
    + exact I.
    + inversion H1; subst. unfold GPU_FLOAT, GPU_VEC3 in *. lia.
    + inversion H2; subst. unfold GPU_VEC2, GPU_VEC3 in *. lia.
  - destruct fuel as [| fuel]; [simpl in Hfuel; lia |].
    inversion H3 as [| ? ? Hv H3']; subst.
    assert (length rest3 <= fuel)%nat as Hfuel' by (simpl in Hfuel; lia).
    cbn [app hd_error] in *.
    destruct rest3 as [| r rest3']; [destruct vec2s as [| w vec2s'] |].
    + (* the last vec3, no vec2: the loop stops *)
      cbn [app pair_vec3] in *.
      apply inputs_pair_loop_break; auto.
      destruct floats as [| f floats']; simpl; [exact I |].
      now inversion H1.
    + (* the last vec3, a vec2 behind it *)
      inversion H2 as [| ? ? Hw H2']; subst.
      assert (input_type w <> GPU_FLOAT) as Hwf
          by (rewrite Hw; unfold GPU_VEC2, GPU_FLOAT; lia).
      destruct floats as [| f floats'].
      * cbn [app pair_vec3] in *.
        rewrite (inputs_pair_loop_skip fuel pre v _ tbl w Hnd Hv eq_refl Hwf Hlk).
        apply inputs_pair_loop_exit. simpl. rewrite Hw.
        unfold GPU_VEC2, GPU_VEC3. lia.
      * inversion H1 as [| ? ? Hf H1']; subst. cbn [app pair_vec3 hd_error] in *.
        destruct (inputs_pair_loop_move fuel pre v (w :: vec2s') f floats' tbl w
                    Hnd Hv eq_refl Hwf Hlk Hlen) as (tbl' & E & Hlk' & Hlen').
        cbn [app] in E. rewrite E.
        apply inputs_pair_loop_exit. simpl. rewrite Hw.
        unfold GPU_VEC2, GPU_VEC3. lia.
    + (* another vec3 behind it *)
      inversion H3' as [| ? ? Hr H3'']; subst.
      assert (input_type r <> GPU_FLOAT) as Hrf
          by (rewrite Hr; unfold GPU_VEC3, GPU_FLOAT; lia).
      destruct floats as [| f floats'].
      * cbn [app pair_vec3 hd_error] in *.
        rewrite (inputs_pair_loop_skip fuel pre v _ tbl r Hnd Hv eq_refl Hrf Hlk).
        specialize (IH (pre ++ [v]) vec2s [] tbl fuel).
        rewrite <- !app_assoc in IH. cbn [app hd_error] in IH.
        rewrite IH; auto.
      * inversion H1 as [| ? ? Hf H1']; subst. cbn [app pair_vec3 hd_error] in *.
        destruct (inputs_pair_loop_move fuel pre v (r :: rest3' ++ vec2s) f floats' tbl r)
          as (tbl' & E & Hlk' & Hlen').
        { cbn [app]. rewrite <- app_assoc. exact Hnd. }
        { exact Hv. } { reflexivity. } { exact Hrf. } { exact Hlk. } { exact Hlen. }
        cbn [app] in E. rewrite <- !app_assoc in E. rewrite E.
        specialize (IH (pre ++ [v; f]) vec2s floats' tbl' fuel).
        rewrite <- !app_assoc in IH. cbn [app hd_error] in IH.
        rewrite IH; auto.
        -- apply (distinct_nodes_Permutation (pre ++ v :: r :: rest3' ++ vec2s ++ f :: floats'));
             [| exact Hnd].
           apply Permutation_app_head. apply perm_skip.
           change (r :: rest3' ++ vec2s ++ f :: floats')
             with ((r :: rest3' ++ vec2s) ++ f :: floats') || idtac.
           rewrite (app_assoc rest3' vec2s (f :: floats')).
           rewrite (app_assoc rest3' vec2s floats').
           change (f :: r :: (rest3' ++ vec2s) ++ floats')
             with (f :: (r :: rest3' ++ vec2s) ++ floats').
           change (r :: (rest3' ++ vec2s) ++ f :: floats')
             with ((r :: rest3' ++ vec2s) ++ f :: floats').
           symmetry. apply Permutation_middle.
        -- rewrite Hlen'. exact Hlen.
Qed.

Lemma inputs_lookup_fill_same t run :
  forall rest tbl,
    Forall (fun i => input_type i = t) run ->
    inputs_lookup_fill (run ++ rest) tbl t = inputs_lookup_fill rest tbl t.
Proof.
  induction run as [| x run IH]; intros rest tbl H; [reflexivity |].
  inversion H as [| ? ? Hx Hr]; subst. cbn [app inputs_lookup_fill].
  rewrite Z.eqb_refl. now apply IH.
Qed.

(** The first loop over one run of equal types: the table takes the first
    node of the run, the other entries stay. *)
Lemma inputs_lookup_fill_stage t run rest tbl cur :
  Forall (fun i => input_type i = t) run ->
  cur <> t ->
  0 <= t < Z.of_nat (length tbl) ->
  exists tbl' cur',
    inputs_lookup_fill (run ++ rest) tbl cur = inputs_lookup_fill rest tbl' cur'
    /\ length tbl' = length tbl
    /\ lookup_entry tbl' t
       = match run with [] => lookup_entry tbl t | x :: _ => Some x end
    /\ (forall t', 0 <= t' -> t' <> t -> lookup_entry tbl' t' = lookup_entry tbl t')
    /\ (cur' = t \/ cur' = cur).
Proof.
  intros Hrun Hcur Ht. destruct run as [| x run].
  - exists tbl, cur. auto 10.
  - inversion Hrun as [| ? ? Hx Hr]; subst.
    destruct (array_set_ok tbl (input_type x) (Some x) Ht) as (tbl' & Hset).
    destruct (lookup_entry_set _ _ _ _ _ Hset) as (_ & Hl & He & Ho).
    exists tbl', (input_type x). split; [| auto].
    cbn [app inputs_lookup_fill].
    destruct (Z.eqb_spec (input_type x) cur) as [E | _]; [congruence |].
    rewrite Hset, bind_ret_l. now apply inputs_lookup_fill_same.
Qed.

Lemma lookup_entry_empty n t : lookup_entry (repeat None n) t = None.
Proof.
  unfold lookup_entry.
  destruct (nth_in_or_default (Z.to_nat t) (repeat (@None GPUInput) n) None) as [H | H];
    [now apply repeat_spec in H | exact H].
Qed.

Lemma inputs_lookup_fill_sorted vec4s vec3s vec2s floats :
  Forall (fun i => input_type i = GPU_VEC4) vec4s ->
  Forall (fun i => input_type i = GPU_VEC3) vec3s ->
  Forall (fun i => input_type i = GPU_VEC2) vec2s ->
  Forall (fun i => input_type i = GPU_FLOAT) floats ->
  exists tbl,
    inputs_lookup_fill (vec4s ++ vec3s ++ vec2s ++ floats)
      (repeat None (Z.to_nat (MAX_UBO_GPU_TYPE + 1))) (MAX_UBO_GPU_TYPE + 1)
    = Done tbl []
    /\ length tbl = 5%nat
    /\ lookup_entry tbl GPU_VEC3 = hd_error vec3s
    /\ lookup_entry tbl GPU_FLOAT = hd_error floats.
Proof.
  intros H4 H3 H2 H1.
  change (Z.to_nat (MAX_UBO_GPU_TYPE + 1)) with 5%nat.
  change (MAX_UBO_GPU_TYPE + 1) with 5.
  destruct (inputs_lookup_fill_stage GPU_VEC4 vec4s (vec3s ++ vec2s ++ floats)
              (repeat None 5) 5 H4) as (t4 & c4 & -> & L4 & E4 & O4 & C4);
    [unfold GPU_VEC4; lia | simpl; unfold GPU_VEC4; lia |].
  destruct (inputs_lookup_fill_stage GPU_VEC3 vec3s (vec2s ++ floats) t4 c4 H3)
    as (t3 & c3 & -> & L3 & E3 & O3 & C3);
    [unfold GPU_VEC4, GPU_VEC3 in *; lia | rewrite L4; simpl; unfold GPU_VEC3; lia |].
  destruct (inputs_lookup_fill_stage GPU_VEC2 vec2s floats t3 c3 H2)
    as (t2 & c2 & -> & L2 & E2 & O2 & C2);
    [unfold GPU_VEC4, GPU_VEC3, GPU_VEC2 in *; lia
    | rewrite L3, L4; simpl; unfold GPU_VEC2; lia |].
  destruct (inputs_lookup_fill_stage GPU_FLOAT floats [] t2 c2 H1)
    as (t1 & c1 & E & L1 & E1 & O1 & C1);
    [unfold GPU_VEC4, GPU_VEC3, GPU_VEC2, GPU_FLOAT in *; lia
    | rewrite L2, L3, L4; simpl; unfold GPU_FLOAT; lia |].
  rewrite app_nil_r in E. rewrite E. cbn [inputs_lookup_fill].
  exists t1. split; [reflexivity |]. split; [now rewrite L1, L2, L3, L4 |]. split.
  - rewrite O1, O2 by (unfold GPU_VEC3, GPU_VEC2, GPU_FLOAT; lia). rewrite E3.
    destruct vec3s; [| reflexivity].
    rewrite O4 by (unfold GPU_VEC3, GPU_VEC4; lia). apply lookup_entry_empty.
  - rewrite E1. destruct floats; [| reflexivity].
    rewrite O2, O3, O4 by (unfold GPU_VEC4, GPU_VEC3, GPU_VEC2, GPU_FLOAT; lia).
    apply lookup_entry_empty.
Qed.

Lemma of_class_none t t' l :
  Forall (fun b => input_type b <= t) l -> t < t' -> of_class t' l = [].
Proof.
  intros H Hlt. unfold of_class. induction H as [| x l Hx Hl IH]; [reflexivity |].
  cbn [filter]. destruct (Z.eqb_spec (input_type x) t'); [lia | exact IH].
Qed.

Lemma of_class_holds t l : Forall (fun i => input_type i = t) (of_class t l).
Proof.
  apply Forall_forall. intros x Hx. apply filter_In in Hx.
  now apply Z.eqb_eq.
Qed.

(** A descending list of the classes 1 to 4 is its vec4 entries, then its
    vec3 entries, then its vec2 entries, then its floats. *)
Lemma descending_by_class l :
  StronglySorted (fun a b => input_type b <= input_type a) l ->
  Forall supported_class l ->
  l = of_class GPU_VEC4 l ++ of_class GPU_VEC3 l ++ of_class GPU_VEC2 l
      ++ of_class GPU_FLOAT l.
Proof.
  intros Hs. induction Hs as [| x l Hs IH Hx]; intros Hc; [reflexivity |].
  inversion Hc as [| ? ? Hcx Hcl]; subst. specialize (IH Hcl).
  unfold supported_class, GPU_FLOAT, GPU_VEC4 in Hcx.
  assert (input_type x = 4 \/ input_type x = 3 \/ input_type x = 2 \/ input_type x = 1)
    as [E | [E | [E | E]]] by lia;
    unfold of_class at 1 2 3 4; cbn [filter]; rewrite E;
    cbn [Z.eqb Pos.eqb GPU_VEC4 GPU_VEC3 GPU_VEC2 GPU_FLOAT app];
    fold (of_class GPU_VEC4 l); fold (of_class GPU_VEC3 l);
    fold (of_class GPU_VEC2 l); fold (of_class GPU_FLOAT l).
  - now rewrite <- IH.
  - rewrite E in Hx.
    rewrite (of_class_none 3 GPU_VEC4 l Hx) in * by (unfold GPU_VEC4; lia).
    cbn [app] in *. now rewrite <- IH.
  - rewrite E in Hx.
    rewrite (of_class_none 2 GPU_VEC4 l Hx) in * by (unfold GPU_VEC4; lia).
    rewrite (of_class_none 2 GPU_VEC3 l Hx) in * by (unfold GPU_VEC3; lia).
    cbn [app] in *. now rewrite <- IH.
  - rewrite E in Hx.
    rewrite (of_class_none 1 GPU_VEC4 l Hx) in * by (unfold GPU_VEC4; lia).
    rewrite (of_class_none 1 GPU_VEC3 l Hx) in * by (unfold GPU_VEC3; lia).
    rewrite (of_class_none 1 GPU_VEC2 l Hx) in * by (unfold GPU_VEC2; lia).
    cbn [app] in *. now rewrite <- IH.
Qed.

Lemma BLI_listbase_sort_descending l :
  StronglySorted (fun a b => input_type b <= input_type a)
    (BLI_listbase_sort inputs_cmp l).
Proof.
  induction l as [| x l IH]; cbn [BLI_listbase_sort]; [constructor |].
  now apply sort_insert_descending.
Qed.

Lemma BLI_listbase_sort_of_class t l :
  of_class t (BLI_listbase_sort inputs_cmp l) = of_class t l.
Proof.
  unfold of_class. induction l as [| x l IH]; cbn [BLI_listbase_sort]; [reflexivity |].
  rewrite sort_insert_stable. cbn [filter]. now rewrite IH.
Qed.

(** On distinct nodes of the classes 1 to 4 the sorter returns, and what it
    returns is the vec4 entries followed by the pairing of the vec3 entries
    with the floats, each class taken in the order of the list. *)
Lemma inputs_sort_refines inputs :
  distinct_nodes inputs ->
  Forall supported_class inputs ->
  gpu_uniformbuffer_inputs_sort inputs
  = Done (of_class GPU_VEC4 inputs
          ++ pair_vec3 (of_class GPU_VEC3 inputs) (of_class GPU_VEC2 inputs)
               (of_class GPU_FLOAT inputs)) [].
Proof.
  intros Hnd Hc. unfold gpu_uniformbuffer_inputs_sort. cbv zeta.
  pose proof (BLI_listbase_sort_Permutation inputs_cmp inputs) as Hp.
  pose proof (descending_by_class _ (BLI_listbase_sort_descending inputs)
                (Permutation_Forall Hp Hc)) as Hdec.
  rewrite !BLI_listbase_sort_of_class in Hdec.
  assert (distinct_nodes (BLI_listbase_sort inputs_cmp inputs)) as Hnd'
      by exact (distinct_nodes_Permutation _ _ Hp Hnd).
  rewrite Hdec in Hnd' |- *.
  destruct (inputs_lookup_fill_sorted _ _ _ _
              (of_class_holds GPU_VEC4 inputs) (of_class_holds GPU_VEC3 inputs)
              (of_class_holds GPU_VEC2 inputs) (of_class_holds GPU_FLOAT inputs))
    as (tbl & -> & Hlen & H3 & H1).
  rewrite bind_ret_l, H3.
  pose proof (of_class_holds GPU_VEC3 inputs) as Hv3.
  destruct (of_class GPU_VEC3 inputs) as [| v rest3] eqn:E3; [reflexivity |].
  cbn [hd_error].
  apply (inputs_pair_loop_closed_form (v :: rest3) (of_class GPU_VEC4 inputs)
           (of_class GPU_VEC2 inputs) (of_class GPU_FLOAT inputs) tbl); auto.
  - apply of_class_holds.
  - apply of_class_holds.
  - rewrite Hlen. lia.
  - rewrite !length_app. lia.
Qed.

Lemma of_class_same t l : Forall (fun i => input_type i = t) l -> of_class t l = l.
Proof.
  intros H. apply filter_all.
  apply (Forall_impl _ (P := fun i => input_type i = t)); [| exact H].
  intros x Hx. now apply Z.eqb_eq.
Qed.

Lemma of_class_other s t l :
  Forall (fun i => input_type i = s) l -> s <> t -> of_class t l = [].
Proof.
  intros H Hne. unfold of_class. induction H as [| x l Hx Hl IH]; [reflexivity |].
  cbn [filter]. destruct (Z.eqb_spec (input_type x) t); [congruence | exact IH].
Qed.

Lemma of_class_app t l l' : of_class t (l ++ l') = of_class t l ++ of_class t l'.
Proof. apply filter_app. Qed.

Lemma of_class_pair_vec3 t vec3s :
  forall vec2s floats,
    Forall (fun i => input_type i = GPU_VEC3) vec3s ->
    Forall (fun i => input_type i = GPU_VEC2) vec2s ->
    Forall (fun i => input_type i = GPU_FLOAT) floats ->
    of_class t (pair_vec3 vec3s vec2s floats)
    = of_class t vec3s ++ of_class t vec2s ++ of_class t floats.
Proof.
  induction vec3s as [| v rest3 IH]; intros vec2s floats H3 H2 H1.
  - cbn [pair_vec3]. now rewrite of_class_app.
  - inversion H3 as [| ? ? Hv H3']; subst.
    assert (forall fl, Forall (fun i => input_type i = GPU_FLOAT) fl ->
              of_class t (v :: match fl with
                               | f :: fl' => f :: pair_vec3 rest3 vec2s fl'
                               | [] => pair_vec3 rest3 vec2s []
                               end)
              = of_class t (v :: rest3) ++ of_class t vec2s ++ of_class t fl) as Hgen.
    { intros fl Hfl. destruct fl as [| f fl'].
      - unfold of_class at 1 2. cbn [filter]. fold (of_class t (pair_vec3 rest3 vec2s [])).
        fold (of_class t rest3). rewrite (IH vec2s [] H3' H2 Hfl).
        destruct (input_type v =? t); reflexivity.
      - inversion Hfl as [| ? ? Hf Hfl']; subst.
        unfold of_class at 1 2 4. cbn [filter].
        fold (of_class t (pair_vec3 rest3 vec2s fl')). fold (of_class t rest3).
        fold (of_class t fl'). rewrite (IH vec2s fl' H3' H2 Hfl'), Hv, Hf.
        destruct (Z.eqb_spec GPU_VEC3 t) as [E3 | E3];
          destruct (Z.eqb_spec GPU_FLOAT t) as [E1 | E1]; try reflexivity.
        + subst t. discriminate.
        + rewrite (of_class_other GPU_VEC3 t rest3 H3' E3).
          rewrite (of_class_other GPU_VEC2 t vec2s H2) by (subst t; discriminate).
          reflexivity. }
    cbn [pair_vec3].
    destruct rest3 as [| r rest3']; [destruct vec2s as [| w vec2s'] |].
    + unfold of_class. cbn [filter app]. destruct (input_type v =? t); reflexivity.
    + specialize (Hgen floats H1). destruct floats; exact Hgen.
    + specialize (Hgen floats H1). destruct floats; exact Hgen.
Qed.

(** X4: on a list of distinct nodes of the classes 1 to 4 the sorter always
    returns.  Its result is the vec4 entries, then the vec3 entries, each
    with the next unused float right behind it for as long as a vec3 or a
    vec2 follows and floats are left, then the vec2 entries and the floats
    left over; it is a permutation of the list, and within every class the
    entries keep the order they had. *)
Theorem gpu_uniformbuffer_inputs_sort_closed_form inputs :
  distinct_nodes inputs ->
  Forall supported_class inputs ->
  exists sorted,
    gpu_uniformbuffer_inputs_sort inputs = Done sorted []
    /\ sorted = of_class GPU_VEC4 inputs
                ++ pair_vec3 (of_class GPU_VEC3 inputs) (of_class GPU_VEC2 inputs)
                     (of_class GPU_FLOAT inputs)
    /\ Permutation inputs sorted
    /\ forall t, of_class t sorted = of_class t inputs.
Proof.
  intros Hnd Hc. eexists. split; [now apply inputs_sort_refines |].
  split; [reflexivity |]. split.
  - apply (gpu_uniformbuffer_inputs_sort_Permutation inputs _ [] Hnd).
    now apply inputs_sort_refines.
  - intros t.
    rewrite of_class_app, of_class_pair_vec3 by apply of_class_holds.
    rewrite <- !of_class_app.
    pose proof (BLI_listbase_sort_Permutation inputs_cmp inputs) as Hp.
    pose proof (descending_by_class _ (BLI_listbase_sort_descending inputs)
                  (Permutation_Forall Hp Hc)) as Hdec.
    rewrite !BLI_listbase_sort_of_class in Hdec.
    rewrite <- Hdec. apply BLI_listbase_sort_of_class.
Qed.

Lemma gpu_uniformbuffer_inputs_sort_closed_form_witness :
  exists sorted,
    gpu_uniformbuffer_inputs_sort mixed_inputs = Done sorted []
    /\ sorted = of_class GPU_VEC4 mixed_inputs
                ++ pair_vec3 (of_class GPU_VEC3 mixed_inputs)
                     (of_class GPU_VEC2 mixed_inputs) (of_class GPU_FLOAT mixed_inputs)
    /\ Permutation mixed_inputs sorted
    /\ forall t, of_class t sorted = of_class t mixed_inputs.
Proof.
  apply (gpu_uniformbuffer_inputs_sort_closed_form mixed_inputs).
  - unfold distinct_nodes, mixed_inputs. simpl.
    repeat constructor; simpl; intuition discriminate.
  - unfold mixed_inputs. repeat constructor; vm_compute; discriminate.
Defined.

(* ===================================================================== *)
(** ** Alignment of the layout                                            *)
(* ===================================================================== *)

Lemma get_padded_gpu_type_plain link next :
  input_type link <> GPU_VEC3 -> get_padded_gpu_type link next = input_type link.
Proof.
  intros H. unfold get_padded_gpu_type.
  destruct (Z.eqb_spec (input_type link) GPU_VEC3); [contradiction | reflexivity].
Qed.

Lemma layout_floats_aligned floats :
  Forall (fun i => input_type i = GPU_FLOAT) floats ->
  forall off, Forall item_aligned (layout_items floats off).
Proof.
  intros H. induction H as [| f floats Hf Hfl IH]; intros off; cbn [layout_items];
    [constructor |].
  destruct (gpu_input_is_dynamic_uniform f); [| apply IH].
  constructor; [| apply IH].
  unfold item_aligned, item_alignment. cbn [item_gputype item_offset].
  rewrite get_padded_gpu_type_plain by (rewrite Hf; discriminate).
  rewrite Hf. cbn. apply Z.mod_1_r.
Qed.

Lemma layout_vec2_aligned vec2s :
  Forall (fun i => input_type i = GPU_VEC2) vec2s ->
  forall floats off,
    Forall (fun i => input_type i = GPU_FLOAT) floats ->
    off mod 2 = 0 ->
    Forall item_aligned (layout_items (vec2s ++ floats) off).
Proof.
  intros H. induction H as [| w vec2s Hw Hv IH]; intros floats off Hfl Hoff.
  - now apply layout_floats_aligned.
  - cbn [app layout_items].
    destruct (gpu_input_is_dynamic_uniform w); [| now apply IH].
    rewrite get_padded_gpu_type_plain by (rewrite Hw; discriminate).
    constructor.
    + unfold item_aligned, item_alignment. cbn [item_gputype item_offset].
      rewrite Hw. cbn. exact Hoff.
    + apply IH; [exact Hfl |]. rewrite Hw. unfold GPU_VEC2.
      rewrite <- Z.add_mod_idemp_l by lia. rewrite Hoff. reflexivity.
Qed.

Lemma pair_vec3_head vec3s vec2s floats :
  Forall (fun i => input_type i = GPU_VEC3) vec3s ->
  Forall (fun i => input_type i = GPU_VEC2) vec2s ->
  vec3s ++ vec2s <> [] ->
  exists nx, hd_error (pair_vec3 vec3s vec2s floats) = Some nx
             /\ input_type nx <> GPU_FLOAT.
Proof.
  intros H3 H2 Hne. destruct vec3s as [| v rest3].
  - destruct vec2s as [| w vec2s']; [contradiction |].
    inversion H2 as [| ? ? Hw ?]; subst. exists w. split; [reflexivity |].
    rewrite Hw. discriminate.
  - inversion H3 as [| ? ? Hv ?]; subst. exists v.
    split; [| rewrite Hv; discriminate].
    cbn [pair_vec3]. destruct rest3, vec2s, floats; reflexivity.
Qed.

Lemma layout_pair_vec3_aligned vec3s :
  forall vec2s floats off,
    Forall (fun i => input_type i = GPU_VEC3) vec3s ->
    Forall (fun i => input_type i = GPU_VEC2) vec2s ->
    Forall (fun i => input_type i = GPU_FLOAT) floats ->
    Forall (fun i => gpu_input_is_dynamic_uniform i = true)
      (vec3s ++ vec2s ++ floats) ->
    off mod 4 = 0 ->
    Forall item_aligned (layout_items (pair_vec3 vec3s vec2s floats) off).
Proof.
  induction vec3s as [| v rest3 IH]; intros vec2s floats off H3 H2 H1 Hq Hoff.
  - cbn [pair_vec3]. apply layout_vec2_aligned; auto.
    pose proof (Z.div_mod off 4 ltac:(lia)) as E. rewrite Hoff in E. rewrite E.
    replace (4 * (off / 4) + 0) with (2 * (off / 4) * 2) by lia.
    apply Z.mod_mul. lia.
  - inversion H3 as [| ? ? Hv H3']; subst.
    inversion Hq as [| ? ? Hqv Hq']; subst.
    assert (Hstep : forall tail next,
               hd_error tail = next ->
               (get_padded_gpu_type v next = GPU_VEC3
                -> Forall item_aligned (layout_items tail (off + GPU_VEC3))) ->
               (get_padded_gpu_type v next = GPU_VEC4
                -> Forall item_aligned (layout_items tail (off + GPU_VEC4))) ->
               Forall item_aligned (layout_items (v :: tail) off)).
    { intros tail next Hn Hk3 Hk4. cbn [layout_items]. rewrite Hqv, Hn.
      assert (get_padded_gpu_type v next = GPU_VEC3
              \/ get_padded_gpu_type v next = GPU_VEC4) as [E | E].
      { unfold get_padded_gpu_type. rewrite Hv.
        destruct (_ && _); auto. }
      - rewrite E. constructor; [| now apply Hk3].
        unfold item_aligned, item_alignment. cbn. exact Hoff.
      - rewrite E. constructor; [| now apply Hk4].
        unfold item_aligned, item_alignment. cbn. exact Hoff. }
    assert (Hoff4 : (off + GPU_VEC4) mod 4 = 0).
    { unfold GPU_VEC4. rewrite <- Z.add_mod_idemp_l by lia. now rewrite Hoff. }
    cbn [pair_vec3].
    assert (Hcont : forall fl,
               Forall (fun i => input_type i = GPU_FLOAT) fl ->
               Forall (fun i => gpu_input_is_dynamic_uniform i = true)
                 (rest3 ++ vec2s ++ fl) ->
               rest3 ++ vec2s <> [] ->
               Forall item_aligned
                 (layout_items
                    (v :: match fl with
                          | f :: fl' => f :: pair_vec3 rest3 vec2s fl'
                          | [] => pair_vec3 rest3 vec2s []
                          end) off)).
    { intros fl Hfl Hqr Hne. destruct fl as [| f fl'].
      - destruct (pair_vec3_head rest3 vec2s [] H3' H2 Hne) as (nx & Hnx & Hnf).
        apply (Hstep _ (Some nx) Hnx).
        + unfold get_padded_gpu_type. rewrite Hv. cbn [Z.eqb GPU_VEC3 Pos.eqb andb].
          destruct (Z.eqb_spec (input_type nx) GPU_FLOAT); [contradiction |].
          cbn. discriminate.
        + intros _. now apply IH.
      - inversion Hfl as [| ? ? Hf Hfl']; subst.
        apply (Hstep (f :: pair_vec3 rest3 vec2s fl') (Some f) eq_refl).
        + intros _. cbn [layout_items].
          assert (gpu_input_is_dynamic_uniform f = true) as Hqf.
          { rewrite Forall_forall in Hqr. apply Hqr.
            apply in_or_app. right. apply in_or_app. right. now left. }
          rewrite Hqf, get_padded_gpu_type_plain by (rewrite Hf; discriminate).
          constructor.
          * unfold item_aligned, item_alignment. cbn [item_gputype item_offset].
            rewrite Hf. cbn. apply Z.mod_1_r.
          * rewrite Hf. replace (off + GPU_VEC3 + GPU_FLOAT) with (off + GPU_VEC4)
              by (unfold GPU_VEC3, GPU_FLOAT, GPU_VEC4; lia).
            apply IH; auto.
            apply Forall_forall. intros x Hx. rewrite Forall_forall in Hqr. apply Hqr.
            apply in_app_or in Hx. destruct Hx as [Hx | Hx];
              [apply in_or_app; now left |].
            apply in_app_or in Hx. destruct Hx as [Hx | Hx];
              apply in_or_app; right; apply in_or_app; [now left | right; now right].
        + unfold get_padded_gpu_type. rewrite Hv, Hf. cbn. discriminate. }
    destruct rest3 as [| r rest3']; [destruct vec2s as [| w vec2s'] |].
    + apply (Hstep _ (hd_error floats) eq_refl).
      * intros _. now apply layout_floats_aligned.
      * unfold get_padded_gpu_type. rewrite Hv.
        destruct floats as [| f fl']; cbn; [discriminate |].
        inversion H1; subst. rewrite H4. cbn. discriminate.
    + specialize (Hcont floats H1 Hq'). destruct floats; apply Hcont; discriminate.
    + specialize (Hcont floats H1 Hq'). destruct floats; apply Hcont; discriminate.
Qed.

Lemma layout_vec4_aligned vec4s :
  Forall (fun i => input_type i = GPU_VEC4) vec4s ->
  forall rest off,
    off mod 4 = 0 ->
    (forall off', off' mod 4 = 0 -> Forall item_aligned (layout_items rest off')) ->
    Forall item_aligned (layout_items (vec4s ++ rest) off).
Proof.
  intros H. induction H as [| x vec4s Hx Hv IH]; intros rest off Hoff Hrest.
  - now apply Hrest.
  - cbn [app layout_items].
    assert ((off + GPU_VEC4) mod 4 = 0) as Hoff4.
    { unfold GPU_VEC4. rewrite <- Z.add_mod_idemp_l by lia. now rewrite Hoff. }
    destruct (gpu_input_is_dynamic_uniform x); [| now apply IH].
    rewrite get_padded_gpu_type_plain by (rewrite Hx; discriminate). rewrite Hx.
    constructor; [| now apply IH].
    unfold item_aligned, item_alignment. cbn. exact Hoff.
Qed.

Lemma of_class_qualifying t inputs :
  Forall (fun i => gpu_input_is_dynamic_uniform i = true)
    (of_class t (filter gpu_input_is_dynamic_uniform inputs)).
Proof.
  apply Forall_forall. intros x Hx. unfold of_class in Hx.
  apply filter_In in Hx. destruct Hx as (Hx & _). apply filter_In in Hx. tauto.
Qed.

(** X11: in a buffer built from distinct inputs of the classes 1 to 4 every
    item starts at a multiple of its alignment: the offset of a vec4 or a
    vec3 is a multiple of 4 float components, that of a vec2 a multiple
    of 2. *)
Theorem sort_and_create_layout_aligned pf inputs err c tr d :
  distinct_nodes inputs ->
  Forall supported_class inputs ->
  GPU_uniformbuffer_dynamic_sort_and_create pf inputs [] err = Done c tr ->
  created_ubo c = Some (UDynamic d) ->
  Forall item_aligned (items d).
Proof.
  intros Hnd Hc H Hu.
  destruct (sort_and_create_Done pf inputs err c tr d H Hu)
    as (sorted & Hs & _ & _ & Hi & _).
  rewrite (inputs_sort_refines _ (distinct_nodes_filter _ _ Hnd)
             (filter_Forall _ _ _ Hc)) in Hs.
  injection Hs as <-. rewrite Hi.
  apply layout_vec4_aligned; [apply of_class_holds | reflexivity |].
  intros off Hoff. apply layout_pair_vec3_aligned; try apply of_class_holds; auto.
  repeat (apply Forall_app; split); apply of_class_qualifying.
Qed.

Lemma sort_and_create_layout_aligned_witness :
  exists d,
    created_dynamic
      (GPU_uniformbuffer_dynamic_sort_and_create example_platform mixed_inputs [] None)
    = Some d
    /\ Forall item_aligned (items d).
Proof.
  destruct (created_dynamic
              (GPU_uniformbuffer_dynamic_sort_and_create example_platform mixed_inputs
                 [] None)) as [d |] eqn:E; [| vm_compute in E; discriminate].
  exists d. split; [reflexivity |].
  destruct (created_dynamic_Some _ _ E) as (c & tr & H & Hc).
  apply (sort_and_create_layout_aligned example_platform mixed_inputs None c tr d);
    [| | exact H | exact Hc].
  - unfold distinct_nodes, mixed_inputs. simpl.
    repeat constructor; simpl; intuition discriminate.
  - unfold mixed_inputs. repeat constructor; vm_compute; discriminate.
Defined.

(** X12: sorting a list the sorter returned gives that list back. *)
Theorem gpu_uniformbuffer_inputs_sort_idempotent inputs sorted tr :
  distinct_nodes inputs ->
  Forall supported_class inputs ->
  gpu_uniformbuffer_inputs_sort inputs = Done sorted tr ->
  gpu_uniformbuffer_inputs_sort sorted = Done sorted [].
Proof.
  intros Hnd Hc H.
  pose proof (gpu_uniformbuffer_inputs_sort_Permutation _ _ _ Hnd H) as Hp.
  rewrite (inputs_sort_refines inputs Hnd Hc) in H. injection H as Hs _.
  rewrite (inputs_sort_refines sorted (distinct_nodes_Permutation _ _ Hp Hnd)
             (Permutation_Forall Hp Hc)).
  f_equal.
  assert (forall t, of_class t sorted = of_class t inputs) as Hclass.
  { intros t. rewrite <- Hs at 1.
    rewrite of_class_app, of_class_pair_vec3 by apply of_class_holds.
    rewrite <- !of_class_app.
    pose proof (BLI_listbase_sort_Permutation inputs_cmp inputs) as Hp'.
    pose proof (descending_by_class _ (BLI_listbase_sort_descending inputs)
                  (Permutation_Forall Hp' Hc)) as Hdec.
    rewrite !BLI_listbase_sort_of_class in Hdec.
    rewrite <- Hdec. apply BLI_listbase_sort_of_class. }
  rewrite !Hclass. exact Hs.
Qed.

Lemma gpu_uniformbuffer_inputs_sort_idempotent_witness :
  gpu_uniformbuffer_inputs_sort mixed_inputs = Done mixed_inputs [].
Proof.
  apply (gpu_uniformbuffer_inputs_sort_idempotent
           [uniform_input 4 GPU_VEC2 (repeat x04 16);
            uniform_input 1 GPU_VEC4 (repeat x01 16);
            uniform_input 3 GPU_FLOAT (repeat x03 16);
            uniform_input 2 GPU_VEC3 (repeat x02 16)] _ []).
  - unfold distinct_nodes. simpl. repeat constructor; simpl; intuition discriminate.
  - repeat constructor; vm_compute; discriminate.
  - vm_compute. reflexivity.
Defined.

(* ===================================================================== *)
(** ** The size of the buffer by the numbers of entries                   *)
(* ===================================================================== *)

Lemma layout_floats_size floats :
  Forall (fun i => input_type i = GPU_FLOAT) floats ->
  Forall (fun i => gpu_input_is_dynamic_uniform i = true) floats ->
  forall off,
    sum_item_sizes (layout_items floats off) = sizeof_float * Z.of_nat (length floats).
Proof.
  intros H. induction H as [| f floats Hf Hfl IH]; intros Hq off; [reflexivity |].
  inversion Hq as [| ? ? Hqf Hq']; subst.
  cbn [layout_items]. rewrite Hqf.
  rewrite get_padded_gpu_type_plain by (rewrite Hf; discriminate).
  cbn [sum_item_sizes fold_right item_size]. fold (sum_item_sizes (layout_items floats (off + input_type f))).
  rewrite (IH Hq'), Hf, length_cons. unfold GPU_FLOAT, sizeof_float. lia.
Qed.

Lemma layout_vec2_size vec2s :
  Forall (fun i => input_type i = GPU_VEC2) vec2s ->
  forall floats off,
    Forall (fun i => input_type i = GPU_FLOAT) floats ->
    Forall (fun i => gpu_input_is_dynamic_uniform i = true) (vec2s ++ floats) ->
    sum_item_sizes (layout_items (vec2s ++ floats) off)
    = sizeof_float * (2 * Z.of_nat (length vec2s) + Z.of_nat (length floats)).
Proof.
  intros H. induction H as [| w vec2s Hw Hv IH]; intros floats off Hfl Hq.
  - cbn [app length]. rewrite layout_floats_size by assumption.
    unfold sizeof_float. lia.
  - cbn [app] in *. inversion Hq as [| ? ? Hqw Hq']; subst.
    cbn [layout_items]. rewrite Hqw.
    rewrite get_padded_gpu_type_plain by (rewrite Hw; discriminate).
    cbn [sum_item_sizes fold_right item_size].
    fold (sum_item_sizes (layout_items (vec2s ++ floats) (off + input_type w))).
    rewrite (IH floats _ Hfl Hq'), Hw, length_cons.
    unfold GPU_VEC2, sizeof_float. lia.
Qed.

Lemma layout_pair_vec3_size vec3s :
  forall vec2s floats off,
    Forall (fun i => input_type i = GPU_VEC3) vec3s ->
    Forall (fun i => input_type i = GPU_VEC2) vec2s ->
    Forall (fun i => input_type i = GPU_FLOAT) floats ->
    Forall (fun i => gpu_input_is_dynamic_uniform i = true)
      (vec3s ++ vec2s ++ floats) ->
    sum_item_sizes (layout_items (pair_vec3 vec3s vec2s floats) off)
    = sizeof_float
      * (3 * Z.of_nat (length vec3s) + 2 * Z.of_nat (length vec2s)
         + Z.of_nat (length floats)
         + padded_vec3_count (Z.of_nat (length vec3s)) (Z.of_nat (length vec2s))
             (Z.of_nat (length floats))).
Proof.
  induction vec3s as [| v rest3 IH]; intros vec2s floats off H3 H2 H1 Hq.
  - cbn [pair_vec3 length app] in *. rewrite layout_vec2_size by assumption.
    unfold padded_vec3_count, sizeof_float.
    destruct (Z.of_nat (length vec2s) =? 0); lia.
  - inversion H3 as [| ? ? Hv H3']; subst.
    inversion Hq as [| ? ? Hqv Hq']; subst.
    assert (Hstep : forall tail,
               sum_item_sizes (layout_items (v :: tail) off)
               = get_padded_gpu_type v (hd_error tail) * sizeof_float
                 + sum_item_sizes
                     (layout_items tail (off + get_padded_gpu_type v (hd_error tail)))).
    { intros tail. cbn [layout_items]. rewrite Hqv. reflexivity. }
    assert (Hcont : forall fl,
               Forall (fun i => input_type i = GPU_FLOAT) fl ->
               Forall (fun i => gpu_input_is_dynamic_uniform i = true)
                 (rest3 ++ vec2s ++ fl) ->
               rest3 ++ vec2s <> [] ->
               sum_item_sizes
                 (layout_items
                    (v :: match fl with
                          | f :: fl' => f :: pair_vec3 rest3 vec2s fl'
                          | [] => pair_vec3 rest3 vec2s []
                          end) off)
               = sizeof_float
                 * (3 * Z.of_nat (length (v :: rest3)) + 2 * Z.of_nat (length vec2s)
                    + Z.of_nat (length fl)
                    + padded_vec3_count (Z.of_nat (length (v :: rest3)))
                        (Z.of_nat (length vec2s)) (Z.of_nat (length fl)))).
    { intros fl Hfl Hqr Hne.
      assert (0 < Z.of_nat (length rest3) \/ 0 < Z.of_nat (length vec2s)) as Hpos.
      { destruct rest3; [destruct vec2s; [contradiction |] |]; simpl; lia. }
      rewrite Hstep. destruct fl as [| f fl'].
      - destruct (pair_vec3_head rest3 vec2s [] H3' H2 Hne) as (nx & Hnx & Hnf).
        rewrite Hnx.
        assert (get_padded_gpu_type v (Some nx) = GPU_VEC4) as E.
        { unfold get_padded_gpu_type. rewrite Hv. cbn [Z.eqb GPU_VEC3 Pos.eqb andb].
          destruct (Z.eqb_spec (input_type nx) GPU_FLOAT); [contradiction | reflexivity]. }
        rewrite E, (IH vec2s [] _ H3' H2 Hfl Hqr), length_cons.
        unfold padded_vec3_count, GPU_VEC4, sizeof_float. cbn [length].
        destruct (Z.eqb_spec (Z.of_nat (length vec2s)) 0); lia.
      - inversion Hfl as [| ? ? Hf Hfl']; subst. cbn [hd_error].
        assert (get_padded_gpu_type v (Some f) = GPU_VEC3) as E.
        { unfold get_padded_gpu_type. rewrite Hv, Hf. reflexivity. }
        rewrite E. cbn [layout_items].
        assert (gpu_input_is_dynamic_uniform f = true) as Hqf.
        { rewrite Forall_forall in Hqr. apply Hqr.
          apply in_or_app. right. apply in_or_app. right. now left. }
        rewrite Hqf, get_padded_gpu_type_plain by (rewrite Hf; discriminate).
        cbn [sum_item_sizes fold_right item_size].
        fold (sum_item_sizes
                (layout_items (pair_vec3 rest3 vec2s fl') (off + GPU_VEC3 + input_type f))).
        rewrite (IH vec2s fl' _ H3' H2 Hfl'), Hf, !length_cons.
        + unfold padded_vec3_count, GPU_VEC3, GPU_FLOAT, sizeof_float.
          destruct (Z.eqb_spec (Z.of_nat (length vec2s)) 0); lia.
        + apply Forall_forall. intros x Hx. rewrite Forall_forall in Hqr. apply Hqr.
          apply in_app_or in Hx. destruct Hx as [Hx | Hx];
            [apply in_or_app; now left |].
          apply in_app_or in Hx. destruct Hx as [Hx | Hx];
            apply in_or_app; right; apply in_or_app; [now left | right; now right]. }
    cbn [pair_vec3].
    destruct rest3 as [| r rest3']; [destruct vec2s as [| w vec2s'] |].
    + rewrite Hstep.
      assert (get_padded_gpu_type v (hd_error floats) = GPU_VEC3) as E.
      { unfold get_padded_gpu_type. rewrite Hv.
        destruct floats as [| f fl']; cbn; [reflexivity |].
        inversion H1 as [| ? ? Hf ?]; subst. now rewrite Hf. }
      rewrite E, layout_floats_size by assumption.
      unfold padded_vec3_count, GPU_VEC3, sizeof_float. cbn [length Z.of_nat Z.eqb]. lia.
    + specialize (Hcont floats H1 Hq'). destruct floats; apply Hcont; discriminate.
    + specialize (Hcont floats H1 Hq'). destruct floats; apply Hcont; discriminate.
Qed.

Lemma layout_vec4_size vec4s :
  Forall (fun i => input_type i = GPU_VEC4) vec4s ->
  Forall (fun i => gpu_input_is_dynamic_uniform i = true) vec4s ->
  forall rest total off,
    (forall off', sum_item_sizes (layout_items rest off') = total) ->
    sum_item_sizes (layout_items (vec4s ++ rest) off)
    = sizeof_float * (4 * Z.of_nat (length vec4s)) + total.
Proof.
  intros H. induction H as [| x vec4s Hx Hv IH]; intros Hq rest total off Hrest.
  - cbn [app length]. rewrite Hrest. unfold sizeof_float. lia.
  - inversion Hq as [| ? ? Hqx Hq']; subst.
    cbn [app layout_items]. rewrite Hqx.
    rewrite get_padded_gpu_type_plain by (rewrite Hx; discriminate).
    cbn [sum_item_sizes fold_right item_size].
    fold (sum_item_sizes (layout_items (vec4s ++ rest) (off + input_type x))).
    rewrite (IH Hq' rest total _ Hrest), Hx, length_cons.
    unfold GPU_VEC4, sizeof_float. lia.
Qed.

(** X13: the size of a buffer built from distinct inputs of the classes 1 to
    4 is fixed by the numbers of qualifying entries of each class: 16 bytes a
    vec4, 12 a vec3, 8 a vec2, 4 a float, and 4 more for every vec3 that
    finds no float to pair with, the last vec3 excepted when no vec2
    follows it. *)
Theorem sort_and_create_size pf inputs err c tr d :
  distinct_nodes inputs ->
  Forall supported_class inputs ->
  GPU_uniformbuffer_dynamic_sort_and_create pf inputs [] err = Done c tr ->
  created_ubo c = Some (UDynamic d) ->
  size (buffer d)
  = 16 * class_count GPU_VEC4 inputs + 12 * class_count GPU_VEC3 inputs
    + 8 * class_count GPU_VEC2 inputs + 4 * class_count GPU_FLOAT inputs
    + 4 * padded_vec3_count (class_count GPU_VEC3 inputs) (class_count GPU_VEC2 inputs)
          (class_count GPU_FLOAT inputs).
Proof.
  intros Hnd Hc H Hu.
  destruct (sort_and_create_Done pf inputs err c tr d H Hu)
    as (sorted & Hs & _ & _ & Hi & Hsz & _).
  rewrite (inputs_sort_refines _ (distinct_nodes_filter _ _ Hnd)
             (filter_Forall _ _ _ Hc)) in Hs.
  injection Hs as <-. rewrite Hsz, Hi.
  rewrite (layout_vec4_size _ (of_class_holds _ _) (of_class_qualifying _ _) _
             _ 0 (fun off' => layout_pair_vec3_size _ _ _ off'
                                (of_class_holds _ _) (of_class_holds _ _)
                                (of_class_holds _ _)
                                ltac:(repeat (apply Forall_app; split);
                                      apply of_class_qualifying))).
  unfold class_count, sizeof_float. lia.
Qed.

Lemma sort_and_create_size_witness :
  exists d,
    created_dynamic
      (GPU_uniformbuffer_dynamic_sort_and_create example_platform mixed_inputs [] None)
    = Some d
    /\ size (buffer d)
       = 16 * class_count GPU_VEC4 mixed_inputs + 12 * class_count GPU_VEC3 mixed_inputs
         + 8 * class_count GPU_VEC2 mixed_inputs + 4 * class_count GPU_FLOAT mixed_inputs
         + 4 * padded_vec3_count (class_count GPU_VEC3 mixed_inputs)
               (class_count GPU_VEC2 mixed_inputs) (class_count GPU_FLOAT mixed_inputs).
Proof.
  destruct (created_dynamic
              (GPU_uniformbuffer_dynamic_sort_and_create example_platform mixed_inputs
                 [] None)) as [d |] eqn:E; [| vm_compute in E; discriminate].
  exists d. split; [reflexivity |].
  destruct (created_dynamic_Some _ _ E) as (c & tr & H & Hc).
  apply (sort_and_create_size example_platform mixed_inputs None c tr d);
    [| | exact H | exact Hc].
  - unfold distinct_nodes, mixed_inputs. simpl.
    repeat constructor; simpl; intuition discriminate.
  - unfold mixed_inputs. repeat constructor; vm_compute; discriminate.
Defined.

(* ===================================================================== *)
(** ** What the copy loop leaves in the staging block                     *)
(* ===================================================================== *)

Lemma block_bytes_nth (blk : list mbyte) pos n i :
  nth_error (block_bytes blk pos n) i
  = if (i <? Z.to_nat n)%nat then nth_error blk (Z.to_nat pos + i) else None.
Proof. unfold block_bytes. now rewrite nth_error_firstn, nth_error_skipn. Qed.

Lemma memcpy_nth dst pos src n blk tr m :
  memcpy dst pos src n = Done blk tr ->
  nth_error blk m
  = if (m <? Z.to_nat pos)%nat then nth_error dst m
    else if (m <? Z.to_nat pos + Z.to_nat n)%nat
         then option_map Some (nth_error src (m - Z.to_nat pos))
         else nth_error dst m.
Proof.
  intros H. apply memcpy_Done_inv in H. destruct H as (_ & Hp & Hn & Hd & Hs & ->).
  assert (length (firstn (Z.to_nat pos) dst) = Z.to_nat pos) as L1
      by (rewrite length_firstn; lia).
  assert (length (map Some (firstn (Z.to_nat n) src)) = Z.to_nat n) as L2
      by (rewrite length_map, length_firstn; lia).
  rewrite nth_error_app, L1.
  destruct (Nat.ltb_spec m (Z.to_nat pos)) as [H1 | H1].
  - rewrite nth_error_firstn. destruct (Nat.ltb_spec m (Z.to_nat pos)); [reflexivity | lia].
  - rewrite nth_error_app, L2.
    destruct (Nat.ltb_spec (m - Z.to_nat pos) (Z.to_nat n)) as [H2 | H2];
      destruct (Nat.ltb_spec m (Z.to_nat pos + Z.to_nat n)) as [H3 | H3]; try lia.
    + rewrite nth_error_map, nth_error_firstn.
      destruct (Nat.ltb_spec (m - Z.to_nat pos) (Z.to_nat n)); [reflexivity | lia].
    + rewrite nth_error_skipn. f_equal. lia.
Qed.

Lemma memcpy_read_same dst pos src n blk tr :
  memcpy dst pos src n = Done blk tr ->
  block_bytes blk pos n = map Some (firstn (Z.to_nat n) src).
Proof.
  intros H. apply nth_error_ext. intros i.
  rewrite block_bytes_nth, (memcpy_nth _ _ _ _ _ _ _ H), nth_error_map, nth_error_firstn.
  destruct (Nat.ltb_spec i (Z.to_nat n)) as [Hi | Hi]; [| reflexivity].
  destruct (Nat.ltb_spec (Z.to_nat pos + i) (Z.to_nat pos)); [lia |].
  destruct (Nat.ltb_spec (Z.to_nat pos + i) (Z.to_nat pos + Z.to_nat n)); [| lia].
  do 2 f_equal. lia.
Qed.

Lemma memcpy_read_other dst pos src n blk tr pos2 n2 :
  memcpy dst pos src n = Done blk tr ->
  0 <= pos2 ->
  pos2 + n2 <= pos \/ pos + n <= pos2 \/ n2 <= 0 \/ n = 0 ->
  block_bytes blk pos2 n2 = block_bytes dst pos2 n2.
Proof.
  intros H H0 Hsep. pose proof H as H'.
  apply memcpy_Done_inv in H'. destruct H' as (_ & Hp & Hn & _).
  apply nth_error_ext. intros i.
  rewrite !block_bytes_nth, (memcpy_nth _ _ _ _ _ _ _ H).
  destruct (Nat.ltb_spec i (Z.to_nat n2)) as [Hi | Hi]; [| reflexivity].
  destruct (Nat.ltb_spec (Z.to_nat pos2 + i) (Z.to_nat pos)); [reflexivity |].
  destruct (Nat.ltb_spec (Z.to_nat pos2 + i) (Z.to_nat pos + Z.to_nat n));
    [lia | reflexivity].
Qed.

Lemma ranges_disjoint_apart unit its i j a b :
  ranges_disjoint unit its ->
  nth_error its i = Some a -> nth_error its j = Some b -> i <> j ->
  0 < item_size a -> 0 < item_size b ->
  unit * item_offset a + item_size a <= unit * item_offset b
  \/ unit * item_offset b + item_size b <= unit * item_offset a.
Proof.
  intros Hd Ha Hb Hne Hsa Hsb.
  destruct (Z.le_gt_cases (unit * item_offset a + item_size a) (unit * item_offset b))
    as [H1 | H1]; [now left |].
  destruct (Z.le_gt_cases (unit * item_offset b + item_size b) (unit * item_offset a))
    as [H2 | H2]; [now right |].
  exfalso. apply Hne.
  apply (Hd i j a b (Z.max (unit * item_offset a) (unit * item_offset b)) Ha Hb);
    unfold in_item_range; lia.
Qed.

(** The copy loop, item by item.  [k] is the position in the lookup table
    that names item [j].  When the cursor is past [k] the item keeps its
    bytes; when [k] is still ahead, the item ends up with the first
    [item_size] bytes of the live value of the input that comes [k]-th. *)
Lemma dynamic_eval_loop_sync inputs :
  forall ubo c ubo' tr lookup,
    Forall (fun i => gpu_input_is_dynamic_uniform i = true) inputs ->
    id_lookup ubo = Some lookup ->
    NoDup lookup ->
    ranges_disjoint sizeof_float (items ubo) ->
    Forall (fun it => 0 <= item_offset it) (items ubo) ->
    0 <= c ->
    dynamic_eval_loop inputs ubo c = Done ubo' tr ->
    forall (j : nat) it (k : nat),
      nth_error (items ubo) j = Some it ->
      nth_error lookup k = Some (Z.of_nat j) ->
      (Z.of_nat k < c -> item_bytes ubo' it = item_bytes ubo it)
      /\ (c <= Z.of_nat k < c + Z.of_nat (length inputs) ->
          exists input v,
            nth_error inputs (k - Z.to_nat c) = Some input
            /\ input_dynamicvec input = Some v
            /\ item_bytes ubo' it
               = Some (map Some (firstn (Z.to_nat (item_size it)) v))).
Proof.
  induction inputs as [| input rest IH];
    intros ubo c ubo' tr lookup Hq Hl Hnd Hdis Hoff Hc H j it k Hit Hk.
  - simpl in H. injection H as <- <-. split; [reflexivity |]. simpl. lia.
  - inversion Hq as [| ? ? Hqi Hq']; subst.
    cbn [dynamic_eval_loop] in H. rewrite Hqi in H.
    destruct (input_dynamicvec input) as [v |] eqn:Ev; [| discriminate].
    rewrite Hl in H.
    inv_bind H as lk Hlk H. injection Hlk as <- <-.
    inv_bind H as id Hid H. apply array_get_Done_inv in Hid.
    destruct Hid as (-> & _ & Hid).
    unfold BLI_findlink in H.
    destruct (Z.leb_spec 0 id) as [Hid0 | ?]; [| discriminate].
    destruct (nth_error (items ubo) (Z.to_nat id)) as [it' |] eqn:Eit; [| discriminate].
    inv_bind H as it0 Hit0 H. injection Hit0 as <- <-.
    destruct (data ubo) as [blk |] eqn:Ed; [| discriminate].
    inv_bind H as blk0 Hblk H. injection Hblk as <- <-.
    inv_bind H as blk' Hcp H.
    pose proof (memcpy_Done_inv _ _ _ _ _ _ Hcp) as (_ & Hp0 & Hn0 & _).
    (* the rest of the loop, on the block just written *)
    specialize (IH (set_data ubo (Some blk')) (c + 1) ubo' _ lookup Hq' Hl Hnd Hdis Hoff
                  ltac:(lia) H j it k Hit Hk).
    destruct IH as (IH1 & IH2).
    assert (item_bytes (set_data ubo (Some blk')) it
            = if (j =? Z.to_nat id)%nat
              then Some (map Some (firstn (Z.to_nat (item_size it)) v))
              else item_bytes ubo it) as Hstep.
    { unfold item_bytes. cbn [data set_data]. rewrite Ed.
      destruct (Nat.eqb_spec j (Z.to_nat id)) as [E | E].
      - subst j. rewrite Eit in Hit. injection Hit as <-.
        f_equal. exact (memcpy_read_same _ _ _ _ _ _ Hcp).
      - f_equal. apply (memcpy_read_other _ _ _ _ _ _ _ _ Hcp).
        + rewrite Forall_forall in Hoff. specialize (Hoff it (nth_error_In _ _ Hit)).
          unfold sizeof_float. lia.
        + destruct (Z.le_gt_cases (item_size it) 0) as [Hz | Hz]; [auto |].
          destruct (Z.eq_dec (item_size it') 0) as [Hz' | Hz']; [auto |].
          destruct (ranges_disjoint_apart _ _ _ _ _ _ Hdis Hit Eit E Hz ltac:(lia));
            auto. }
    assert (Z.of_nat k = c -> j = Z.to_nat id) as Hsame.
    { intros Ek. replace (Z.to_nat c) with k in Hid by lia.
      rewrite Hk in Hid. injection Hid as <-. lia. }
    assert (j = Z.to_nat id -> Z.of_nat k = c) as Hwriter.
    { intros Ej. subst j. rewrite Z2Nat.id in Hk by lia.
      assert (k = Z.to_nat c) as ->; [| lia].
      apply (proj1 (NoDup_nth_error lookup) Hnd).
      - apply nth_error_Some. rewrite Hk. discriminate.
      - now rewrite Hk, Hid. }
    split.
    + intros Hlt. rewrite IH1 by lia. rewrite Hstep.
      destruct (Nat.eqb_spec j (Z.to_nat id)) as [E | E]; [| reflexivity].
      specialize (Hwriter E). lia.
    + intros Hr. cbn [length] in Hr.
      destruct (Z.eq_dec (Z.of_nat k) c) as [Ek | Ek].
      * exists input, v. replace (k - Z.to_nat c)%nat with 0%nat by lia.
        split; [reflexivity |]. split; [exact Ev |].
        rewrite IH1 by lia. rewrite Hstep.
        destruct (Nat.eqb_spec j (Z.to_nat id)) as [E | E]; [reflexivity |].
        specialize (Hsame Ek). contradiction.
      * destruct IH2 as (input' & v' & Hin & Hv' & Hb); [lia |].
        exists input', v'. split; [| auto].
        replace (k - Z.to_nat c)%nat with (S (k - Z.to_nat (c + 1))) by lia.
        exact Hin.
Qed.

Lemma layout_items_offsets links :
  Forall supported_class links ->
  forall off, 0 <= off ->
    Forall (fun it => 0 <= item_offset it) (layout_items links off).
Proof.
  intros Hl. induction Hl as [| link rest Hs Hl IH]; cbn [layout_items]; intros off Hoff;
    [constructor |].
  pose proof (get_padded_gpu_type_supported link (hd_error rest) Hs) as H.
  unfold GPU_FLOAT in H.
  destruct (gpu_input_is_dynamic_uniform link); [| now apply IH].
  constructor; [exact Hoff | apply IH; lia].
Qed.

Lemma self_inverse_NoDup lookup : self_inverse lookup -> NoDup lookup.
Proof.
  intros H. apply NoDup_nth_error. intros i j Hi E.
  destruct (nth_error lookup i) as [id |] eqn:Ei;
    [| apply nth_error_None in Ei; lia].
  symmetry in E.
  destruct (H _ _ Ei) as (_ & E1). destruct (H _ _ E) as (_ & E2).
  rewrite E1 in E2. injection E2. lia.
Qed.

(** Eval on any buffer whose item ranges are apart and whose table is its
    own inverse. *)
Lemma dynamic_eval_self_inverse d lookup values u' tr' :
  Forall (fun i => gpu_input_is_dynamic_uniform i = true) values ->
  id_lookup d = Some lookup ->
  self_inverse lookup ->
  length values = length lookup ->
  length (items d) = length lookup ->
  ranges_disjoint sizeof_float (items d) ->
  Forall (fun it => 0 <= item_offset it) (items d) ->
  GPU_uniformbuffer_dynamic_eval (UDynamic d) values = Done u' tr' ->
  exists d', u' = UDynamic d' /\ forall j, item_in_sync values d' j.
Proof.
  intros Hq Hl Hself Hlv Hli Hdis Hoff H.
  unfold GPU_uniformbuffer_dynamic_eval in H.
  inv_bind H as x Ha H. inv_bind H as d0 Hd H. injection Hd as <- <-.
  inv_bind H as d' Hloop H. injection H as <- <-.
  exists d'. split; [reflexivity |].
  destruct (dynamic_eval_loop_frame _ _ _ _ _ Hloop) as (_ & _ & Hi' & Hl' & _).
  intros j it Hit. rewrite Hi' in Hit.
  destruct (nth_error lookup j) as [id |] eqn:Ej.
  2:{ apply nth_error_None in Ej.
      assert (nth_error (items d) j <> None) as Hn by (rewrite Hit; discriminate).
      apply nth_error_Some in Hn. lia. }
  destruct (Hself _ _ Ej) as (Hid & Eback).
  assert (Z.to_nat id < length lookup)%nat as Hk.
  { apply nth_error_Some. rewrite Eback. discriminate. }
  destruct (dynamic_eval_loop_sync values d 0 d' _ lookup Hq Hl
              (self_inverse_NoDup _ Hself) Hdis Hoff ltac:(lia) Hloop
              j it (Z.to_nat id) Hit Eback) as (_ & H2).
  destruct H2 as (input & v & Hin & Hv & Hb); [lia |].
  rewrite Hb. unfold source_bytes. rewrite Hl', Hl, Ej.
  unfold BLI_findlink. destruct (Z.leb_spec 0 id); [| lia].
  replace (Z.to_nat id - Z.to_nat 0)%nat with (Z.to_nat id) in Hin by lia.
  now rewrite Hin, Hv.
Qed.

(** X14: a buffer built from supported inputs whose lookup table is its own
    inverse is refreshed correctly: after GPU_uniformbuffer_dynamic_eval
    with one live value per entry, every item holds the first [item_size]
    bytes of the value of the input the table records for it. *)
Theorem dynamic_eval_in_sync pf inputs err c tr d lookup values u' tr' :
  Forall supported_class inputs ->
  GPU_uniformbuffer_dynamic_sort_and_create pf inputs [] err = Done c tr ->
  created_ubo c = Some (UDynamic d) ->
  id_lookup d = Some lookup ->
  self_inverse lookup ->
  Forall (fun i => gpu_input_is_dynamic_uniform i = true) values ->
  length values = length lookup ->
  GPU_uniformbuffer_dynamic_eval (UDynamic d) values = Done u' tr' ->
  exists d', u' = UDynamic d' /\ tr' = []
             /\ items d' = items d /\ flag d' = flag d
             /\ forall j, item_in_sync values d' j.
Proof.
  intros Hsup H Hc Hl Hself Hq Hlv He.
  destruct (sort_and_create_Done _ _ _ _ _ _ H Hc)
    as (sorted & Hs & _ & _ & Hi & _ & _ & Hlk & _).
  assert (Forall supported_class sorted) as Hsup'.
  { apply (gpu_uniformbuffer_inputs_sort_holds supported_class _ _ _
             (filter_Forall _ _ _ Hsup) Hs). }
  rewrite Hl in Hlk. injection Hlk as ->.
  destruct (dynamic_eval_self_inverse d _ values u' tr' Hq Hl Hself Hlv) as (d' & -> & Hsync);
    try exact He.
  - now rewrite Hi, layout_items_length, length_map.
  - rewrite Hi. apply (contiguous_disjoint _ _ (layout_items_sizes _ Hsup' 0) (sizeof_float * 0)).
    apply layout_items_contiguous.
  - rewrite Hi. apply layout_items_offsets; [exact Hsup' | lia].
  - destruct (dynamic_eval_frame _ _ _ _ He) as (d1 & d2 & E1 & E2 & -> & _ & Hi2 & _ & Hf2).
    injection E1 as <-. injection E2 as <-.
    exists d'. auto.
Qed.

Lemma dynamic_eval_in_sync_witness :
  exists d d',
    created_dynamic
      (GPU_uniformbuffer_dynamic_sort_and_create example_platform swapped_inputs [] None)
    = Some d
    /\ id_lookup d = Some [1; 0]
    /\ GPU_uniformbuffer_dynamic_eval (UDynamic d) swapped_inputs = Done (UDynamic d') []
    /\ forall j, item_in_sync swapped_inputs d' j.
Proof.
  assert (exists d,
             created_dynamic
               (GPU_uniformbuffer_dynamic_sort_and_create example_platform swapped_inputs
                  [] None) = Some d) as (d & E)
      by (vm_compute; eexists; reflexivity).
  destruct (created_dynamic_Some _ _ E) as (c & tr & H & Hc).
  pose proof E as E'. vm_compute in E'. injection E' as <-.
  match goal with
  | _ : created_ubo c = Some (UDynamic ?d0) |- _ => set (d := d0) in *
  end.
  destruct (GPU_uniformbuffer_dynamic_eval (UDynamic d) swapped_inputs)
    as [u' tr' | f] eqn:Ee; [| vm_compute in Ee; discriminate].
  destruct (dynamic_eval_in_sync example_platform swapped_inputs None c tr d [1; 0]
              swapped_inputs u' tr') as (d' & -> & -> & _ & _ & Hsync);
    try assumption; try reflexivity.
  - unfold swapped_inputs. repeat constructor; vm_compute; discriminate.
  - intros k id Hk.
    do 2 (destruct k as [| k]; [injection Hk as <-; split; [lia | reflexivity] |]).
    destruct k; discriminate.
  - unfold swapped_inputs. repeat constructor.
  - exists d, d'. split; [exact E |]. split; [reflexivity |].
    split; [exact Ee | exact Hsync].
Defined.

(* ===================================================================== *)
(** ** Inputs that come in packed order                                   *)
(* ===================================================================== *)

Lemma BLI_findindex_from_first l :
  forall x n i,
    nth_error l i = Some x ->
    (forall i' y, (i' < i)%nat -> nth_error l i' = Some y -> input_addr y <> input_addr x) ->
    BLI_findindex_from l x n = n + Z.of_nat i.
Proof.
  induction l as [| z l IH]; intros x n i Hi Hfirst; [destruct i; discriminate |].
  cbn [BLI_findindex_from]. unfold ptr_eqb.
  destruct i as [| i].
  - injection Hi as ->. rewrite Z.eqb_refl. lia.
  - destruct (Z.eqb_spec (input_addr z) (input_addr x)) as [E | E].
    + exfalso. apply (Hfirst 0%nat z); [lia | reflexivity | exact E].
    + rewrite (IH x (n + 1) i Hi); [lia |].
      intros i' y Hlt Hy. apply (Hfirst (S i') y); [lia | exact Hy].
Qed.

(** In a list of distinct nodes the identity search returns the position
    of the node. *)
Lemma BLI_findindex_position l i x :
  distinct_nodes l -> nth_error l i = Some x -> BLI_findindex l x = Z.of_nat i.
Proof.
  intros Hd Hi. unfold BLI_findindex.
  rewrite (BLI_findindex_from_first l x 0 i Hi); [lia |].
  intros i' y Hlt Hy E.
  assert (i' = i); [| lia].
  apply (proj1 (NoDup_nth_error (map input_addr l)) Hd).
  - rewrite length_map. apply nth_error_Some. rewrite Hy. discriminate.
  - rewrite !nth_error_map, Hy, Hi. simpl. now rewrite E.
Qed.

(** X15: when the constructor hands the list back in the order it came, the
    buffer is refreshed entry by entry: after GPU_uniformbuffer_dynamic_eval
    the item at position [j] holds the first [item_size] bytes of the [j]-th
    live value. *)
Theorem dynamic_eval_packed_order pf inputs err c tr d values u' tr' :
  distinct_nodes inputs ->
  Forall supported_class inputs ->
  GPU_uniformbuffer_dynamic_sort_and_create pf inputs [] err = Done c tr ->
  created_ubo c = Some (UDynamic d) ->
  r_inputs_sorted c = inputs ->
  Forall (fun i => gpu_input_is_dynamic_uniform i = true) values ->
  length values = length inputs ->
  GPU_uniformbuffer_dynamic_eval (UDynamic d) values = Done u' tr' ->
  exists d',
    u' = UDynamic d'
    /\ length (items d') = length inputs
    /\ forall j it,
         nth_error (items d') j = Some it ->
         exists input v,
           nth_error values j = Some input
           /\ input_dynamicvec input = Some v
           /\ item_bytes d' it = Some (map Some (firstn (Z.to_nat (item_size it)) v)).
Proof.
  intros Hd Hsup H Hc Hsame Hq Hlv He.
  destruct (sort_and_create_Done _ _ _ _ _ _ H Hc)
    as (sorted & Hs & Hr & _ & Hi & _ & _ & Hlk & _).
  assert (sorted = inputs) as -> by congruence. clear Hr Hsame.
  assert (Forall (fun i => gpu_input_is_dynamic_uniform i = true) inputs) as Hqi.
  { apply (gpu_uniformbuffer_inputs_sort_holds
             (fun i => gpu_input_is_dynamic_uniform i = true) _ _ _
             (filter_holds _ _) Hs). }
  rewrite (filter_all _ _ Hqi) in Hlk.
  assert (length (items d) = length inputs) as Hlen
      by (now rewrite Hi, layout_items_length, (filter_all _ _ Hqi)).
  unfold GPU_uniformbuffer_dynamic_eval in He.
  inv_bind He as x Ha He. inv_bind He as d0 Hd0 He. injection Hd0 as <- <-.
  inv_bind He as d' Hloop He. injection He as <- <-.
  destruct (dynamic_eval_loop_frame _ _ _ _ _ Hloop) as (_ & _ & Hi' & _).
  exists d'. split; [reflexivity |]. split; [now rewrite Hi' |].
  intros j it Hit. rewrite Hi' in Hit.
  assert (j < length inputs)%nat as Hj.
  { rewrite <- Hlen. apply nth_error_Some. rewrite Hit. discriminate. }
  destruct (nth_error inputs j) as [x0 |] eqn:Ex;
    [| apply nth_error_None in Ex; lia].
  assert (nth_error (map (BLI_findindex inputs) inputs) j = Some (Z.of_nat j)) as Ek.
  { rewrite nth_error_map, Ex. simpl. f_equal.
    exact (BLI_findindex_position _ _ _ Hd Ex). }
  destruct (dynamic_eval_loop_sync values d 0 d' tr1 (map (BLI_findindex inputs) inputs)
              Hq Hlk) with (j := j) (it := it) (k := j)
    as (_ & H2); try assumption; try lia.
  - apply BLI_findindex_NoDup; auto.
  - rewrite Hi.
    apply (contiguous_disjoint _ _ (layout_items_sizes _ Hsup 0) (sizeof_float * 0)).
    apply layout_items_contiguous.
  - rewrite Hi. apply layout_items_offsets; [exact Hsup | lia].
  - destruct H2 as (input & v & Hin & Hv & Hb); [lia |].
    replace (j - Z.to_nat 0)%nat with j in Hin by lia.
    now exists input, v.
Qed.

Lemma dynamic_eval_packed_order_witness :
  exists d d',
    created_dynamic
      (GPU_uniformbuffer_dynamic_sort_and_create example_platform mixed_inputs [] None)
    = Some d
    /\ GPU_uniformbuffer_dynamic_eval (UDynamic d) mixed_inputs = Done (UDynamic d') []
    /\ length (items d') = 4%nat
    /\ forall j it,
         nth_error (items d') j = Some it ->
         exists input v,
           nth_error mixed_inputs j = Some input
           /\ input_dynamicvec input = Some v
           /\ item_bytes d' it = Some (map Some (firstn (Z.to_nat (item_size it)) v)).
Proof.
  assert (exists d,
             created_dynamic
               (GPU_uniformbuffer_dynamic_sort_and_create example_platform mixed_inputs
                  [] None) = Some d) as (d & E)
      by (vm_compute; eexists; reflexivity).
  destruct (created_dynamic_Some _ _ E) as (c & tr & H & Hc).
  assert (r_inputs_sorted c = mixed_inputs) as Hr.
  { pose proof H as H'. vm_compute in H'. injection H' as <- _. reflexivity. }
  pose proof E as E'. vm_compute in E'. injection E' as <-.
  match goal with
  | _ : created_ubo c = Some (UDynamic ?d0) |- _ => set (d := d0) in *
  end.
  destruct (GPU_uniformbuffer_dynamic_eval (UDynamic d) mixed_inputs)
    as [u' tr' | f] eqn:Ee; [| vm_compute in Ee; discriminate].
  pose proof Ee as Ee'. apply dynamic_eval_frame in Ee'.
  destruct Ee' as (d1 & d' & _ & -> & -> & _).
  destruct (dynamic_eval_packed_order example_platform mixed_inputs None c tr d
              mixed_inputs (UDynamic d') [])
    as (d2 & E2 & Hlen & Hsync); try assumption; try reflexivity.
  - unfold distinct_nodes, mixed_inputs. simpl.
    repeat constructor; simpl; intuition discriminate.
  - unfold mixed_inputs. repeat constructor; vm_compute; discriminate.
  - unfold mixed_inputs. repeat constructor.
  - injection E2 as <-. exists d, d'. split; [exact E |]. split; [exact Ee |].
    split; [exact Hlen | exact Hsync].
Defined.
